(** * Promotion orchestrator of [jx promote]: a shallow embedding

    The development follows the [promote] command of package [cmd]: the
    version resolver ([findLatestVersion]), target resolution
    ([GetTargetNamespace]), the sweep over automatic environments
    ([PromoteAllAutomatic]), the two promotion paths ([Promote],
    [PromoteViaPullRequest]), the issue notifier ([commentOnIssues]) and the
    merge-status poller ([WaitForPromotion], [waitForGitOpsPullRequest]).
    Line numbers in comments are those of the source file.

    Go strings are [string] (byte sequences), Go [error] values are
    identified with their message, [fmt.Sprintf] with [%s] verbs is string
    concatenation, and [map[string]string] is [gmap string string] read with
    the zero value [""] for a missing key.  Calls into collaborators whose
    code is outside the file (Git provider, Helm client, cluster clients,
    activity ledger, clock) go through an abstract world; every such call is
    also recorded in a chronological trace of events. *)

From Stdlib Require Import ZArith NArith Ascii String DecimalString.
From stdpp Require Import gmap strings list sorting.

Local Open Scope string_scope.
Local Open Scope Z_scope.

(* ===================================================================== *)
(** * Strings *)

(** Go [error]: only the message is observable ([%s] prints it). *)
Definition error := string.

(** [strings.Compare a b > 0]: byte-wise lexicographic order. *)
Definition strings_Compare_gt (a b : string) : bool :=
  match String.compare a b with Gt => true | _ => false end.

(** [strings.Join]. *)
Fixpoint strings_Join (elems : list string) (sep : string) : string :=
  match elems with
  | [] => ""
  | [x] => x
  | x :: rest => x ++ sep ++ strings_Join rest sep
  end.

(** [strings.HasPrefix]. *)
Fixpoint strings_HasPrefix (s p : string) : bool :=
  match p, s with
  | EmptyString, _ => true
  | String c p', String d s' => if Ascii.eqb c d then strings_HasPrefix s' p' else false
  | String _ _, EmptyString => false
  end.

(** [strings.Contains s sub]. *)
Fixpoint strings_Contains (s sub : string) : bool :=
  strings_HasPrefix s sub ||
  match s with
  | EmptyString => false
  | String _ s' => strings_Contains s' sub
  end.

(** [strings.Split s "."] restricted to a one-byte separator: the pieces
    between occurrences of [sep] (always at least one piece). *)
Fixpoint split_on (sep : ascii) (s : string) : list string :=
  match s with
  | EmptyString => [""]
  | String c s' =>
      if Ascii.eqb c sep then "" :: split_on sep s'
      else match split_on sep s' with
           | [] => [String c ""]
           | p :: ps => String c p :: ps
           end
  end.

(** [strings.IndexRune s c] followed by the two slices [s[:i]] and
    [s[i+1:]]: [None] when [c] does not occur. *)
Fixpoint cut_at (c : ascii) (s : string) : option (string * string) :=
  match s with
  | EmptyString => None
  | String d s' =>
      if Ascii.eqb d c then Some ("", s')
      else match cut_at c s' with
           | Some (l, r) => Some (String d l, r)
           | None => None
           end
  end.

(* ===================================================================== *)
(** * Semantic versions *)

Module semver.

(** Modelled from the spec: the semantic-version library
    ([github.com/blang/semver], imported by the file and not part of it).
    The spec only says that each string is "parsed as a semantic version"
    and that versions are compared; the model is Semantic Versioning 2.0.0:
    [MAJOR.MINOR.PATCH[-prerelease][+build]], numeric fields without
    leading zeroes that fit in 64 bits, precedence by the numeric triple
    and then by the prerelease identifiers, build metadata ignored. *)
Inductive PRVersion :=
| PRNum (VersionNum : N)
| PRStr (VersionStr : string).

Record Version := {
  Major : N;
  Minor : N;
  Patch : N;
  Pre : list PRVersion;
  Build : list string
}.

Definition is_digit (c : ascii) : bool :=
  let n := N_of_ascii c in ((48 <=? n) && (n <=? 57))%N.

Definition is_alphanum (c : ascii) : bool :=
  let n := N_of_ascii c in
  (is_digit c || ((65 <=? n) && (n <=? 90)) || ((97 <=? n) && (n <=? 122))
   || (n =? 45))%N.

Fixpoint containsOnly (p : ascii -> bool) (s : string) : bool :=
  match s with
  | EmptyString => true
  | String c s' => p c && containsOnly p s'
  end.

Definition hasLeadingZeroes (s : string) : bool :=
  match s with
  | String c (String _ _) => Ascii.eqb c "0"%char
  | _ => false
  end.

Fixpoint digits_value (acc : N) (s : string) : N :=
  match s with
  | EmptyString => acc
  | String c s' => digits_value (10 * acc + (N_of_ascii c - 48))%N s'
  end.

(** [strconv.ParseUint s 10 64] on a string of digits. *)
Definition ParseUint (s : string) : option N :=
  match s with
  | EmptyString => None
  | _ => let n := digits_value 0%N s in
         if (n <? 2 ^ 64)%N then Some n else None
  end.

(** One numeric field: digits only, no leading zero, in range. *)
Definition parse_number (s : string) : option N :=
  if negb (containsOnly is_digit s) then None
  else if hasLeadingZeroes s then None
  else ParseUint s.

Definition NewPRVersion (s : string) : option PRVersion :=
  match s with
  | EmptyString => None
  | _ =>
      if containsOnly is_digit s then
        if hasLeadingZeroes s then None
        else match ParseUint s with
             | Some n => Some (PRNum n)
             | None => None
             end
      else if containsOnly is_alphanum s then Some (PRStr s)
      else None
  end.

Fixpoint parse_prerelease (l : list string) : option (list PRVersion) :=
  match l with
  | [] => Some []
  | s :: rest =>
      match NewPRVersion s, parse_prerelease rest with
      | Some p, Some ps => Some (p :: ps)
      | _, _ => None
      end
  end.

Definition valid_build (s : string) : bool :=
  match s with
  | EmptyString => false
  | _ => containsOnly is_alphanum s
  end.

(** [semver.Parse]: [None] stands for a non-nil error. *)
Definition Parse (s : string) : option Version :=
  match cut_at "."%char s with
  | None => None
  | Some (majorStr, rest) =>
      match cut_at "."%char rest with
      | None => None
      | Some (minorStr, patchStr0) =>
          match parse_number majorStr, parse_number minorStr with
          | Some major, Some minor =>
              let '(patchStr1, build) :=
                match cut_at "+"%char patchStr0 with
                | Some (l, r) => (l, split_on "."%char r)
                | None => (patchStr0, [])
                end in
              let '(patchStr, prerelease) :=
                match cut_at "-"%char patchStr1 with
                | Some (l, r) => (l, split_on "."%char r)
                | None => (patchStr1, [])
                end in
              match parse_number patchStr, parse_prerelease prerelease with
              | Some patch, Some pre =>
                  if forallb valid_build build then
                    Some {| Major := major; Minor := minor; Patch := patch;
                            Pre := pre; Build := build |}
                  else None
              | _, _ => None
              end
          | _, _ => None
          end
      end
  end.

Definition compare_PR (v o : PRVersion) : Z :=
  match v, o with
  | PRNum _, PRStr _ => -1
  | PRStr _, PRNum _ => 1
  | PRNum a, PRNum b =>
      match (a ?= b)%N with Eq => 0 | Lt => -1 | Gt => 1 end
  | PRStr a, PRStr b =>
      match String.compare a b with Eq => 0 | Lt => -1 | Gt => 1 end
  end.

Fixpoint compare_Pre (v o : list PRVersion) : Z :=
  match v, o with
  | [], [] => 0
  | [], _ :: _ => -1
  | _ :: _, [] => 1
  | a :: v', b :: o' =>
      let c := compare_PR a b in
      if c =? 0 then compare_Pre v' o' else c
  end.

(** [v.Compare(o)]: [-1], [0] or [1]. *)
Definition Compare (v o : Version) : Z :=
  if negb (Major v =? Major o)%N then
    (if (Major o <? Major v)%N then 1 else -1)
  else if negb (Minor v =? Minor o)%N then
    (if (Minor o <? Minor v)%N then 1 else -1)
  else if negb (Patch v =? Patch o)%N then
    (if (Patch o <? Patch v)%N then 1 else -1)
  else
    match Pre v, Pre o with
    | [], [] => 0
    | [], _ :: _ => 1
    | _ :: _, [] => -1
    | pv, po => compare_Pre pv po
    end.

Definition uint_string (n : N) : string :=
  NilEmpty.string_of_uint (N.to_uint n).

Definition PRVersion_String (p : PRVersion) : string :=
  match p with
  | PRNum n => uint_string n
  | PRStr s => s
  end.

(** [v.String()]. *)
Definition String (v : Version) : string :=
  uint_string (Major v) ++ "." ++ uint_string (Minor v) ++ "."
    ++ uint_string (Patch v)
    ++ match Pre v with
       | [] => ""
       | _ => "-" ++ strings_Join (map PRVersion_String (Pre v)) "."
       end
    ++ match Build v with
       | [] => ""
       | _ => "+" ++ strings_Join (Build v) "."
       end.

End semver.

(* ===================================================================== *)
(** * Data model *)

(** Modelled from the spec: the type declarations of the environment
    resource ([v1.Environment], not part of the file).  An environment has a
    name, a namespace, a promotion strategy ([Manual] or [Automatic]), a kind
    ([Permanent], [Preview] or other), an optional source repository URL and
    an explicit ordering attribute. *)
Inductive PromotionStrategyType :=
| PromotionStrategyTypeManual
| PromotionStrategyTypeAutomatic.

Inductive EnvironmentKindType :=
| EnvironmentKindTypePermanent
| EnvironmentKindTypePreview
| EnvironmentKindTypeOther (kind : string).

Record EnvironmentSpec := {
  spec_Label : string;
  spec_Namespace : string;
  spec_PromotionStrategy : PromotionStrategyType;
  spec_Kind : EnvironmentKindType;
  spec_Source_URL : string;
  spec_Order : Z
}.

Record Environment := {
  env_Name : string;
  env_Spec : EnvironmentSpec
}.

(** Modelled from the spec: [kind.IsPermanent()] (not part of the file);
    the spec speaks of the environments "of [Permanent] kind". *)
Definition IsPermanent (kind : EnvironmentKindType) : bool :=
  match kind with
  | EnvironmentKindTypePermanent => true
  | _ => false
  end.

Definition is_Automatic (s : PromotionStrategyType) : bool :=
  match s with
  | PromotionStrategyTypeAutomatic => true
  | _ => false
  end.

(** Ascending order of the ordering attribute. *)
Definition byOrder (a b : Environment) : Prop :=
  spec_Order (env_Spec a) ≤ spec_Order (env_Spec b).

Global Instance byOrder_dec a b : Decision (byOrder a b).
Proof. unfold byOrder. apply _. Defined.

(** Modelled from the spec: [gits.GitPullRequest] (type declaration not part
    of the file), with the fields the file reads.  The pointer fields
    [Merged], [MergeCommitSHA] and [Mergeable] are options. *)
Record GitPullRequest := {
  pr_URL : string;
  pr_Owner : string;
  pr_Repo : string;
  pr_Merged : option bool;
  pr_MergeCommitSHA : option string;
  pr_Mergeable : option bool;
  pr_LastCommitSha : string;
  pr_ClosedAt : option Z
}.

(** Modelled from the spec: [pr.IsClosed()] (not part of the file). *)
Definition IsClosed (pr : GitPullRequest) : bool :=
  match pr_ClosedAt pr with Some _ => true | None => false end.

(** Modelled from the spec: [gits.GitRepoStatus] (type declaration not part
    of the file): a commit status [(context-url, state, target-url,
    description)]. *)
Record GitRepoStatus := {
  st_URL : string;
  st_State : string;
  st_TargetURL : string;
  st_Description : string
}.

(** Modelled from the spec: [status.IsFailed()] (not part of the file); a
    failed state is [failure] or [error]. *)
Definition IsFailed (status : GitRepoStatus) : bool :=
  bool_decide (st_State status = "error") || bool_decide (st_State status = "failure").

(** The newline byte of the Go format strings. *)
Definition nl : string := String (ascii_of_nat 10) "".

(** Modelled from the spec: [util.InvalidOption name value values] (not part
    of the file), the configuration error for an option value outside its
    valid choices; its message enumerates the valid values. *)
Definition InvalidOption (name value : string) (values : list string) : error :=
  "Invalid option: --" ++ name ++ " " ++ value ++ nl
    ++ "Possible values: " ++ strings_Join values ", ".

Definition gitStatusSuccess : string := "success".
Definition optionEnvironment : string := "env".
Definition optionApplication : string := "app".
Definition optionTimeout : string := "timeout".
Definition optionPullRequestPollTime : string := "pull-request-poll-time".

(** [waitAfterPullRequestCreated = time.Second * 3], in nanoseconds. *)
Definition waitAfterPullRequestCreated : Z := 3 * 1000000000.

(** [v1.GitStatus], the status entries written to the ledger. *)
Record GitStatus := {
  gs_URL : string;
  gs_Status : string
}.

(** [gits.GitRepositoryInfo], as far as the file reads it. *)
Record GitRepositoryInfo := {
  gi_Organisation : string;
  gi_Name : string
}.

(** [kube.PromoteStepActivityKey]: the derived ledger key.  Its field
    [ApplicationURL], which only the issue notifier fills, is left out. *)
Record PromoteStepActivityKey := {
  key_Name : string;
  key_Pipeline : string;
  key_Build : string;
  key_Environment : string
}.

(** The callbacks handed to the activity recorder, one constructor per
    callback of the file: the closures [startPromotePR] and [mergedPR] with
    the variables they capture, and [kube.FailedPromotionPullRequest]. *)
Inductive PromotePullRequestFn :=
| startPromotePR (pullRequestURL : option string) (version : string)
| mergedPR (mergeSha : string)
| FailedPromotionPullRequest.

(** Likewise for the update step: the closures [startPromote] and
    [updateStatuses], and [kube.StartPromotionUpdate],
    [kube.CompletePromotionUpdate], [kube.FailedPromotionUpdate]. *)
Inductive PromoteUpdateFn :=
| startPromote (version : string)
| StartPromotionUpdate
| updateStatuses (prStatuses : list GitStatus)
| CompletePromotionUpdate
| FailedPromotionUpdate.

(** Modelled from the spec: [helm.Requirements] and
    [requirements.SetAppVersion] (not part of the file): the manifest pins,
    per application, a version and a repository URL. *)
Definition Requirements := gmap string (string * string).

Definition SetAppVersion (requirements : Requirements)
    (app version repository : string) : Requirements :=
  <[app := (version, repository)]> requirements.

(** The options the orchestrator reads.  The fields [Activities], [GitInfo],
    [jenkinsURL] and [releaseResource] are only touched by collaborators and
    live in the world. *)
Record PromoteOptions := {
  o_Namespace : string;
  o_Environment : string;
  o_Application : string;
  o_Version : string;
  o_ReleaseName : string;
  o_LocalHelmRepoName : string;
  o_HelmRepositoryURL : string;
  o_NoHelmUpdate : bool;
  o_AllAutomatic : bool;
  o_NoMergePullRequest : bool;
  o_TimeoutDuration : option Z;
  o_PullRequestPollDuration : option Z
}.

Definition set_ReleaseName (releaseName : string) (o : PromoteOptions) : PromoteOptions :=
  {| o_Namespace := o_Namespace o; o_Environment := o_Environment o;
     o_Application := o_Application o; o_Version := o_Version o;
     o_ReleaseName := releaseName;
     o_LocalHelmRepoName := o_LocalHelmRepoName o;
     o_HelmRepositoryURL := o_HelmRepositoryURL o;
     o_NoHelmUpdate := o_NoHelmUpdate o; o_AllAutomatic := o_AllAutomatic o;
     o_NoMergePullRequest := o_NoMergePullRequest o;
     o_TimeoutDuration := o_TimeoutDuration o;
     o_PullRequestPollDuration := o_PullRequestPollDuration o |}.

(* ===================================================================== *)
(** * Effects *)

Inductive LogLevel := Info | Warn.

(** One event per call that leaves the file. *)
Inductive Event :=
| EvLog (level : LogLevel) (msg : string)
| EvKubeClient
| EvGetDevNamespace (ns : string)
| EvJXClient
| EvListEnvironments (team : string)
| EvGetEnvironments (team : string)
| EvEnsureNamespaceCreated (ns : string)
| EvAskOne
| EvVerifyHelmConfigured
| EvUpdateRepo
| EvUpgradeChart (fullAppName releaseName ns version : string)
| EvSearchChartVersions (app : string)
| EvCreatePromoteKey (envName : string)
| EvCreateEnvironmentPullRequest (envName branchNameText title message : string)
| EvOnPromotePullRequest (key : PromoteStepActivityKey) (fn : PromotePullRequestFn)
| EvOnPromoteUpdate (key : PromoteStepActivityKey) (fn : PromoteUpdateFn)
| EvCreateGitAuthConfigService
| EvGitServerKind
| EvPickOrCreateProvider (gitKind : string)
| EvCommentOnClosedIssues (ns envName : string)
| EvUpdatePullRequestStatus (url : string)
| EvListCommitStatus (owner repo sha : string)
| EvPullRequestLastCommitStatus (url : string)
| EvMergePullRequest (url message : string)
| EvSleep (d : Z).

(** The state a run threads: the options struct behind the receiver [o]
    (mutated in place by [Promote]) and the outside world. *)
Record State (W : Type) := mkState {
  opts : PromoteOptions;
  world : W
}.
Arguments mkState {W} _ _.
Arguments opts {W} _.
Arguments world {W} _.

(** Result of running a piece of the program: a value with the new state, a
    Go panic (nil dereference), or a poll loop cut off by the fuel.  Each
    carries the events emitted, oldest first. *)
Inductive Res (W A : Type) :=
| Ret (a : A) (s : State W) (t : list Event)
| Panic (t : list Event)
| OutOfFuel (t : list Event).
Arguments Ret {W A} _ _ _.
Arguments Panic {W A} _.
Arguments OutOfFuel {W A} _.

Definition M (W A : Type) := State W -> Res W A.

Definition ret {W A} (a : A) : M W A := fun s => Ret a s [].

(** [prepend t r]: the events [t] happened before those of [r]. *)
Definition prepend {W A} (t : list Event) (r : Res W A) : Res W A :=
  match r with
  | Ret a s t' => Ret a s (t ++ t')
  | Panic t' => Panic (t ++ t')
  | OutOfFuel t' => OutOfFuel (t ++ t')
  end.

Definition bind {W A B} (m : M W A) (f : A -> M W B) : M W B :=
  fun s =>
    match m s with
    | Ret a s1 t1 => prepend t1 (f a s1)
    | Panic t1 => Panic t1
    | OutOfFuel t1 => OutOfFuel t1
    end.

(** The statements of a Go body are sequenced with stdpp's monad notation:
    [x ← m; k] and [m;; k]. *)
Global Instance M_ret {W} : MRet (M W) := fun A a => ret a.
Global Instance M_bind {W} : MBind (M W) := fun A B f m => bind m f.

Definition panic {W A} : M W A := fun _ => Panic [].
Definition outOfFuel {W A} : M W A := fun _ => OutOfFuel [].
Definition emit {W} (e : Event) : M W unit := fun s => Ret tt s [e].
Definition log {W} (level : LogLevel) (msg : string) : M W unit := emit (EvLog level msg).
Definition getOpts {W} : M W PromoteOptions := fun s => Ret (opts s) s [].
Definition setOpts {W} (o : PromoteOptions) : M W unit :=
  fun s => Ret tt (mkState o (world s)) [].

(** A call to a collaborator: the event, then the world's answer. *)
Definition call {W X} (e : Event) (f : W -> X * W) : M W X :=
  fun s => let '(x, w) := f (world s) in Ret x (mkState (opts s) w) [e].

(** The early [return] of a Go function from inside a block: [Return r]
    leaves the function with result [r], [Next a] falls through. *)
Inductive Flow (R A : Type) :=
| Return (r : R)
| Next (a : A).
Arguments Return {R A} _.
Arguments Next {R A} _.

(** [gits.GitProvider], the interface value carried by a pull-request info:
    the methods the file calls.  [UpdatePullRequestStatus] refreshes the
    pull request in place and so returns the refreshed value. *)
Record GitProvider (W : Type) := {
  UpdatePullRequestStatus : GitPullRequest -> W -> (GitPullRequest * option error) * W;
  ListCommitStatus : string -> string -> string -> W -> (list GitRepoStatus * option error) * W;
  PullRequestLastCommitStatus : GitPullRequest -> W -> (string * option error) * W;
  MergePullRequest : GitPullRequest -> string -> W -> option error * W
}.
Arguments UpdatePullRequestStatus {W} _ _ _.
Arguments ListCommitStatus {W} _ _ _ _ _.
Arguments PullRequestLastCommitStatus {W} _ _ _.
Arguments MergePullRequest {W} _ _ _ _.

(** [ReleasePullRequestInfo]; the [PullRequestArguments] field is never read
    by the file and is left out.  The promoter always fills [PullRequest]. *)
Record ReleasePullRequestInfo (W : Type) := {
  pri_GitProvider : GitProvider W;
  pri_PullRequest : GitPullRequest
}.
Arguments pri_GitProvider {W} _.
Arguments pri_PullRequest {W} _.

Record ReleaseInfo (W : Type) := {
  ri_ReleaseName : string;
  ri_FullAppName : string;
  ri_Version : string;
  ri_PullRequestInfo : option (ReleasePullRequestInfo W)
}.
Arguments ri_ReleaseName {W} _.
Arguments ri_FullAppName {W} _.
Arguments ri_Version {W} _.
Arguments ri_PullRequestInfo {W} _.

(** [releaseInfo.PullRequestInfo = info]. *)
Definition set_PullRequestInfo {W} (info : option (ReleasePullRequestInfo W))
    (releaseInfo : ReleaseInfo W) : ReleaseInfo W :=
  {| ri_ReleaseName := ri_ReleaseName releaseInfo;
     ri_FullAppName := ri_FullAppName releaseInfo;
     ri_Version := ri_Version releaseInfo;
     ri_PullRequestInfo := info |}.

(** The collaborators behind the receiver [o] whose code is outside the
    file.  Client handles are not modelled, only what the file reads from
    the answers.  [createPromoteKey] and [verifyHelmConfigured] are methods
    of the file that only probe the environment; they are kept abstract, as
    is the second half of [commentOnIssues] ([commentOnClosedIssues]), which
    returns nothing.  [o_GitInfo] reads the field [o.GitInfo], which
    [createPromoteKey] fills.  [SortEnvironments] and [Duration_String] are
    pure. *)
Class Services (W : Type) := {
  KubeClient : W -> (string * option error) * W;
  GetDevNamespace : string -> W -> (string * option error) * W;
  JXClient : W -> option error * W;
  Environments_List : string -> W -> (list Environment * option error) * W;
  GetEnvironments : string -> W -> (gmap string Environment * list string * option error) * W;
  EnsureNamespaceCreated : string -> W -> option error * W;
  SortEnvironments : list Environment -> list Environment;
  survey_AskOne : W -> (bool * option error) * W;
  verifyHelmConfigured : W -> option error * W;
  Helm_UpdateRepo : W -> option error * W;
  Helm_UpgradeChart : string -> string -> string -> string -> W -> option error * W;
  Helm_SearchChartVersions : string -> W -> (list string * option error) * W;
  createPromoteKey : PromoteOptions -> Environment -> W -> PromoteStepActivityKey * W;
  createEnvironmentPullRequest :
    Environment -> (Requirements -> M W (Requirements * option error)) ->
    string -> string -> string ->
    option (ReleasePullRequestInfo W) ->
    M W (option (ReleasePullRequestInfo W) * option error);
  OnPromotePullRequest : PromoteStepActivityKey -> PromotePullRequestFn -> W -> option error * W;
  OnPromoteUpdate : PromoteStepActivityKey -> PromoteUpdateFn -> W -> option error * W;
  o_GitInfo : W -> option GitRepositoryInfo;
  CreateGitAuthConfigService : W -> option error * W;
  GitServerKind : GitRepositoryInfo -> W -> (string * option error) * W;
  PickOrCreateProvider : GitRepositoryInfo -> string -> W -> option error * W;
  commentOnClosedIssues :
    PromoteOptions -> string -> Environment -> PromoteStepActivityKey ->
    GitRepositoryInfo -> W -> unit * W;
  time_Now : W -> Z * W;
  time_Sleep : Z -> W -> unit * W;
  Duration_String : Z -> string
}.

(* ===================================================================== *)
(** * The program *)

Section Program.
Context {W : Type} `{!Services W}.

(** [log.Infof], [log.Warnf]; [util.ColorInfo] only adds colour codes,
    which are not modelled. *)
Definition Infof (msg : string) : M W unit := log Info msg.
Definition Warnf (msg : string) : M W unit := log Warn msg.

(** [for _, x := range l { acc = f(acc, x) }]. *)
Fixpoint forRange {A B} (f : A -> B -> M W A) (l : list B) (acc : A) : M W A :=
  match l with
  | [] => mret acc
  | x :: l' => acc' ← f acc x; forRange f l' acc'
  end.

(** ** [findLatestVersion] *)

(** One round of the loop over [versions], on the pair
    [(maxSemVer, maxString)].  The text of the parse error, which the
    warning also prints, is not modelled. *)
Definition findLatestVersion_body (acc : option semver.Version * string)
    (version : string) : M W (option semver.Version * string) :=
  let '(maxSemVer, maxString) := acc in
  match semver.Parse version with
  | None =>
      Warnf ("Invalid semantic version: " ++ version ++ nl);;
      if bool_decide (maxString = "") || strings_Compare_gt version maxString
      then mret (maxSemVer, version)
      else mret (maxSemVer, maxString)
  | Some sv =>
      match maxSemVer with
      | None => mret (Some sv, maxString)
      | Some m =>
          if 0 <? semver.Compare m sv then mret (Some sv, maxString)
          else mret (maxSemVer, maxString)
      end
  end.

Definition findLatestVersion (app : string) : M W (string * option error) :=
  '(versions, err) ← call (EvSearchChartVersions app) (Helm_SearchChartVersions app);
  match err with
  | Some e => mret ("", Some e)
  | None =>
      '(maxSemVer, maxString) ← forRange findLatestVersion_body versions (None, "");
      match maxSemVer with
      | Some v => mret (semver.String v, None)
      | None =>
          if bool_decide (maxString = "") then
            mret ("", Some ("Could not find a version of app " ++ app
                            ++ " in the helm repositories"))
          else mret (maxString, None)
      end
  end.

(** ** [PromoteViaPullRequest] *)

(** The closure [modifyRequirementsFn]; it returns the edited manifest. *)
Definition modifyRequirementsFn (o : PromoteOptions) (requirements : Requirements)
    : M W (Requirements * option error) :=
  let app := o_Application o in
  r ← (if bool_decide (o_Version o = "") then findLatestVersion app
       else mret (o_Version o, None));
  match r with
  | (_, Some e) => mret (requirements, Some e)
  | (version, None) =>
      mret (SetAppVersion requirements app version (o_HelmRepositoryURL o), None)
  end.

(** [releaseInfo] is a pointer: the function returns the updated struct
    next to the error. *)
Definition PromoteViaPullRequest (env : Environment) (releaseInfo : ReleaseInfo W)
    : M W (ReleaseInfo W * option error) :=
  o ← getOpts;
  let version := o_Version o in
  let versionName := if bool_decide (version = "") then "latest" else version in
  let app := o_Application o in
  let branchNameText := "promote-" ++ app ++ "-" ++ versionName in
  let title := app ++ " to " ++ versionName in
  let message := "Promote " ++ app ++ " to version " ++ versionName in
  emit (EvCreateEnvironmentPullRequest (env_Name env) branchNameText title message);;
  '(info, err) ← createEnvironmentPullRequest env (modifyRequirementsFn o)
                    branchNameText title message (ri_PullRequestInfo releaseInfo);
  mret (set_PullRequestInfo info releaseInfo, err).

(** ** [GetTargetNamespace] *)

Definition GetTargetNamespace (ns env : string)
    : M W (string * option Environment * option error) :=
  '(currentNs, err) ← call EvKubeClient KubeClient;
  match err with
  | Some e => mret ("", None, Some e)
  | None =>
  '(team, err) ← call (EvGetDevNamespace currentNs) (GetDevNamespace currentNs);
  match err with
  | Some e => mret ("", None, Some e)
  | None =>
  err ← call EvJXClient JXClient;
  match err with
  | Some e => mret ("", None, Some e)
  | None =>
  '(m, envNames, err) ← call (EvGetEnvironments team) (GetEnvironments team);
  match err with
  | Some e => mret ("", None, Some e)
  | None =>
  if bool_decide (length envNames = 0%nat) then
    mret ("", None, Some ("No Environments have been created yet in team " ++ team
                          ++ ". Please create some via 'jx create env'"))
  else
  let resolved : Flow (string * option Environment * option error)
                      (string * option Environment) :=
    if bool_decide (env ≠ "") then
      match (m : gmap string Environment) !! env with
      | None => Return ("", None, Some (InvalidOption optionEnvironment env envNames))
      | Some envResource =>
          let targetNS := spec_Namespace (env_Spec envResource) in
          if bool_decide (targetNS = "") then
            Return ("", None, Some ("Environment " ++ env
                      ++ " does not have a namspace associated with it!"))
          else Next (targetNS, Some envResource)
      end
    else if bool_decide (ns ≠ "") then Next (ns, None)
    else Next (currentNs, None) in
  match resolved with
  | Return r => mret r
  | Next (targetNS, envResource) =>
      err ← call (EvEnsureNamespaceCreated targetNS) (EnsureNamespaceCreated targetNS);
      match err with
      | Some e => mret ("", None, Some e)
      | None => mret (targetNS, envResource, None)
      end
  end
  end end end end.

(** ** [commentOnIssues] *)

(** Lines 864-908 as written; lines 909-977, which look up the service
    URL and the release and comment on its closed issues without ever
    returning an error, are the single call [commentOnClosedIssues]. *)
Definition commentOnIssues (targetNS : string) (environment : Environment)
    (promoteKey : PromoteStepActivityKey) : M W (option error) :=
  o ← getOpts;
  let ens := spec_Namespace (env_Spec environment) in
  let envName := spec_Label (env_Spec environment) in
  let app := o_Application o in
  let version := o_Version o in
  if bool_decide (ens = "") then
    Warnf ("Environment " ++ envName ++ " has no namespace" ++ nl);;
    mret None
  else if bool_decide (app = "") then
    Warnf ("No application name so cannot comment on issues that they are now in "
           ++ envName ++ nl);;
    mret None
  else if bool_decide (version = "") then
    Warnf ("No version name so cannot comment on issues that they are now in "
           ++ envName ++ nl);;
    mret None
  else
    gitInfo ← (fun s => Ret (o_GitInfo (world s)) s []);
    match gitInfo with
    | None =>
        Warnf ("No GitInfo discovered so cannot comment on issues that they are now in "
               ++ envName ++ nl);;
        mret None
    | Some gitInfo =>
        err ← call EvCreateGitAuthConfigService CreateGitAuthConfigService;
        match err with
        | Some e => mret (Some e)
        | None =>
        '(gitKind, err) ← call EvGitServerKind (GitServerKind gitInfo);
        match err with
        | Some e => mret (Some e)
        | None =>
        err ← call (EvPickOrCreateProvider gitKind) (PickOrCreateProvider gitInfo gitKind);
        match err with
        | Some e => mret (Some e)
        | None =>
        err ← call EvJXClient JXClient;
        match err with
        | Some e => mret (Some e)
        | None =>
        '(_, err) ← call EvKubeClient KubeClient;
        match err with
        | Some e => mret (Some e)
        | None =>
            call (EvCommentOnClosedIssues ens envName)
                 (commentOnClosedIssues o ens environment promoteKey gitInfo);;
            mret None
        end end end end end
    end.

(** ** [Promote] *)

(** [env] is never nil here: [Run] and [PromoteAllAutomatic] pass an
    environment, and [createPromoteKey] dereferences it.  The returned
    [*ReleaseInfo] is nil only on the first exit. *)
Definition Promote (targetNS : string) (env : Environment) (warnIfAuto : bool)
    : M W (option (ReleaseInfo W) * option error) :=
  o ← getOpts;
  let app := o_Application o in
  if bool_decide (app = "") then
    Warnf ("No application name could be detected so cannot promote via Helm. If the detection of the helm chart name is not working consider adding it with the --"
           ++ optionApplication ++ " argument on the 'jx promomote' command" ++ nl);;
    mret (None, None)
  else
  let version := o_Version o in
  (if bool_decide (version = "") then
     Infof ("Promoting latest version of app " ++ app ++ " to namespace " ++ targetNS ++ nl)
   else
     Infof ("Promoting app " ++ app ++ " version " ++ version ++ " to namespace "
            ++ targetNS ++ nl));;
  let fullAppName :=
    if bool_decide (o_LocalHelmRepoName o ≠ "") then o_LocalHelmRepoName o ++ "/" ++ app
    else app in
  releaseName ← (if bool_decide (o_ReleaseName o = "") then
                   let releaseName := targetNS ++ "-" ++ app in
                   setOpts (set_ReleaseName releaseName o);;
                   mret releaseName
                 else mret (o_ReleaseName o));
  let releaseInfo : ReleaseInfo W :=
    {| ri_ReleaseName := releaseName; ri_FullAppName := fullAppName;
       ri_Version := version; ri_PullRequestInfo := None |} in
  confirmed ← (if warnIfAuto && is_Automatic (spec_PromotionStrategy (env_Spec env)) then
                 Infof ("WARNING: The Environment " ++ env_Name env
                        ++ " is setup to promote automatically as part of the CI/CD Pipelines."
                        ++ nl ++ nl);;
                 '(flag, err) ← call EvAskOne survey_AskOne;
                 match err with
                 | Some e => mret (Return (Some releaseInfo, Some e))
                 | None =>
                     if negb flag then mret (Return (Some releaseInfo, None))
                     else mret (Next tt)
                 end
               else mret (Next tt));
  match confirmed with
  | Return r => mret r
  | Next _ =>
  o ← getOpts;
  promoteKey ← call (EvCreatePromoteKey (env_Name env)) (createPromoteKey o env);
  if bool_decide (spec_Source_URL (env_Spec env) ≠ "")
     && IsPermanent (spec_Kind (env_Spec env)) then
    '(releaseInfo, err) ← PromoteViaPullRequest env releaseInfo;
    match err with
    | None =>
        let fn := startPromotePR
                    (pr_URL ∘ pri_PullRequest <$> ri_PullRequestInfo releaseInfo) version in
        err ← call (EvOnPromotePullRequest promoteKey fn) (OnPromotePullRequest promoteKey fn);
        call (EvSleep waitAfterPullRequestCreated) (time_Sleep waitAfterPullRequestCreated);;
        mret (Some releaseInfo, err)
    | Some e => mret (Some releaseInfo, Some e)
    end
  else
    err ← call EvVerifyHelmConfigured verifyHelmConfigured;
    match err with
    | Some e => mret (Some releaseInfo, Some e)
    | None =>
    err ← (if negb (o_NoHelmUpdate o) then
             Infof "Updating the helm repositories to ensure we can find the latest versions...";;
             call EvUpdateRepo Helm_UpdateRepo
           else mret None);
    match err with
    | Some e => mret (Some releaseInfo, Some e)
    | None =>
    call (EvOnPromoteUpdate promoteKey (startPromote version))
         (OnPromoteUpdate promoteKey (startPromote version));;
    err ← call (EvUpgradeChart fullAppName releaseName targetNS version)
               (Helm_UpgradeChart fullAppName releaseName targetNS version);
    match err with
    | None =>
        err ← commentOnIssues targetNS env promoteKey;
        match err with
        | Some e => Warnf ("Failed to comment on issues for release " ++ releaseName
                           ++ ": " ++ e ++ nl)
        | None => mret tt
        end;;
        err ← call (EvOnPromoteUpdate promoteKey CompletePromotionUpdate)
                   (OnPromoteUpdate promoteKey CompletePromotionUpdate);
        mret (Some releaseInfo, err)
    | Some _ =>
        err ← call (EvOnPromoteUpdate promoteKey FailedPromotionUpdate)
                   (OnPromoteUpdate promoteKey FailedPromotionUpdate);
        mret (Some releaseInfo, err)
    end
    end end
  end.

(** ** [waitForGitOpsPullRequest] *)

(** The variables of the poll loop.  The local [pullRequestInfo] always
    holds the same pointer as [releaseInfo.PullRequestInfo] (it is copied
    from it at entry and again after a rebase), and the refreshed pull
    request is the object both point to: the state keeps one copy, inside
    [releaseInfo]. *)
Record PollState := mkPollState {
  releaseInfo : ReleaseInfo W;
  logMergeFailure : bool;
  logNoMergeCommitSha : bool;
  logHasMergeSha : bool;
  logMergeStatusError : bool;
  logNoMergeStatuses : bool;
  urlStatusMap : gmap string string;
  urlStatusTargetURLMap : gmap string string
}.

Definition pullRequestInfo (st : PollState) : option (ReleasePullRequestInfo W) :=
  ri_PullRequestInfo (releaseInfo st).

Definition set_releaseInfo (r : ReleaseInfo W) (st : PollState) : PollState :=
  mkPollState r (logMergeFailure st) (logNoMergeCommitSha st) (logHasMergeSha st)
    (logMergeStatusError st) (logNoMergeStatuses st) (urlStatusMap st)
    (urlStatusTargetURLMap st).
Definition set_logMergeFailure (st : PollState) : PollState :=
  mkPollState (releaseInfo st) true (logNoMergeCommitSha st) (logHasMergeSha st)
    (logMergeStatusError st) (logNoMergeStatuses st) (urlStatusMap st)
    (urlStatusTargetURLMap st).
Definition set_logNoMergeCommitSha (st : PollState) : PollState :=
  mkPollState (releaseInfo st) (logMergeFailure st) true (logHasMergeSha st)
    (logMergeStatusError st) (logNoMergeStatuses st) (urlStatusMap st)
    (urlStatusTargetURLMap st).
Definition set_logHasMergeSha (st : PollState) : PollState :=
  mkPollState (releaseInfo st) (logMergeFailure st) (logNoMergeCommitSha st) true
    (logMergeStatusError st) (logNoMergeStatuses st) (urlStatusMap st)
    (urlStatusTargetURLMap st).
Definition set_logMergeStatusError (st : PollState) : PollState :=
  mkPollState (releaseInfo st) (logMergeFailure st) (logNoMergeCommitSha st)
    (logHasMergeSha st) true (logNoMergeStatuses st) (urlStatusMap st)
    (urlStatusTargetURLMap st).
Definition set_logNoMergeStatuses (st : PollState) : PollState :=
  mkPollState (releaseInfo st) (logMergeFailure st) (logNoMergeCommitSha st)
    (logHasMergeSha st) (logMergeStatusError st) true (urlStatusMap st)
    (urlStatusTargetURLMap st).
Definition set_urlStatus (url state targetURL : string) (st : PollState) : PollState :=
  mkPollState (releaseInfo st) (logMergeFailure st) (logNoMergeCommitSha st)
    (logHasMergeSha st) (logMergeStatusError st) (logNoMergeStatuses st)
    (<[url := state]> (urlStatusMap st))
    (<[url := targetURL]> (urlStatusTargetURLMap st)).

(** The in-place refresh of [*pr], seen through [releaseInfo]. *)
Definition set_PullRequest (info : ReleasePullRequestInfo W) (pr : GitPullRequest)
    (st : PollState) : PollState :=
  set_releaseInfo
    (set_PullRequestInfo
       (Some {| pri_GitProvider := pri_GitProvider info; pri_PullRequest := pr |})
       (releaseInfo st)) st.

(** The state at entry of [waitForGitOpsPullRequest]. *)
Definition initialPollState (r : ReleaseInfo W) : PollState :=
  mkPollState r false false false false false ∅ ∅.

(** [m[k]] on a Go [map[string]string]: the zero value when absent. *)
Definition mapGet (m : gmap string string) (k : string) : string :=
  default "" (m !! k).

(** Modelled from the spec: [util.SortedMapKeys] (not part of the file),
    the keys of the map in increasing order. *)
Definition SortedMapKeys (m : gmap string string) : list string :=
  merge_sort (λ a b, Is_true (String.leb a b)) (map fst (map_to_list m)).

(** [for] loop whose body may [return] from the enclosing function. *)
Fixpoint forRangeFlow {R A B} (f : A -> B -> M W (Flow R A)) (l : list B) (acc : A)
    : M W (Flow R A) :=
  match l with
  | [] => mret (Next acc)
  | x :: l' =>
      r ← f acc x;
      match r with
      | Return v => mret (Return v)
      | Next acc' => forRangeFlow f l' acc'
      end
  end.

Section Poller.
Variables (ns : string) (env : Environment).
(** [end] and [duration] are parameters of the function and are never
    assigned. *)
Variables (end_ : Z) (duration : Z) (promoteKey : PromoteStepActivityKey).

(** Lines 580-597: one round of the loop over [statuses]. *)
Definition statuses_body (st : PollState) (status : GitRepoStatus)
    : M W (Flow (option error) PollState) :=
  if IsFailed status then
    Warnf ("merge status: " ++ st_State status ++ " URL: " ++ st_TargetURL status
           ++ " description: " ++ st_Description status ++ nl);;
    mret (Return (Some ("Status: " ++ st_State status ++ " URL: " ++ st_TargetURL status
                        ++ " description: " ++ st_Description status ++ nl)))
  else
    let url := st_URL status in
    let state := st_State status in
    if bool_decide (mapGet (urlStatusMap st) url = "")
       || bool_decide (mapGet (urlStatusMap st) url ≠ gitStatusSuccess) then
      if bool_decide (mapGet (urlStatusMap st) url ≠ state) then
        Infof ("merge status: " ++ state ++ " for URL " ++ st_URL status
               ++ " with target: " ++ st_TargetURL status ++ " description: "
               ++ st_Description status ++ nl);;
        mret (Next (set_urlStatus url state (st_TargetURL status) st))
      else mret (Next st)
    else mret (Next st).

(** Lines 598-610: the statuses written to the ledger. *)
Definition prStatuses (st : PollState) : list GitStatus :=
  map (λ url,
         let targetURL := mapGet (urlStatusTargetURLMap st) url in
         {| gs_URL := if bool_decide (targetURL = "") then url else targetURL;
            gs_Status := mapGet (urlStatusMap st) url |})
      (SortedMapKeys (urlStatusMap st)).

(** Lines 617-622. *)
Definition succeeded (st : PollState) : bool :=
  bool_decide (map_Forall (λ _ v, v = gitStatusSuccess) (urlStatusMap st)).

(** Lines 568-632: what the poller does with the answer of
    [ListCommitStatus] for the merge sha. *)
Definition checkMergeStatuses (pr : GitPullRequest) (mergeSha : string) (st : PollState)
    (statuses : list GitRepoStatus) (err : option error)
    : M W (Flow (option error) PollState) :=
  match err with
  | Some e =>
      if negb (logMergeStatusError st) then
        Warnf ("Failed to query merge status of repo " ++ pr_Owner pr ++ "/"
               ++ pr_Repo pr ++ " with merge sha " ++ mergeSha ++ " due to: " ++ e ++ nl);;
        mret (Next (set_logMergeStatusError st))
      else mret (Next st)
  | None =>
      if bool_decide (length statuses = 0%nat) then
        if negb (logNoMergeStatuses st) then
          Infof ("Merge commit has not yet any statuses on repo " ++ pr_Owner pr ++ "/"
                 ++ pr_Repo pr ++ " merge sha " ++ mergeSha ++ nl);;
          mret (Next (set_logNoMergeStatuses st))
        else mret (Next st)
      else
        r ← forRangeFlow statuses_body statuses st;
        match r with
        | Return e => mret (Return e)
        | Next st =>
            call (EvOnPromoteUpdate promoteKey (updateStatuses (prStatuses st)))
                 (OnPromoteUpdate promoteKey (updateStatuses (prStatuses st)));;
            if succeeded st then
              Infof "Merge status checks all passed so the promotion worked!";;
              err ← commentOnIssues ns env promoteKey;
              match err with
              | None =>
                  err ← call (EvOnPromoteUpdate promoteKey CompletePromotionUpdate)
                             (OnPromoteUpdate promoteKey CompletePromotionUpdate);
                  mret (Return err)
              | Some e => mret (Return (Some e))
              end
            else mret (Next st)
        end
  end.

(** Lines 545-633: the pull request is merged. *)
Definition mergedBranch (gitProvider : GitProvider W) (pr : GitPullRequest)
    (st : PollState) : M W (Flow (option error) PollState) :=
  match pr_MergeCommitSHA pr with
  | None =>
      if negb (logNoMergeCommitSha st) then
        Infof ("Pull Request " ++ pr_URL pr ++ " is merged but waiting for Merge SHA" ++ nl);;
        mret (Next (set_logNoMergeCommitSha st))
      else mret (Next st)
  | Some mergeSha =>
      st ← (if negb (logHasMergeSha st) then
              Infof ("Pull Request " ++ pr_URL pr ++ " is merged at sha " ++ mergeSha ++ nl);;
              call (EvOnPromotePullRequest promoteKey (mergedPR mergeSha))
                   (OnPromotePullRequest promoteKey (mergedPR mergeSha));;
              mret (set_logHasMergeSha st)
            else mret st);
      call (EvOnPromoteUpdate promoteKey StartPromotionUpdate)
           (OnPromoteUpdate promoteKey StartPromotionUpdate);;
      '(statuses, err) ← call (EvListCommitStatus (pr_Owner pr) (pr_Repo pr) mergeSha)
                              (ListCommitStatus gitProvider (pr_Owner pr) (pr_Repo pr) mergeSha);
      checkMergeStatuses pr mergeSha st statuses err
  end.

(** Lines 635-661: the pull request is not merged. *)
Definition openBranch (gitProvider : GitProvider W) (pr : GitPullRequest)
    (st : PollState) : M W (Flow (option error) PollState) :=
  if IsClosed pr then
    Warnf ("Pull Request " ++ pr_URL pr ++ " is closed" ++ nl);;
    mret (Return (Some ("Promotion failed as Pull Request " ++ pr_URL pr
                        ++ " is closed without merging")))
  else
    '(status, err) ← call (EvPullRequestLastCommitStatus (pr_URL pr))
                          (PullRequestLastCommitStatus gitProvider pr);
    match err with
    | Some e =>
        Warnf ("Failed to query the Pull Request last commit status for " ++ pr_URL pr
               ++ " ref " ++ pr_LastCommitSha pr ++ " " ++ e ++ nl);;
        mret (Next st)
    | None =>
        if bool_decide (status = "in-progress") then
          Infof "The build for the Pull Request last commit is currently in progress.";;
          mret (Next st)
        else if bool_decide (status = "success") then
          o ← getOpts;
          if negb (o_NoMergePullRequest o) then
            let message := "jx promote automatically merged promotion PR" in
            err ← call (EvMergePullRequest (pr_URL pr) message)
                       (MergePullRequest gitProvider pr message);
            match err with
            | Some e =>
                if negb (logMergeFailure st) then
                  Warnf ("Failed to merge the Pull Request " ++ pr_URL pr ++ " due to "
                         ++ e ++ " maybe I don't have karma?" ++ nl);;
                  mret (Next (set_logMergeFailure st))
                else mret (Next st)
            | None => mret (Next st)
            end
          else mret (Next st)
        else if bool_decide (status = "error") || bool_decide (status = "failure") then
          mret (Return (Some ("Pull request " ++ pr_URL pr ++ " last commit has status "
                              ++ status ++ " for ref " ++ pr_LastCommitSha pr)))
        else mret (Next st)
    end.

(** Lines 663-668: rebase on conflict.  The error of
    [PromoteViaPullRequest] is assigned and never read. *)
Definition rebaseOnConflict (pr : GitPullRequest) (st : PollState) : M W PollState :=
  match pr_Mergeable pr with
  | Some false =>
      Infof "Rebasing PullRequest due to conflict";;
      '(releaseInfo', _) ← PromoteViaPullRequest env (releaseInfo st);
      mret (set_releaseInfo releaseInfo' st)
  | _ => mret st
  end.

Definition timeNow : M W Z :=
  fun s => let '(t, w) := time_Now (world s) in Ret t (mkState (opts s) w) [].

(** Lines 670-673: the deadline check and the sleep. *)
Definition deadlineCheck (pr : GitPullRequest) (st : PollState)
    : M W (Flow (option error) PollState) :=
  now ← timeNow;
  if end_ <? now then
    mret (Return (Some ("Timed out waiting for pull request " ++ pr_URL pr
                        ++ " to merge. Waited " ++ Duration_String duration)))
  else
    o ← getOpts;
    match o_PullRequestPollDuration o with
    | None => panic
    | Some d => call (EvSleep d) (time_Sleep d);; mret (Next st)
    end.

(** Lines 538-662: the refresh and the two branches on [pr.Merged].  A
    nil [pullRequestInfo] (left by a rebase that produced none) is
    dereferenced.  Falling through hands [pr] to the rest of the body. *)
Definition pollStatus (st : PollState)
    : M W (Flow (option error) (GitPullRequest * PollState)) :=
  match pullRequestInfo st with
  | None => panic
  | Some info =>
      let gitProvider := pri_GitProvider info in
      '(pr, err) ← call (EvUpdatePullRequestStatus (pr_URL (pri_PullRequest info)))
                        (UpdatePullRequestStatus gitProvider (pri_PullRequest info));
      let st := set_PullRequest info pr st in
      match err with
      | Some e =>
          mret (Return (Some ("Failed to query the Pull Request status for "
                              ++ pr_URL pr ++ " " ++ e)))
      | None =>
          r ← (if bool_decide (pr_Merged pr = Some true) then mergedBranch gitProvider pr st
               else openBranch gitProvider pr st);
          match r with
          | Return e => mret (Return e)
          | Next st => mret (Next (pr, st))
          end
      end
  end.

(** Lines 538-673: the body of the [for] loop. *)
Definition pollIteration (st : PollState) : M W (Flow (option error) PollState) :=
  r ← pollStatus st;
  match r with
  | Return e => mret (Return e)
  | Next (pr, st) =>
      st ← rebaseOnConflict pr st;
      deadlineCheck pr st
  end.

(** The [for] loop, cut off after [fuel] rounds. *)
Fixpoint pollLoop (fuel : nat) (st : PollState) : M W (option error) :=
  match fuel with
  | O => outOfFuel
  | S fuel' =>
      r ← pollIteration st;
      match r with
      | Return e => mret e
      | Next st' => pollLoop fuel' st'
      end
  end.

Definition waitForGitOpsPullRequest (fuel : nat) (releaseInfo : ReleaseInfo W)
    : M W (option error) :=
  match ri_PullRequestInfo releaseInfo with
  | Some _ => pollLoop fuel (initialPollState releaseInfo)
  | None => mret None
  end.

End Poller.

(** ** [WaitForPromotion] *)

(** [releaseInfo] is the pointer returned by [Promote]; nil is
    dereferenced once both durations are known. *)
Definition WaitForPromotion (fuel : nat) (ns : string) (env : Environment)
    (releaseInfo : option (ReleaseInfo W)) : M W (option error) :=
  o ← getOpts;
  match o_TimeoutDuration o with
  | None =>
      Infof ("No --" ++ optionTimeout
             ++ " option specified on the 'jx promote' command so not waiting for the promotion to succeed"
             ++ nl);;
      mret None
  | Some duration =>
  match o_PullRequestPollDuration o with
  | None =>
      Infof ("No --" ++ optionPullRequestPollTime
             ++ " option specified on the 'jx promote' command so not waiting for the promotion to succeed"
             ++ nl);;
      mret None
  | Some _ =>
      now ← timeNow;
      let end_ := now + duration in
      match releaseInfo with
      | None => panic
      | Some releaseInfo =>
          match ri_PullRequestInfo releaseInfo with
          | Some _ =>
              promoteKey ← call (EvCreatePromoteKey (env_Name env)) (createPromoteKey o env);
              err ← waitForGitOpsPullRequest ns env end_ duration promoteKey fuel releaseInfo;
              match err with
              | Some e =>
                  call (EvOnPromotePullRequest promoteKey FailedPromotionPullRequest)
                       (OnPromotePullRequest promoteKey FailedPromotionPullRequest);;
                  mret (Some e)
              | None => mret None
              end
          | None => mret None
          end
      end
  end
  end.

(** ** [PromoteAllAutomatic] *)

(** Lines 275-291: the loop over the sorted environments. *)
Fixpoint promoteEach (fuel : nat) (environments : list Environment) : M W (option error) :=
  match environments with
  | [] => mret None
  | env :: rest =>
      let kind := spec_Kind (env_Spec env) in
      if is_Automatic (spec_PromotionStrategy (env_Spec env)) && IsPermanent kind then
        let ns := spec_Namespace (env_Spec env) in
        if bool_decide (ns = "") then
          mret (Some ("No namespace for environment " ++ env_Name env))
        else
          '(releaseInfo, err) ← Promote ns env false;
          match err with
          | Some e => mret (Some e)
          | None =>
              err ← WaitForPromotion fuel ns env releaseInfo;
              match err with
              | Some e => mret (Some e)
              | None => promoteEach fuel rest
              end
          end
      else promoteEach fuel rest
  end.

Definition PromoteAllAutomatic (fuel : nat) : M W (option error) :=
  '(currentNs, err) ← call EvKubeClient KubeClient;
  match err with
  | Some e => mret (Some e)
  | None =>
  '(team, err) ← call (EvGetDevNamespace currentNs) (GetDevNamespace currentNs);
  match err with
  | Some e => mret (Some e)
  | None =>
  err ← call EvJXClient JXClient;
  match err with
  | Some e => mret (Some e)
  | None =>
  '(environments, err) ← call (EvListEnvironments team) (Environments_List team);
  match err with
  | Some e => Warnf ("No Environments found: " ++ e ++ "/n");; mret None
  | None =>
      if bool_decide (length environments = 0%nat) then
        Warnf ("No Environments have been created yet in team " ++ team
               ++ ". Please create some via 'jx create env'" ++ nl);;
        mret None
      else promoteEach fuel (SortEnvironments environments)
  end end end end.

End Program.

Arguments PollState : clear implicits.

(* ===================================================================== *)
(** * A scripted world

    A concrete world for running the program on examples: the answers of
    the collaborators are fixed in advance, the Git provider and the
    promoter read theirs from queues, and sleeping moves the clock. *)

Module Scripted.

Record Config := {
  c_KubeClient : string * option error;
  c_GetDevNamespace : string * option error;
  c_JXClient : option error;
  c_environments : list Environment * option error;
  c_EnsureNamespaceCreated : option error;
  c_AskOne : bool * option error;
  c_helm : option error;
  c_UpgradeChart : option error;
  c_versions : list string * option error;
  c_ledger : option error;
  c_GitInfo : option GitRepositoryInfo;
  c_CreateGitAuthConfigService : option error;
  c_MergePullRequest : option error
}.

Record World := mkWorld {
  cfg : Config;
  clock : Z;
  refreshes : list (GitPullRequest * option error);
  commitStatuses : list (list GitRepoStatus * option error);
  lastCommitStatuses : list (string * option error);
  proposals : list (option GitPullRequest * option error)
}.

Definition const {X} (f : Config -> X) (w : World) : X * World := (f (cfg w), w).

Definition provider : GitProvider World := {|
  UpdatePullRequestStatus pr w :=
    match refreshes w with
    | [] => ((pr, None), w)
    | r :: rest =>
        (r, mkWorld (cfg w) (clock w) rest (commitStatuses w) (lastCommitStatuses w)
              (proposals w))
    end;
  ListCommitStatus _ _ _ w :=
    match commitStatuses w with
    | [] => (([], None), w)
    | r :: rest =>
        (r, mkWorld (cfg w) (clock w) (refreshes w) rest (lastCommitStatuses w)
              (proposals w))
    end;
  PullRequestLastCommitStatus _ w :=
    match lastCommitStatuses w with
    | [] => (("in-progress", None), w)
    | r :: rest =>
        (r, mkWorld (cfg w) (clock w) (refreshes w) (commitStatuses w) rest (proposals w))
    end;
  MergePullRequest _ _ := const c_MergePullRequest
|}.

(** The promoter runs the manifest edit, then answers from its queue. *)
Definition propose (fn : Requirements -> M World (Requirements * option error))
    : M World (option (ReleasePullRequestInfo World) * option error) :=
  '(_, err) ← fn ∅;
  match err with
  | Some e => mret (None, Some e)
  | None =>
      fun s =>
        let w := world s in
        match proposals w with
        | [] => Ret (None, Some "no pull request") s []
        | (pr, err) :: rest =>
            Ret (option_map (λ pr, {| pri_GitProvider := provider; pri_PullRequest := pr |}) pr,
                 err)
                (mkState (opts s)
                   (mkWorld (cfg w) (clock w) (refreshes w) (commitStatuses w)
                      (lastCommitStatuses w) rest))
                []
        end
  end.

Definition names (envs : list Environment) : list string := map env_Name envs.

Definition registry (envs : list Environment) : gmap string Environment :=
  list_to_map (map (λ e, (env_Name e, e)) envs).

#[global] Instance services : Services World := {|
  KubeClient := const c_KubeClient;
  GetDevNamespace _ := const c_GetDevNamespace;
  JXClient := const c_JXClient;
  Environments_List _ := const c_environments;
  GetEnvironments _ w :=
    let '(envs, err) := c_environments (cfg w) in
    ((registry envs, names envs, err), w);
  EnsureNamespaceCreated _ := const c_EnsureNamespaceCreated;
  SortEnvironments := merge_sort byOrder;
  survey_AskOne := const c_AskOne;
  verifyHelmConfigured := const c_helm;
  Helm_UpdateRepo := const c_helm;
  Helm_UpgradeChart _ _ _ _ := const c_UpgradeChart;
  Helm_SearchChartVersions _ := const c_versions;
  createPromoteKey _ env w :=
    ({| key_Name := "pipeline-1"; key_Pipeline := "pipeline"; key_Build := "1";
        key_Environment := env_Name env |}, w);
  createEnvironmentPullRequest _ fn _ _ _ _ := propose fn;
  OnPromotePullRequest _ _ := const c_ledger;
  OnPromoteUpdate _ _ := const c_ledger;
  o_GitInfo w := c_GitInfo (cfg w);
  CreateGitAuthConfigService := const c_CreateGitAuthConfigService;
  GitServerKind _ w := (("github", None), w);
  PickOrCreateProvider _ _ w := (None, w);
  commentOnClosedIssues _ _ _ _ _ w := (tt, w);
  time_Now w := (clock w, w);
  time_Sleep d w :=
    (tt, mkWorld (cfg w) (clock w + d) (refreshes w) (commitStatuses w)
           (lastCommitStatuses w) (proposals w));
  Duration_String d := semver.uint_string (Z.to_N d) ++ "ns"
|}.

(** A configuration in which every collaborator succeeds. *)
Definition quiet (envs : list Environment) (versions : list string) : Config := {|
  c_KubeClient := ("jx", None);
  c_GetDevNamespace := ("jx", None);
  c_JXClient := None;
  c_environments := (envs, None);
  c_EnsureNamespaceCreated := None;
  c_AskOne := (true, None);
  c_helm := None;
  c_UpgradeChart := None;
  c_versions := (versions, None);
  c_ledger := None;
  c_GitInfo := Some {| gi_Organisation := "acme"; gi_Name := "myapp" |};
  c_CreateGitAuthConfigService := None;
  c_MergePullRequest := None
|}.

(** As [quiet] without environments, but the issue notifier cannot
    create its Git credentials service. *)
Definition notifierDown : Config := {|
  c_KubeClient := ("jx", None);
  c_GetDevNamespace := ("jx", None);
  c_JXClient := None;
  c_environments := ([], None);
  c_EnsureNamespaceCreated := None;
  c_AskOne := (true, None);
  c_helm := None;
  c_UpgradeChart := None;
  c_versions := ([], None);
  c_ledger := None;
  c_GitInfo := Some {| gi_Organisation := "acme"; gi_Name := "myapp" |};
  c_CreateGitAuthConfigService := Some "no git credentials";
  c_MergePullRequest := None
|}.

Definition options : PromoteOptions := {|
  o_Namespace := ""; o_Environment := ""; o_Application := "myapp";
  o_Version := "2.0.0"; o_ReleaseName := ""; o_LocalHelmRepoName := "repo";
  o_HelmRepositoryURL := "http://charts"; o_NoHelmUpdate := false;
  o_AllAutomatic := false; o_NoMergePullRequest := false;
  o_TimeoutDuration := Some 3600000000000;
  o_PullRequestPollDuration := Some 20000000000
|}.

Definition start (c : Config) : State World :=
  mkState options (mkWorld c 0 [] [] [] []).

Definition environment (name ns : string) (strategy : PromotionStrategyType)
    (kind : EnvironmentKindType) (source : string) (order : Z) : Environment :=
  {| env_Name := name;
     env_Spec := {| spec_Label := name; spec_Namespace := ns;
                    spec_PromotionStrategy := strategy; spec_Kind := kind;
                    spec_Source_URL := source; spec_Order := order |} |}.

Definition pullRequest (url : string) (merged : option bool) (sha : option string)
    (mergeable : option bool) : GitPullRequest :=
  {| pr_URL := url; pr_Owner := "acme"; pr_Repo := "env-staging"; pr_Merged := merged;
     pr_MergeCommitSHA := sha; pr_Mergeable := mergeable; pr_LastCommitSha := "c0ffee";
     pr_ClosedAt := None |}.

Definition status (url state : string) : GitRepoStatus :=
  {| st_URL := url; st_State := state; st_TargetURL := "http://ci/" ++ url;
     st_Description := "build" |}.

Definition promoteKey : PromoteStepActivityKey :=
  {| key_Name := "pipeline-1"; key_Pipeline := "pipeline"; key_Build := "1";
     key_Environment := "staging" |}.

Definition tracked (pr : GitPullRequest) : ReleaseInfo World :=
  {| ri_ReleaseName := "staging-myapp"; ri_FullAppName := "repo/myapp";
     ri_Version := "2.0.0";
     ri_PullRequestInfo := Some {| pri_GitProvider := provider; pri_PullRequest := pr |} |}.

(** The scenario of the examples: the environment "staging", a pull
    request that is open and not yet merged, a one-hour timeout. *)
Definition staging : Environment :=
  environment "staging" "jx-staging" PromotionStrategyTypeAutomatic
    EnvironmentKindTypePermanent "https://git/acme/env-staging" 100.

Definition openPR : GitPullRequest := pullRequest "http://pr/1" None None None.

(** The same pull request once merged at the sha "abc123". *)
Definition merged : GitPullRequest :=
  pullRequest "http://pr/1" (Some true) (Some "abc123") None.

(** A failed commit status whose context URL and target URL differ. *)
Definition failedTests : GitRepoStatus :=
  {| st_URL := "https://api/statuses/7"; st_State := "failure";
     st_TargetURL := "http://ci/job/7"; st_Description := "tests failed" |}.

(** An environment without a source repository: the direct path. *)
Definition production : Environment :=
  environment "production" "jx-production" PromotionStrategyTypeManual
    EnvironmentKindTypePermanent "" 200.

Definition hour : Z := 3600000000000.

(** Options with a thirty-second timeout and a twenty-second poll. *)
Definition impatient : PromoteOptions := {|
  o_Namespace := ""; o_Environment := ""; o_Application := "myapp";
  o_Version := "2.0.0"; o_ReleaseName := ""; o_LocalHelmRepoName := "repo";
  o_HelmRepositoryURL := "http://charts"; o_NoHelmUpdate := false;
  o_AllAutomatic := false; o_NoMergePullRequest := false;
  o_TimeoutDuration := Some 30000000000;
  o_PullRequestPollDuration := Some 20000000000
|}.

(** The open pull request once the provider reports a conflict, and the
    pull request the promoter creates in its place. *)
Definition conflicting : GitPullRequest :=
  pullRequest "http://pr/1" None None (Some false).

Definition recreated : GitPullRequest := pullRequest "http://pr/2" None None None.

(** The quiet world at clock [now], with empty queues. *)
Definition idle (now : Z) : World := mkWorld (quiet [] []) now [] [] [] [].

(** The world at clock [now] with the given queues of refreshes and of
    commit statuses. *)
Definition at_ (c : Config) (now : Z) (refreshes : list (GitPullRequest * option error))
    (commitStatuses : list (list GitRepoStatus * option error)) : State World :=
  mkState options (mkWorld c now refreshes commitStatuses [] []).

End Scripted.

(* ===================================================================== *)
(** * Order of the semantic versions *)

(** Comparisons with values in Z that behave like a total order. *)
Record OrderLike {A} (c : A -> A -> Z) : Prop := {
  ol_refl : forall a, c a a = 0;
  ol_opp : forall a b, c b a = - c a b;
  ol_eq : forall a b, c a b = 0 -> a = b;
  ol_trans : forall a b d, c a b < 0 -> c b d < 0 -> c a d < 0
}.

(** [-1], [0] or [1] for two numbers, and for two strings. *)
Definition cmpN (a b : N) : Z := match (a ?= b)%N with Eq => 0 | Lt => -1 | Gt => 1 end.

Definition cmpS (a b : string) : Z :=
  match String.compare a b with Eq => 0 | Lt => -1 | Gt => 1 end.

(** Lexicographic combination. *)
Definition lex (c r : Z) : Z := if c =? 0 then r else c.

(** Precedence of the prerelease parts: a version without prerelease is
    above one with. *)
Definition cmpPre (v o : list semver.PRVersion) : Z :=
  match v, o with
  | [], [] => 0
  | [], _ :: _ => 1
  | _ :: _, [] => -1
  | _, _ => semver.compare_Pre v o
  end.

(** What [semver.Compare] looks at: everything but the build metadata. *)
Definition key (v : semver.Version) : N * (N * (N * list semver.PRVersion)) :=
  (semver.Major v, (semver.Minor v, (semver.Patch v, semver.Pre v))).

(** The comparison of [semver.Compare] on keys, field after field. *)
Definition cmpTail3 (x y : N * list semver.PRVersion) : Z :=
  lex (cmpN x.1 y.1) (cmpPre x.2 y.2).
Definition cmpTail2 (x y : N * (N * list semver.PRVersion)) : Z :=
  lex (cmpN x.1 y.1) (cmpTail3 x.2 y.2).
Definition cmpKey (x y : N * (N * (N * list semver.PRVersion))) : Z :=
  lex (cmpN x.1 y.1) (cmpTail2 x.2 y.2).

(* ===================================================================== *)
(** * Statements of the specification, as definitions *)

Section Specification.
Context {W : Type} `{!Services W}.

(** The fallback of the version resolver, as the loop computes it on
    strings that do not parse: the running [maxString] after one more
    [version]. *)
Definition pickString (maxString version : string) : string :=
  if bool_decide (maxString = "") || strings_Compare_gt version maxString
  then version else maxString.

(** The running [maxSemVer] and [maxString] after one more [version],
    as the loop of [findLatestVersion] computes them. *)
Definition pickVersion (maxSemVer : option semver.Version) (version : string)
    : option semver.Version :=
  match semver.Parse version, maxSemVer with
  | None, _ => maxSemVer
  | Some sv, None => Some sv
  | Some sv, Some m => if 0 <? semver.Compare m sv then Some sv else maxSemVer
  end.

Definition keepString (maxString version : string) : string :=
  match semver.Parse version with
  | None => pickString maxString version
  | Some _ => maxString
  end.

(** The environments the sweep is meant to visit. *)
Definition isTarget (env : Environment) : bool :=
  is_Automatic (spec_PromotionStrategy (env_Spec env))
  && IsPermanent (spec_Kind (env_Spec env)).

(** The promotion of one environment of the sweep: it fails at once if
    the environment has no namespace, else it is [Promote] followed by
    [WaitForPromotion]; its error is the first of these to occur. *)
Definition promoteOne (fuel : nat) (env : Environment) : M W (option error) :=
  let ns := spec_Namespace (env_Spec env) in
  if bool_decide (ns = "") then
    mret (Some ("No namespace for environment " ++ env_Name env))
  else
    '(releaseInfo, err) ← Promote ns env false;
    match err with
    | Some e => mret (Some e)
    | None => WaitForPromotion fuel ns env releaseInfo
    end.

(** "Promote to each sequentially, in order; the first failure aborts
    the remaining sequence and is returned to the caller." *)
Fixpoint promoteSequentially (step : Environment -> M W (option error))
    (targets : list Environment) : M W (option error) :=
  match targets with
  | [] => mret None
  | env :: rest =>
      err ← step env;
      match err with
      | Some e => mret (Some e)
      | None => promoteSequentially step rest
      end
  end.

(** [rounds k st s st' s' t]: from the variables [st] and the state [s],
    the poll loop completes [k] rounds without returning, reaching [st']
    and [s'] and emitting [t]. *)
Inductive rounds (ns : string) (env : Environment) (end_ duration : Z)
    (promoteKey : PromoteStepActivityKey)
    : nat -> PollState W -> State W -> PollState W -> State W -> list Event -> Prop :=
| rounds_O st s : rounds ns env end_ duration promoteKey 0 st s st s []
| rounds_S k st s st1 s1 t1 st2 s2 t2 :
    pollIteration ns env end_ duration promoteKey st s = Ret (Next st1) s1 t1 ->
    rounds ns env end_ duration promoteKey k st1 s1 st2 s2 t2 ->
    rounds ns env end_ duration promoteKey (S k) st s st2 s2 (t1 ++ t2).

(** The error the poller returns for a failed commit status. *)
Definition failedStatusError (status : GitRepoStatus) : error :=
  "Status: " ++ st_State status ++ " URL: " ++ st_TargetURL status
    ++ " description: " ++ st_Description status ++ nl.

(** A round that finds the pull request merged with a merge-commit sha
    and gets an answer to the listing of the commit statuses of that sha:
    the refresh succeeds and gives [pr], and [ListCommitStatus], called
    in the world left by the ledger transitions before it (completion of
    the pull-request step the first time, start of the update step),
    answers [statuses] and leaves the world [w4]. *)
Definition mergedWithStatuses (promoteKey : PromoteStepActivityKey) (st : PollState W)
    (s : State W) (info : ReleasePullRequestInfo W) (pr : GitPullRequest)
    (mergeSha : string) (statuses : list GitRepoStatus) (w4 : W) : Prop :=
  pullRequestInfo st = Some info
  /\ exists w1,
       UpdatePullRequestStatus (pri_GitProvider info) (pri_PullRequest info) (world s)
       = ((pr, None), w1)
       /\ pr_Merged pr = Some true
       /\ pr_MergeCommitSHA pr = Some mergeSha
       /\ let w2 := if logHasMergeSha st then w1
                    else (OnPromotePullRequest promoteKey (mergedPR mergeSha) w1).2 in
          let w3 := (OnPromoteUpdate promoteKey StartPromotionUpdate w2).2 in
          ListCommitStatus (pri_GitProvider info) (pr_Owner pr) (pr_Repo pr) mergeSha w3
          = ((statuses, None), w4).

(** The variables of the loop when such a round reaches the statuses. *)
Definition afterMergeSha (st : PollState W) (info : ReleasePullRequestInfo W)
    (pr : GitPullRequest) : PollState W :=
  if logHasMergeSha st then set_PullRequest info pr st
  else set_logHasMergeSha (set_PullRequest info pr st).

(** What one status that is not failed does to the two maps: the first
    state seen for a URL is recorded, a recorded state other than
    [success] is replaced by a different one, [success] stays. *)
Definition recordStatus (st : PollState W) (status : GitRepoStatus) : PollState W :=
  let url := st_URL status in
  if (bool_decide (mapGet (urlStatusMap st) url = "")
      || bool_decide (mapGet (urlStatusMap st) url ≠ gitStatusSuccess))
     && bool_decide (mapGet (urlStatusMap st) url ≠ st_State status)
  then set_urlStatus url (st_State status) (st_TargetURL status) st
  else st.

(** Events that are only log lines. *)
Definition isLog (e : Event) : bool :=
  match e with EvLog _ _ => true | _ => false end.

(** Number of events of a trace that satisfy a test. *)
Definition count_occ_b (p : Event -> bool) (t : list Event) : nat :=
  length (List.filter p t).

(** The ledger transition that completes the update step. *)
Definition isCompleteUpdate (e : Event) : bool :=
  match e with EvOnPromoteUpdate _ CompletePromotionUpdate => true | _ => false end.

(** The ledger transition that completes the pull-request step. *)
Definition isCompletePullRequest (e : Event) : bool :=
  match e with EvOnPromotePullRequest _ (mergedPR _) => true | _ => false end.

(** Calls to the Git provider, to the promoter and to the services of
    the issue notifier, transitions of the ledger, and sleeps. *)
Definition isProviderOrLedger (e : Event) : bool :=
  match e with
  | EvUpdatePullRequestStatus _ | EvListCommitStatus _ _ _
  | EvPullRequestLastCommitStatus _ | EvMergePullRequest _ _
  | EvOnPromotePullRequest _ _ | EvOnPromoteUpdate _ _
  | EvCreateGitAuthConfigService | EvGitServerKind | EvPickOrCreateProvider _
  | EvCommentOnClosedIssues _ _ | EvCreateEnvironmentPullRequest _ _ _ _
  | EvSleep _ => true
  | _ => false
  end.

End Specification.

(* ===================================================================== *)
(** * The command: [Run] and [DiscoverAppName] *)

(** The collaborators that only [Run] and [DiscoverAppName] call, all of
    them outside the file.  [time_ParseDuration] and [MissingOption] are
    pure.  The handle returned by [CreateApiExtensionsClient] is not
    modelled, only its error. *)
Class Bootstrap (W : Type) := {
  FindHelmChart : W -> (string * option error) * W;
  LoadChartName : string -> W -> (string * option error) * W;
  Git_Info : W -> (option GitRepositoryInfo * option error) * W;
  time_ParseDuration : string -> Z * option error;
  CreateApiExtensionsClient : W -> option error * W;
  RegisterEnvironmentCRD : W -> option error * W;
  RegisterPipelineActivityCRD : W -> option error * W;
  RegisterGitServiceCRD : W -> option error * W;
  RegisterUserCRD : W -> option error * W;
  MissingOption : string -> error
}.

(** The fields of the options that only [Run] reads: the positional
    arguments [o.Args] and the texts of the two duration flags,
    [o.Timeout] and [o.PullRequestPollTime]. *)
Record CommandLine := {
  Args : list string;
  Timeout : string;
  PullRequestPollTime : string
}.

(** [o.Application = app]. *)
Definition set_Application (app : string) (o : PromoteOptions) : PromoteOptions :=
  {| o_Namespace := o_Namespace o; o_Environment := o_Environment o;
     o_Application := app; o_Version := o_Version o;
     o_ReleaseName := o_ReleaseName o;
     o_LocalHelmRepoName := o_LocalHelmRepoName o;
     o_HelmRepositoryURL := o_HelmRepositoryURL o;
     o_NoHelmUpdate := o_NoHelmUpdate o; o_AllAutomatic := o_AllAutomatic o;
     o_NoMergePullRequest := o_NoMergePullRequest o;
     o_TimeoutDuration := o_TimeoutDuration o;
     o_PullRequestPollDuration := o_PullRequestPollDuration o |}.

(** [o.TimeoutDuration = &duration]. *)
Definition set_TimeoutDuration (duration : Z) (o : PromoteOptions) : PromoteOptions :=
  {| o_Namespace := o_Namespace o; o_Environment := o_Environment o;
     o_Application := o_Application o; o_Version := o_Version o;
     o_ReleaseName := o_ReleaseName o;
     o_LocalHelmRepoName := o_LocalHelmRepoName o;
     o_HelmRepositoryURL := o_HelmRepositoryURL o;
     o_NoHelmUpdate := o_NoHelmUpdate o; o_AllAutomatic := o_AllAutomatic o;
     o_NoMergePullRequest := o_NoMergePullRequest o;
     o_TimeoutDuration := Some duration;
     o_PullRequestPollDuration := o_PullRequestPollDuration o |}.

(** [o.PullRequestPollDuration = &duration]. *)
Definition set_PullRequestPollDuration (duration : Z) (o : PromoteOptions)
    : PromoteOptions :=
  {| o_Namespace := o_Namespace o; o_Environment := o_Environment o;
     o_Application := o_Application o; o_Version := o_Version o;
     o_ReleaseName := o_ReleaseName o;
     o_LocalHelmRepoName := o_LocalHelmRepoName o;
     o_HelmRepositoryURL := o_HelmRepositoryURL o;
     o_NoHelmUpdate := o_NoHelmUpdate o; o_AllAutomatic := o_AllAutomatic o;
     o_NoMergePullRequest := o_NoMergePullRequest o;
     o_TimeoutDuration := o_TimeoutDuration o;
     o_PullRequestPollDuration := Some duration |}.

Section Command.
Context {W : Type} `{!Services W} `{!Bootstrap W}.

(** A call to one of the collaborators of [Bootstrap]; like the reading
    of the clock, it leaves no event in the trace. *)
Definition quietly {X} (f : W -> X * W) : M W X :=
  fun s => let '(x, w) := f (world s) in Ret x (mkState (opts s) w) [].

(** ** [DiscoverAppName] (lines 475-498) *)
Definition DiscoverAppName : M W (string * option error) :=
  '(chartFile, err) ← quietly FindHelmChart;
  match err with
  | Some e => mret ("", Some e)
  | None =>
      if bool_decide (chartFile ≠ "") then quietly (LoadChartName chartFile)
      else
        '(gitInfo, err) ← quietly Git_Info;
        match err with
        | Some e => mret ("", Some e)
        | None =>
            match gitInfo with
            | None => mret ("", Some "no git info found to discover app name from")
            | Some gitInfo => mret (gi_Name gitInfo, None)
            end
        end
  end.

(** ** [Run] (lines 165-248) *)

(** Lines 181-194, for one of the two duration flags: the text of the
    flag, its name, and the assignment to the options. *)
Definition parseDurationFlag (text name : string)
    (assign : Z -> PromoteOptions -> PromoteOptions) : M W (Flow (option error) unit) :=
  if bool_decide (text ≠ "") then
    let '(duration, err) := time_ParseDuration text in
    match err with
    | Some e =>
        mret (Return (Some ("Invalid duration format " ++ text ++ " for option --"
                            ++ name ++ ": " ++ e)))
    | None => o ← getOpts; setOpts (assign duration o);; mret (Next tt)
    end
  else mret (Next tt).

(** Lines 166-231: the application name, the two durations, the target
    namespace, the registration of the resource definitions and the
    release name.  Falling through hands [targetNS] and [env] to the rest
    of the body. *)
Definition Run_prepare (cl : CommandLine)
    : M W (Flow (option error) (string * option Environment)) :=
  o ← getOpts;
  r ← (if bool_decide (o_Application o = "") then
         match Args cl with
         | [] => DiscoverAppName
         | arg :: _ => mret (arg, None)
         end
       else mret (o_Application o, None));
  match r with
  | (_, Some e) => mret (Return (Some e))
  | (app, None) =>
  setOpts (set_Application app o);;
  r ← parseDurationFlag (PullRequestPollTime cl) optionPullRequestPollTime
        set_PullRequestPollDuration;
  match r with
  | Return e => mret (Return e)
  | Next _ =>
  r ← parseDurationFlag (Timeout cl) optionTimeout set_TimeoutDuration;
  match r with
  | Return e => mret (Return e)
  | Next _ =>
  o ← getOpts;
  '(targetNS, env, err) ← GetTargetNamespace (o_Namespace o) (o_Environment o);
  match err with
  | Some e => mret (Return (Some e))
  | None =>
  err ← quietly CreateApiExtensionsClient;
  match err with
  | Some e => mret (Return (Some e))
  | None =>
  err ← quietly RegisterEnvironmentCRD;
  match err with
  | Some e => mret (Return (Some e))
  | None =>
  err ← quietly RegisterPipelineActivityCRD;
  match err with
  | Some e => mret (Return (Some e))
  | None =>
  err ← quietly RegisterGitServiceCRD;
  match err with
  | Some e => mret (Return (Some e))
  | None =>
  err ← quietly RegisterUserCRD;
  match err with
  | Some e => mret (Return (Some e))
  | None =>
  err ← call EvJXClient JXClient;
  match err with
  | Some e => mret (Return (Some e))
  | None =>
  o ← getOpts;
  (if bool_decide (o_ReleaseName o = "") then
     setOpts (set_ReleaseName (targetNS ++ "-" ++ app) o)
   else mret tt);;
  mret (Next (targetNS, env))
  end end end end end end end end end
  end.

(** Lines 233-247: the sweep, or the promotion to the one environment.
    The error of [Promote] is assigned to [err] and overwritten by the
    result of [WaitForPromotion]. *)
Definition Run_promote (fuel : nat) (targetNS : string) (env : option Environment)
    : M W (option error) :=
  o ← getOpts;
  if o_AllAutomatic o then PromoteAllAutomatic fuel
  else
    match env with
    | None =>
        if bool_decide (o_Environment o = "") then
          mret (Some (MissingOption optionEnvironment))
        else
          mret (Some ("Could not find an Environment called " ++ o_Environment o))
    | Some env =>
        '(releaseInfo, _) ← Promote targetNS env true;
        WaitForPromotion fuel targetNS env releaseInfo
    end.

Definition Run (fuel : nat) (cl : CommandLine) : M W (option error) :=
  r ← Run_prepare cl;
  match r with
  | Return e => mret e
  | Next (targetNS, env) => Run_promote fuel targetNS env
  end.

End Command.

(** A command-line session in the scripted world: no chart file in the
    working directory, the Git repository of the configuration, and the
    duration texts "20s", "30s" and "1h". *)
Module Console.

Definition parseDuration (text : string) : Z * option error :=
  if String.eqb text "20s" then (20000000000, None)
  else if String.eqb text "30s" then (30000000000, None)
  else if String.eqb text "1h" then (3600000000000, None)
  else (0, Some ("time: invalid duration " ++ text)).

#[global] Instance bootstrap : Bootstrap Scripted.World := {|
  FindHelmChart w := (("", None), w);
  LoadChartName chartFile w := ((chartFile, None), w);
  Git_Info w := ((Scripted.c_GitInfo (Scripted.cfg w), None), w);
  time_ParseDuration := parseDuration;
  CreateApiExtensionsClient w := (None, w);
  RegisterEnvironmentCRD w := (None, w);
  RegisterPipelineActivityCRD w := (None, w);
  RegisterGitServiceCRD w := (None, w);
  RegisterUserCRD w := (None, w);
  MissingOption name := "Missing option: --" ++ name
|}.

(** The flags as the command declares their defaults. *)
Definition defaults : CommandLine :=
  {| Args := []; Timeout := "1h"; PullRequestPollTime := "20s" |}.

(** Options as the flags leave them before [Run]: no application, no
    version, no duration computed yet. *)
Definition blank (environment : string) : PromoteOptions := {|
  o_Namespace := ""; o_Environment := environment; o_Application := "";
  o_Version := ""; o_ReleaseName := ""; o_LocalHelmRepoName := "releases";
  o_HelmRepositoryURL := "http://charts"; o_NoHelmUpdate := false;
  o_AllAutomatic := false; o_NoMergePullRequest := false;
  o_TimeoutDuration := None; o_PullRequestPollDuration := None
|}.

(** A configuration in which the Helm client cannot be set up. *)
Definition helmDown (envs : list Environment) : Scripted.Config := {|
  Scripted.c_KubeClient := ("jx", None);
  Scripted.c_GetDevNamespace := ("jx", None);
  Scripted.c_JXClient := None;
  Scripted.c_environments := (envs, None);
  Scripted.c_EnsureNamespaceCreated := None;
  Scripted.c_AskOne := (true, None);
  Scripted.c_helm := Some "helm is not installed";
  Scripted.c_UpgradeChart := None;
  Scripted.c_versions := ([], None);
  Scripted.c_ledger := None;
  Scripted.c_GitInfo := Some {| gi_Organisation := "acme"; gi_Name := "myapp" |};
  Scripted.c_CreateGitAuthConfigService := None;
  Scripted.c_MergePullRequest := None
|}.

(** A configuration whose Git repository has no name. *)
Definition nameless (envs : list Environment) : Scripted.Config := {|
  Scripted.c_KubeClient := ("jx", None);
  Scripted.c_GetDevNamespace := ("jx", None);
  Scripted.c_JXClient := None;
  Scripted.c_environments := (envs, None);
  Scripted.c_EnsureNamespaceCreated := None;
  Scripted.c_AskOne := (true, None);
  Scripted.c_helm := None;
  Scripted.c_UpgradeChart := None;
  Scripted.c_versions := ([], None);
  Scripted.c_ledger := None;
  Scripted.c_GitInfo := Some {| gi_Organisation := "acme"; gi_Name := "" |};
  Scripted.c_CreateGitAuthConfigService := None;
  Scripted.c_MergePullRequest := None
|}.

(** A configuration in which the chart upgrade fails, and one in which
    the user declines the confirmation. *)
Definition upgradeFails : Scripted.Config := {|
  Scripted.c_KubeClient := ("jx", None);
  Scripted.c_GetDevNamespace := ("jx", None);
  Scripted.c_JXClient := None;
  Scripted.c_environments := ([], None);
  Scripted.c_EnsureNamespaceCreated := None;
  Scripted.c_AskOne := (true, None);
  Scripted.c_helm := None;
  Scripted.c_UpgradeChart := Some "release failed";
  Scripted.c_versions := ([], None);
  Scripted.c_ledger := None;
  Scripted.c_GitInfo := Some {| gi_Organisation := "acme"; gi_Name := "myapp" |};
  Scripted.c_CreateGitAuthConfigService := None;
  Scripted.c_MergePullRequest := None
|}.

Definition declined : Scripted.Config := {|
  Scripted.c_KubeClient := ("jx", None);
  Scripted.c_GetDevNamespace := ("jx", None);
  Scripted.c_JXClient := None;
  Scripted.c_environments := ([], None);
  Scripted.c_EnsureNamespaceCreated := None;
  Scripted.c_AskOne := (false, None);
  Scripted.c_helm := None;
  Scripted.c_UpgradeChart := None;
  Scripted.c_versions := ([], None);
  Scripted.c_ledger := None;
  Scripted.c_GitInfo := Some {| gi_Organisation := "acme"; gi_Name := "myapp" |};
  Scripted.c_CreateGitAuthConfigService := None;
  Scripted.c_MergePullRequest := None
|}.

(** A configuration in which the environments cannot be listed. *)
Definition unlisted : Scripted.Config := {|
  Scripted.c_KubeClient := ("jx", None);
  Scripted.c_GetDevNamespace := ("jx", None);
  Scripted.c_JXClient := None;
  Scripted.c_environments := ([], Some "forbidden");
  Scripted.c_EnsureNamespaceCreated := None;
  Scripted.c_AskOne := (true, None);
  Scripted.c_helm := None;
  Scripted.c_UpgradeChart := None;
  Scripted.c_versions := ([], None);
  Scripted.c_ledger := None;
  Scripted.c_GitInfo := Some {| gi_Organisation := "acme"; gi_Name := "myapp" |};
  Scripted.c_CreateGitAuthConfigService := None;
  Scripted.c_MergePullRequest := None
|}.

(** The open pull request once closed without merging. *)
Definition closedPR : GitPullRequest :=
  {| pr_URL := "http://pr/1"; pr_Owner := "acme"; pr_Repo := "env-staging";
     pr_Merged := None; pr_MergeCommitSHA := None; pr_Mergeable := None;
     pr_LastCommitSha := "c0ffee"; pr_ClosedAt := Some 1 |}.

End Console.

(* ===================================================================== *)
(** * The probes of the environment

    The methods of the file that the promotion flow above reaches through
    the fields [createPromoteKey], [verifyHelmConfigured] and
    [commentOnClosedIssues] of [Services]: here are their bodies, with
    [getLatestPipelineBuild] and [getJenkinsURL], which they call.  They
    read the process environment, the Git working copy, Jenkins and the
    cluster, and they write three fields of the receiver that the flow
    itself never reads. *)

(** [strings.HasSuffix]. *)
Definition strings_HasSuffix (s suffix : string) : bool :=
  let n := String.length s in
  let k := String.length suffix in
  (k <=? n)%nat && String.eqb (String.substring (n - k) k s) suffix.

(** [strconv.Itoa]. *)
Definition strconv_Itoa (n : Z) : string :=
  match n with
  | Z0 => "0"
  | Zpos p => semver.uint_string (Npos p)
  | Zneg p => "-" ++ semver.uint_string (Npos p)
  end.

(** [strconv.Atoi] with a 64-bit [int]: an optional sign and decimal
    digits; [None] stands for a non-nil error (syntax or range). *)
Definition strconv_Atoi (s : string) : option Z :=
  let '(neg, digits) :=
    match s with
    | String c rest =>
        if Ascii.eqb c "-"%char then (true, rest)
        else if Ascii.eqb c "+"%char then (false, rest)
        else (false, s)
    | EmptyString => (false, s)
    end in
  match digits with
  | EmptyString => None
  | _ =>
      if semver.containsOnly semver.is_digit digits then
        let n := Z.of_N (semver.digits_value 0 digits) in
        let v := if neg : bool then - n else n in
        if (- 2 ^ 63 <=? v) && (v <? 2 ^ 63) then Some v else None
      else None
  end.

Module Probe.

(** [v1.IssueSummary], as far as the file reads it; [issue_IsClosed] is
    the answer of its method [IsClosed()]. *)
Record IssueSummary := {
  issue_ID : string;
  issue_URL : string;
  issue_IsClosed : bool
}.

(** [v1.Release]: the release notes URL and the issues of its spec. *)
Record Release := {
  rel_ReleaseNotesURL : string;
  rel_Issues : list IssueSummary
}.

(** An ingress resource: the hosts of [Spec.Rules], in order. *)
Record Ingress := {
  ing_Hosts : list string
}.

(** [kube.PipelineActivityKey] and [kube.PromoteStepActivityKey], with
    all the fields the file fills. *)
Record PipelineActivityKey := {
  k_Name : string;
  k_Pipeline : string;
  k_Build : string;
  k_BuildURL : string;
  k_BuildLogsURL : string;
  k_GitInfo : option GitRepositoryInfo;
  k_ReleaseNotesURL : string
}.

Record PromoteStepActivityKey := {
  pipelineActivityKey : PipelineActivityKey;
  k_Environment : string;
  k_ApplicationURL : string
}.

(** [promoteKey.ApplicationURL = url]. *)
Definition set_ApplicationURL (url : string) (promoteKey : PromoteStepActivityKey)
    : PromoteStepActivityKey :=
  {| pipelineActivityKey := pipelineActivityKey promoteKey;
     k_Environment := k_Environment promoteKey;
     k_ApplicationURL := url |}.

(** One event per log line and per call that leaves the file. *)
Inductive Event :=
| EvLog (level : LogLevel) (msg : string)
| EvGetenv (name : string)
| EvGitInfo
| EvGitBranch
| EvJXClient
| EvGetRelease (ns name : string)
| EvJenkinsClient
| EvGetJobByPath (paths : list string)
| EvGetJenkinsURL
| EvHomeDir
| EvFileExists (path : string)
| EvHelmInit
| EvKubeClient
| EvRegisterLocalHelmRepo (repoName ns : string)
| EvFindServiceURL (ns name : string)
| EvGetIngress (ns name : string)
| EvCreateIssueComment (owner repo : string) (number : Z) (comment : string).

(** The receiver [o]: the options, and the calculated fields
    [jenkinsURL], [releaseResource] and [GitInfo]. *)
Record Receiver := mkReceiver {
  options : PromoteOptions;
  jenkinsURL : string;
  releaseResource : option Release;
  o_GitInfo : option GitRepositoryInfo
}.

Definition set_jenkinsURL (url : string) (o : Receiver) : Receiver :=
  mkReceiver (options o) url (releaseResource o) (o_GitInfo o).
Definition set_releaseResource (release : Release) (o : Receiver) : Receiver :=
  mkReceiver (options o) (jenkinsURL o) (Some release) (o_GitInfo o).
Definition set_GitInfo (gitInfo : option GitRepositoryInfo) (o : Receiver) : Receiver :=
  mkReceiver (options o) (jenkinsURL o) (releaseResource o) gitInfo.

(** The collaborators, all outside the file.  [os_Getenv] and [HomeDir]
    only read; [UrlJoin], [ToValidName], [ToValidNameWithDots] and
    [filepath_Join] are pure.  [JXClient] answers whether the handle is
    non-nil, [KubeClient] the current namespace, [GetJobByPath] the
    number of the last build of the job. *)
Class Host (W : Type) := {
  os_Getenv : string -> W -> string;
  Git_Info : W -> (option GitRepositoryInfo * option error) * W;
  Git_Branch : W -> (string * option error) * W;
  JXClient : W -> (bool * option error) * W;
  Releases_Get : string -> string -> W -> (option Release * option error) * W;
  JenkinsClient : W -> option error * W;
  GetJobByPath : list string -> W -> (Z * option error) * W;
  GetJenkinsURL : W -> (string * option error) * W;
  UrlJoin : list string -> string;
  ToValidName : string -> string;
  ToValidNameWithDots : string -> string;
  HomeDir : W -> string;
  filepath_Join : string -> string -> string;
  FileExists : string -> W -> (bool * option error) * W;
  helmInit : string -> W -> option error * W;
  KubeClient : W -> (string * option error) * W;
  registerLocalHelmRepo : string -> string -> W -> option error * W;
  FindServiceURL : string -> string -> W -> (string * option error) * W;
  Ingresses_Get : string -> string -> W -> (option Ingress * option error) * W;
  CreateIssueComment : string -> string -> Z -> string -> W -> option error * W
}.

(** A run threads the receiver and the outside world and collects the
    events, oldest first. *)
Record State (W : Type) := mkState {
  receiver : Receiver;
  world : W
}.
Arguments mkState {W} _ _.
Arguments receiver {W} _.
Arguments world {W} _.

Definition P (W A : Type) := State W -> A * State W * list Event.

Definition ret {W A} (a : A) : P W A := fun s => (a, s, []).

Definition bind {W A B} (m : P W A) (f : A -> P W B) : P W B :=
  fun s =>
    let '(a, s1, t1) := m s in
    let '(b, s2, t2) := f a s1 in
    (b, s2, (t1 ++ t2)%list).

#[global] Instance P_ret {W} : MRet (P W) := fun A a => ret a.
#[global] Instance P_bind {W} : MBind (P W) := fun A B f m => bind m f.

Definition Infof {W} (msg : string) : P W unit := fun s => (tt, s, [EvLog Info msg]).
Definition Warnf {W} (msg : string) : P W unit := fun s => (tt, s, [EvLog Warn msg]).
Definition get {W} : P W Receiver := fun s => (receiver s, s, []).
Definition modify {W} (f : Receiver -> Receiver) : P W unit :=
  fun s => (tt, mkState (f (receiver s)) (world s), []).

(** A call to a collaborator: the event, then the world's answer. *)
Definition call {W X} (e : Event) (f : W -> X * W) : P W X :=
  fun s => let '(x, w) := f (world s) in (x, mkState (receiver s) w, [e]).

(** The result, the final state and the events of a run. *)
Definition result {W A} (r : A * State W * list Event) : A := r.1.1.
Definition final {W A} (r : A * State W * list Event) : State W := r.1.2.
Definition events {W A} (r : A * State W * list Event) : list Event := r.2.

(** The calls that go to Jenkins. *)
Definition isJenkins (e : Event) : bool :=
  match e with
  | EvJenkinsClient | EvGetJobByPath _ | EvGetJenkinsURL => true
  | _ => false
  end.

(** The query of the branch of the working copy. *)
Definition isGitBranch (e : Event) : bool :=
  match e with EvGitBranch => true | _ => false end.

(** [post r Q]: the value, the final state and the events of the run
    [r] satisfy [Q]. *)
Definition post {W A} (r : A * State W * list Event)
    (Q : A -> State W -> list Event -> Prop) : Prop :=
  Q (result r) (final r) (events r).

(** The lookups of a release resource. *)
Definition isGetRelease (e : Event) : bool :=
  match e with EvGetRelease _ _ => true | _ => false end.

(** A computation that leaves a field of the receiver as it is and
    whose events all pass the test [p]. *)
Definition calm {W A X} (field : Receiver -> X) (p : Event -> bool) (m : P W A) : Prop :=
  forall s,
    field (receiver (final (m s))) = field (receiver s)
    /\ forallb p (events (m s)) = true.

(** The comments created on issues: number and text. *)
Definition commentsOf (t : list Event) : list (Z * string) :=
  omap (λ e, match e with
             | EvCreateIssueComment _ _ number comment => Some (number, comment)
             | _ => None
             end) t.

(** The lookups of an ingress. *)
Definition isGetIngress (e : Event) : bool :=
  match e with EvGetIngress _ _ => true | _ => false end.

(** The names looked up as services. *)
Definition servicesOf (t : list Event) : list string :=
  omap (λ e, match e with EvFindServiceURL _ name => Some name | _ => None end) t.

Section Methods.
Context {W : Type} `{!Host W}.

Definition getenv (name : string) : P W string :=
  call (EvGetenv name) (λ w, (os_Getenv name w, w)).

(** ** [getJenkinsURL] (lines 847-861) *)
Definition getJenkinsURL : P W string :=
  o ← get;
  (if bool_decide (jenkinsURL o = "") then
     v ← getenv "JENKINS_URL"; modify (set_jenkinsURL v)
   else mret tt);;
  o ← get;
  (if bool_decide (jenkinsURL o = "") then
     v ← getenv "JENKINS_URL"; modify (set_jenkinsURL v)
   else mret tt);;
  '(url, err) ← call EvGetJenkinsURL GetJenkinsURL;
  match err with
  | Some e => Warnf ("Could not find Jenkins URL " ++ e)
  | None => modify (set_jenkinsURL url)
  end;;
  o ← get;
  mret (jenkinsURL o).

(** ** [getLatestPipelineBuild] (lines 831-845) *)
Definition getLatestPipelineBuild (pipeline : string)
    : P W (string * string * option error) :=
  Infof ("pipeline " ++ pipeline ++ nl);;
  err ← call EvJenkinsClient JenkinsClient;
  match err with
  | Some e => mret (pipeline, "", Some e)
  | None =>
      let paths := split_on "/"%char pipeline in
      '(number, err) ← call (EvGetJobByPath paths) (GetJobByPath paths);
      match err with
      | Some e => mret (pipeline, "", Some e)
      | None => mret (pipeline, strconv_Itoa number, None)
      end
  end.

(** ** [createPromoteKey] (lines 734-828) *)

(** Lines 742-750: the release resource is looked up unless the receiver
    holds one already. *)
Definition lookupRelease (env : Environment) : P W unit :=
  o ← get;
  let releaseName := o_ReleaseName (options o) in
  if bool_decide (releaseResource o = None :> option Release)
     && bool_decide (releaseName ≠ "") then
    '(jxClient, err) ← call EvJXClient JXClient;
    match err with
    | None =>
        if jxClient : bool then
          '(release, err) ← call (EvGetRelease (spec_Namespace (env_Spec env)) releaseName)
                                 (Releases_Get (spec_Namespace (env_Spec env)) releaseName);
          match err, release with
          | None, Some release => modify (set_releaseResource release)
          | _, _ => mret tt
          end
        else mret tt
    | Some _ => mret tt
    end
  else mret tt.

(** Lines 759-788: the pipeline and the build when [JOB_NAME] or
    [BUILD_NUMBER] is not set. *)
Definition defaultPipeline (gitInfo : option GitRepositoryInfo) (pipeline build : string)
    : P W (string * string) :=
  if bool_decide (pipeline = "") then
    '(pipeline, build) ←
      match gitInfo with
      | Some gitInfo =>
          '(branch, err) ← call EvGitBranch Git_Branch;
          match err with
          | Some e => Warnf ("Could not find the branch name: " ++ e ++ nl)
          | None => mret tt
          end;;
          let branch := if bool_decide (branch = "") then "master" else branch in
          let pipeline := UrlJoin [gi_Organisation gitInfo; gi_Name gitInfo; branch] in
          if bool_decide (build = "") then
            '(p, b, err) ← getLatestPipelineBuild pipeline;
            match err with
            | Some e =>
                Warnf ("Failed to try detect the current Jenkins pipeline for " ++ pipeline
                       ++ " due to " ++ e ++ nl);;
                mret ("", build)
            | None => mret (p, b)
            end
          else mret (pipeline, build)
      | None => mret (pipeline, build)
      end;
    (if bool_decide (pipeline = "") then
       Warnf ("No $JOB_NAME environment variable found so cannot record promotion activities into the PipelineActivity resources in kubernetes" ++ nl)
     else mret tt);;
    mret (pipeline, build)
  else
    (if bool_decide (build = "") then
       Warnf ("No $BUILD_NUMBER environment variablefound so cannot record promotion activities into the PipelineActivity resources in kubernetes" ++ nl)
     else mret tt);;
    mret (pipeline, build).

(** Lines 795-810: the two URLs of the build below the Jenkins URL. *)
Definition buildPath (pipeline build : string) : string :=
  let path := pipeline in
  let path :=
    if negb (strings_HasPrefix path "job/") && negb (strings_HasPrefix path "/job/") then
      UrlJoin ["job"; strings_Join (split_on "/"%char path) "/job/"]
    else path in
  let path := UrlJoin [path; build] in
  if negb (strings_HasSuffix path "/") then path ++ "/" else path.

(** Lines 789-813: the name and the URLs of the build. *)
Definition buildURLs (pipeline build buildURL buildLogsURL : string)
    : P W (string * string * string) :=
  let name := pipeline in
  if bool_decide (build ≠ "") then
    let name := name ++ "-" ++ build in
    if bool_decide (buildURL = "") || bool_decide (buildLogsURL = "") then
      jenkinsURL ← getJenkinsURL;
      if bool_decide (jenkinsURL ≠ "") then
        let path := buildPath pipeline build in
        let buildURL :=
          if bool_decide (buildURL = "") then UrlJoin [jenkinsURL; path] else buildURL in
        let buildLogsURL :=
          if bool_decide (buildLogsURL = "") then UrlJoin [buildURL; "console"]
          else buildLogsURL in
        mret (name, buildURL, buildLogsURL)
      else mret (name, buildURL, buildLogsURL)
    else mret (name, buildURL, buildLogsURL)
  else mret (name, buildURL, buildLogsURL).

(** [env] is never nil: the function ends by reading [env.Name]. *)
Definition createPromoteKey (env : Environment) : P W PromoteStepActivityKey :=
  pipeline ← getenv "JOB_NAME";
  build ← getenv "BUILD_NUMBER";
  buildURL ← getenv "BUILD_URL";
  buildLogsURL ← getenv "BUILD_LOG_URL";
  '(gitInfo, err) ← call EvGitInfo Git_Info;
  lookupRelease env;;
  o ← get;
  let releaseNotesURL :=
    match releaseResource o with
    | Some release => rel_ReleaseNotesURL release
    | None => ""
    end in
  match err with
  | Some e => Warnf ("Could not discover the git repository info " ++ e ++ nl)
  | None => modify (set_GitInfo gitInfo)
  end;;
  '(pipeline, build) ← defaultPipeline gitInfo pipeline build;
  '(name, buildURL, buildLogsURL) ← buildURLs pipeline build buildURL buildLogsURL;
  let name := ToValidName name in
  Infof ("Using pipeline: " ++ pipeline ++ " build: " ++ "#" ++ build ++ nl);;
  mret {| pipelineActivityKey :=
            {| k_Name := name; k_Pipeline := pipeline; k_Build := build;
               k_BuildURL := buildURL; k_BuildLogsURL := buildLogsURL;
               k_GitInfo := gitInfo; k_ReleaseNotesURL := releaseNotesURL |};
          k_Environment := env_Name env;
          k_ApplicationURL := "" |}.

(** ** [verifyHelmConfigured] (lines 710-732)

    The error of [KubeClient] is discarded; the test that follows the
    call reads the variable of the earlier checks, nil at that point. *)
Definition verifyHelmConfigured : P W (option error) :=
  home ← call EvHomeDir (λ w, (HomeDir w, w));
  let helmHomeDir := filepath_Join home ".helm" in
  '(exists_, err) ← call (EvFileExists helmHomeDir) (FileExists helmHomeDir);
  match err with
  | Some e => mret (Some e)
  | None =>
      err ← (if negb exists_ then
               Warnf ("No helm home dir at " ++ helmHomeDir
                      ++ " so lets initialise helm client" ++ nl);;
               call EvHelmInit (helmInit "")
             else mret None);
      match err with
      | Some e => mret (Some e)
      | None =>
          '(ns, _) ← call EvKubeClient KubeClient;
          o ← get;
          call (EvRegisterLocalHelmRepo (o_LocalHelmRepoName (options o)) ns)
               (registerLocalHelmRepo (o_LocalHelmRepoName (options o)) ns)
      end
  end.

(** ** [commentOnIssues], lines 909-977 *)

(** Lines 911-916: the service URL, under the first of the names that
    has one. *)
Fixpoint findServiceURL (ens : string) (appNames : list string) (url : string)
    : P W string :=
  match appNames with
  | [] => mret url
  | n :: rest =>
      '(url, _) ← call (EvFindServiceURL ens n) (FindServiceURL ens n);
      if bool_decide (url ≠ "") then mret url else findServiceURL ens rest url
  end.

Definition isNil {A} (x : option A) : bool :=
  match x with None => true | Some _ => false end.

(** Lines 925-939: the host of an ingress, when no service URL was
    found. *)
Definition findIngressHost (ens app : string) (url available : string)
    : P W (string * string) :=
  if bool_decide (available = "") then
    o ← get;
    let releaseName := o_ReleaseName (options o) in
    '(ing, err) ← call (EvGetIngress ens app) (Ingresses_Get ens app);
    '(ing, _) ← (if negb (isNil err)
                    || isNil ing && bool_decide (releaseName ≠ "")
                       && bool_decide (releaseName ≠ app) then
                   call (EvGetIngress ens releaseName) (Ingresses_Get ens releaseName)
                 else mret (ing, err));
    match ing with
    | Some ing =>
        match ing_Hosts ing with
        | hostname :: _ =>
            if bool_decide (hostname ≠ "") then
              mret (hostname, " and available at " ++ hostname)
            else mret (url, available)
        | [] => mret (url, available)
        end
    | None => mret (url, available)
    end
  else mret (url, available).

(** Lines 957-975: one round of the loop over the issues. *)
Definition commentOnIssue (gitInfo : GitRepositoryInfo)
    (envName versionMessage available : string) (issue : IssueSummary) : P W unit :=
  if issue_IsClosed issue then
    Infof ("Commenting that issue " ++ issue_URL issue ++ " is now in " ++ envName ++ nl);;
    let comment := ":white_check_mark: the fix for this issue is now deployed to **"
                   ++ envName ++ "** in version " ++ versionMessage ++ " " ++ available in
    let id := issue_ID issue in
    if bool_decide (id ≠ "") then
      match strconv_Atoi id with
      | None =>
          Warnf ("Could not parse issue id " ++ id ++ " for URL " ++ issue_URL issue ++ nl)
      | Some number =>
          if 0 <? number then
            err ← call (EvCreateIssueComment (gi_Organisation gitInfo) (gi_Name gitInfo)
                          number comment)
                       (CreateIssueComment (gi_Organisation gitInfo) (gi_Name gitInfo)
                          number comment);
            match err with
            | Some e =>
                Warnf ("Failed to add comment to issue " ++ issue_URL issue ++ ": " ++ e)
            | None => mret tt
            end
          else mret tt
      end
    else mret tt
  else mret tt.

Fixpoint forEach {A} (f : A -> P W unit) (l : list A) : P W unit :=
  match l with
  | [] => mret tt
  | x :: l' => f x;; forEach f l'
  end.

(** Lines 909-945: the URL under which the application is available.
    [ens] and [app] are locals of [commentOnIssues].  The key is a
    pointer: the function returns it as it leaves it, next to the local
    [available]. *)
Definition findApplicationURL (ens app : string) (promoteKey : PromoteStepActivityKey)
    : P W (PromoteStepActivityKey * string) :=
  o ← get;
  let appNames := [app; o_ReleaseName (options o); ens ++ "-" ++ app] in
  url ← findServiceURL ens appNames "";
  (if bool_decide (url = "") then
     Warnf ("Could not find the service URL in namespace " ++ ens ++ " for names "
            ++ strings_Join appNames ", " ++ nl)
   else mret tt);;
  let available :=
    if bool_decide (url ≠ "") then " and available [here](" ++ url ++ ")" else "" in
  '(url, available) ← findIngressHost ens app url available;
  promoteKey ← (if bool_decide (url ≠ "") && bool_decide (k_ApplicationURL promoteKey = "")
                then
                  Infof ("Application is available at: " ++ url ++ nl);;
                  mret (set_ApplicationURL url promoteKey)
                else mret promoteKey);
  mret (promoteKey, available).

(** The second half of [commentOnIssues], lines 909-977: [ens],
    [envName], [app] and [version] are its locals, [gitInfo] the non-nil
    [o.GitInfo].  The key is returned as the function leaves it.  Nothing
    is returned to the caller but nil. *)
Definition commentOnClosedIssues (ens envName app version : string)
    (gitInfo : GitRepositoryInfo) (promoteKey : PromoteStepActivityKey)
    : P W PromoteStepActivityKey :=
  let releaseName := ToValidNameWithDots (app ++ "-" ++ version) in
  '(promoteKey, available) ← findApplicationURL ens app promoteKey;
  '(release, err) ← call (EvGetRelease ens releaseName) (Releases_Get ens releaseName);
  match err, release with
  | None, Some release =>
      modify (set_releaseResource release);;
      let versionMessage :=
        if bool_decide (rel_ReleaseNotesURL release ≠ "") then
          "[" ++ version ++ "](" ++ rel_ReleaseNotesURL release ++ ")"
        else version in
      forEach (commentOnIssue gitInfo envName versionMessage available)
              (rel_Issues release);;
      mret promoteKey
  | _, _ => mret promoteKey
  end.

End Methods.

(** The issues that get a comment: closed, with an identifier that is
    the decimal notation of a positive number. *)
Definition commentable (issue : IssueSummary) : option Z :=
  if issue_IsClosed issue then
    match strconv_Atoi (issue_ID issue) with
    | Some number => if 0 <? number then Some number else None
    | None => None
    end
  else None.

(** A laboratory: a world that never changes and answers from a table. *)
Record Lab := {
  environ : gmap string string;
  lab_GitInfo : option GitRepositoryInfo * option error;
  lab_Branch : string * option error;
  lab_JXClient : bool * option error;
  lab_releases : gmap string Release;
  lab_Jenkins : option error;
  lab_lastBuild : Z * option error;
  lab_JenkinsURL : string * option error;
  lab_home : string;
  lab_helmHome : bool * option error;
  lab_helmInit : option error;
  lab_KubeClient : string * option error;
  lab_register : option error;
  lab_services : gmap string string;
  lab_ingresses : gmap string Ingress;
  lab_comment : option error
}.

Definition trimSlashes (first last : bool) (p : string) : string :=
  let p := if negb first && strings_HasPrefix p "/"
           then String.substring 1 (String.length p - 1) p else p in
  if negb last && strings_HasSuffix p "/"
  then String.substring 0 (String.length p - 1) p else p.

Fixpoint joinPaths (first : bool) (paths : list string) : string :=
  match paths with
  | [] => ""
  | [p] => (if first then "" else "/") ++ trimSlashes first true p
  | p :: rest => (if first then "" else "/") ++ trimSlashes first false p
                 ++ joinPaths false rest
  end.

#[global] Instance lab : Host Lab := {|
  os_Getenv name w := default "" (environ w !! name);
  Git_Info w := (lab_GitInfo w, w);
  Git_Branch w := (lab_Branch w, w);
  JXClient w := (lab_JXClient w, w);
  Releases_Get _ name w :=
    (match lab_releases w !! name with
     | Some release => (Some release, None)
     | None => (None, Some ("release " ++ name ++ " not found"))
     end, w);
  JenkinsClient w := (lab_Jenkins w, w);
  GetJobByPath _ w := (lab_lastBuild w, w);
  GetJenkinsURL w := (lab_JenkinsURL w, w);
  UrlJoin := joinPaths true;
  ToValidName name := name;
  ToValidNameWithDots name := name;
  HomeDir := lab_home;
  filepath_Join dir name := dir ++ "/" ++ name;
  FileExists _ w := (lab_helmHome w, w);
  helmInit _ w := (lab_helmInit w, w);
  KubeClient w := (lab_KubeClient w, w);
  registerLocalHelmRepo _ _ w := (lab_register w, w);
  FindServiceURL _ name w := ((default "" (lab_services w !! name), None), w);
  Ingresses_Get _ name w :=
    (match lab_ingresses w !! name with
     | Some ing => (Some ing, None)
     | None => (None, Some ("ingress " ++ name ++ " not found"))
     end, w);
  CreateIssueComment _ _ _ _ w := (lab_comment w, w)
|}.

(** A build of a Jenkins pipeline: all four variables are set. *)
Definition ci : Lab := {|
  environ := list_to_map [("JOB_NAME", "acme/myapp/master"); ("BUILD_NUMBER", "7");
                          ("BUILD_URL", "http://jenkins/job/acme/job/myapp/job/master/7/");
                          ("BUILD_LOG_URL",
                           "http://jenkins/job/acme/job/myapp/job/master/7/console")];
  lab_GitInfo := (Some {| gi_Organisation := "acme"; gi_Name := "myapp" |}, None);
  lab_Branch := ("master", None);
  lab_JXClient := (true, None);
  lab_releases := list_to_map [("staging-myapp",
                                {| rel_ReleaseNotesURL := "http://notes/2.0.0";
                                   rel_Issues := [] |})];
  lab_Jenkins := None;
  lab_lastBuild := (7, None);
  lab_JenkinsURL := ("http://jenkins", None);
  lab_home := "/home/jx";
  lab_helmHome := (true, None);
  lab_helmInit := None;
  lab_KubeClient := ("jx", Some "no cluster");
  lab_register := None;
  lab_services := ∅;
  lab_ingresses := ∅;
  lab_comment := None
|}.

(** A developer's shell: no variable is set, Jenkins cannot be reached. *)
Definition shell : Lab := {|
  environ := list_to_map [("JENKINS_URL", "http://fallback")];
  lab_GitInfo := (Some {| gi_Organisation := "acme"; gi_Name := "myapp" |}, None);
  lab_Branch := ("", None);
  lab_JXClient := (true, None);
  lab_releases := ∅;
  lab_Jenkins := None;
  lab_lastBuild := (12, None);
  lab_JenkinsURL := ("", Some "no service");
  lab_home := "/home/dev";
  lab_helmHome := (false, None);
  lab_helmInit := None;
  lab_KubeClient := ("jx", None);
  lab_register := None;
  lab_services := ∅;
  lab_ingresses := ∅;
  lab_comment := None
|}.

(** A cluster with the release "myapp-2.0.0", four issues, and the
    service "staging-myapp". *)
Definition released : Lab := {|
  environ := ∅;
  lab_GitInfo := (Some {| gi_Organisation := "acme"; gi_Name := "myapp" |}, None);
  lab_Branch := ("master", None);
  lab_JXClient := (true, None);
  lab_releases :=
    list_to_map [("myapp-2.0.0",
                  {| rel_ReleaseNotesURL := "";
                     rel_Issues :=
                       [ {| issue_ID := "12"; issue_URL := "http://issues/12";
                            issue_IsClosed := true |};
                         {| issue_ID := "13"; issue_URL := "http://issues/13";
                            issue_IsClosed := false |};
                         {| issue_ID := "JIRA-4"; issue_URL := "http://issues/JIRA-4";
                            issue_IsClosed := true |};
                         {| issue_ID := "15"; issue_URL := "http://issues/15";
                            issue_IsClosed := true |} ] |})];
  lab_Jenkins := None;
  lab_lastBuild := (1, None);
  lab_JenkinsURL := ("http://jenkins", None);
  lab_home := "/home/jx";
  lab_helmHome := (true, None);
  lab_helmInit := None;
  lab_KubeClient := ("jx", None);
  lab_register := None;
  lab_services := list_to_map [("staging-myapp", "http://myapp.staging")];
  lab_ingresses := ∅;
  lab_comment := Some "rate limited"
|}.

(** The receiver before any probe. *)
Definition fresh (releaseName : string) : Receiver :=
  mkReceiver
    {| o_Namespace := ""; o_Environment := ""; o_Application := "myapp";
       o_Version := "2.0.0"; o_ReleaseName := releaseName;
       o_LocalHelmRepoName := "releases";
       o_HelmRepositoryURL := "http://charts"; o_NoHelmUpdate := false;
       o_AllAutomatic := false; o_NoMergePullRequest := false;
       o_TimeoutDuration := None; o_PullRequestPollDuration := None |}
    "" None None.

Definition blankKey : PromoteStepActivityKey :=
  {| pipelineActivityKey :=
       {| k_Name := "acme-myapp-master-7"; k_Pipeline := "acme/myapp/master";
          k_Build := "7"; k_BuildURL := ""; k_BuildLogsURL := ""; k_GitInfo := None;
          k_ReleaseNotesURL := "" |};
     k_Environment := "staging";
     k_ApplicationURL := "" |}.

End Probe.

(* ===================================================================== *)
(** * Validation of a chart maintainer

    [Maintainer.Validate] of package [models], a file generated by the
    swagger tool. *)

Module models.

(** The two functions of package [validate] and the constructor of
    package [errors] that the file calls (none of them part of it), over
    a type of validation errors.  [Required] is given the pointer. *)
Class Validators (E : Type) := {
  Required : string -> string -> option string -> option E;
  MinLength : string -> string -> string -> Z -> option E;
  CompositeValidationError : list E -> E
}.

Record Maintainer := {
  m_Email : option string;
  m_Name : option string
}.

(** What a method does: it returns an error or nil, or it dereferences
    a nil pointer. *)
Inductive Outcome (E : Type) :=
| Returns (err : option E)
| NilDereference.
Arguments Returns {E} _.
Arguments NilDereference {E}.

Section Validate.
Context {E : Type} `{!Validators E}.

(** The body shared by [validateEmail] and [validateName]: the field's
    name and its pointer. *)
Definition validateField (name : string) (field : option string) : Outcome E :=
  match Required name "body" field with
  | Some err => Returns (Some err)
  | None =>
      match field with
      | None => NilDereference
      | Some value =>
          match MinLength name "body" value 1 with
          | Some err => Returns (Some err)
          | None => Returns None
          end
      end
  end.

Definition validateEmail (m : Maintainer) : Outcome E := validateField "email" (m_Email m).

Definition validateName (m : Maintainer) : Outcome E := validateField "name" (m_Name m).

(** The [formats] registry is not read. *)
Definition Validate (m : Maintainer) : Outcome E :=
  match validateEmail m with
  | NilDereference => NilDereference
  | Returns err1 =>
      let res := match err1 with Some err => [err] | None => [] end in
      match validateName m with
      | NilDereference => NilDereference
      | Returns err2 =>
          let res := (res ++ match err2 with Some err => [err] | None => [] end)%list in
          if bool_decide (0 < length res)%nat then
            Returns (Some (CompositeValidationError res))
          else Returns None
      end
  end.

End Validate.

(** Validators that report the name of the field: a nil pointer is
    "required", an empty text "too short". *)
#[global] Instance plain : Validators string := {|
  Required name _ field :=
    match field with None => Some (name ++ " is required") | Some _ => None end;
  MinLength name _ value n :=
    if Z.of_nat (String.length value) <? n then Some (name ++ " is too short") else None;
  CompositeValidationError errs := strings_Join errs "; "
|}.

End models.

(* ===================================================================== *)
(** * More statements, as definitions *)

Section Invariants.
Context {W : Type} `{!Services W}.

(** What the variables of the poll loop keep from one round to a later
    one: a flag that is set stays set, a context URL that was recorded
    stays recorded, and one recorded with [success] stays so. *)
Definition keeps (st st' : PollState W) : Prop :=
  (logMergeFailure st = true -> logMergeFailure st' = true)
  /\ (logNoMergeCommitSha st = true -> logNoMergeCommitSha st' = true)
  /\ (logHasMergeSha st = true -> logHasMergeSha st' = true)
  /\ (logMergeStatusError st = true -> logMergeStatusError st' = true)
  /\ (logNoMergeStatuses st = true -> logNoMergeStatuses st' = true)
  /\ (forall url, is_Some (urlStatusMap st !! url) -> is_Some (urlStatusMap st' !! url))
  /\ (forall url, urlStatusMap st !! url = Some gitStatusSuccess ->
                  urlStatusMap st' !! url = Some gitStatusSuccess).

(** The same for the outcome of a round, or of a part of one: nothing
    is said of a round that ends the poll. *)
Definition keepsNext {R} (st : PollState W) (r : Flow R (PollState W)) : Prop :=
  match r with
  | Next st' => keeps st st'
  | Return _ => True
  end.

(** The release name and the full application name that [Promote]
    computes from the options. *)
Definition releaseNameOf (o : PromoteOptions) (targetNS : string) : string :=
  if bool_decide (o_ReleaseName o = "") then targetNS ++ "-" ++ o_Application o
  else o_ReleaseName o.

Definition fullAppNameOf (o : PromoteOptions) : string :=
  if bool_decide (o_LocalHelmRepoName o ≠ "")
  then o_LocalHelmRepoName o ++ "/" ++ o_Application o
  else o_Application o.

(** The two log lines at the start of [Promote]. *)
Definition promotingLine (o : PromoteOptions) (targetNS : string) : Event :=
  EvLog Info
    (if bool_decide (o_Version o = "") then
       "Promoting latest version of app " ++ o_Application o ++ " to namespace "
       ++ targetNS ++ nl
     else
       "Promoting app " ++ o_Application o ++ " version " ++ o_Version o
       ++ " to namespace " ++ targetNS ++ nl).

(** The options once [Promote] has defaulted the release name. *)
Definition withReleaseName (o : PromoteOptions) (targetNS : string) : PromoteOptions :=
  if bool_decide (o_ReleaseName o = "") then
    set_ReleaseName (targetNS ++ "-" ++ o_Application o) o
  else o.

End Invariants.

(** [post r Q]: if the run [r] returns, its value, its final state and
    its events satisfy [Q]. *)
Definition post {W A} (r : Res W A) (Q : A -> State W -> list Event -> Prop) : Prop :=
  match r with
  | Ret a s t => Q a s t
  | _ => True
  end.

(* ===================================================================== *)
(** * Lemmas on strings *)

Lemma Ascii_compare_refl c : Ascii.compare c c = Eq.
Proof. unfold Ascii.compare. apply N.compare_refl. Qed.

Lemma String_compare_refl s : String.compare s s = Eq.
Proof. induction s as [|c s IH]; simpl; [done|]. by rewrite Ascii_compare_refl. Qed.

Lemma Ascii_compare_Lt_trans a b c :
  Ascii.compare a b = Lt -> Ascii.compare b c = Lt -> Ascii.compare a c = Lt.
Proof.
  unfold Ascii.compare. rewrite !N.compare_lt_iff. apply N.lt_trans.
Qed.

Lemma String_compare_Lt_trans a : forall b c,
  String.compare a b = Lt -> String.compare b c = Lt -> String.compare a c = Lt.
Proof.
  induction a as [|x a IH]; intros [|y b] [|z c]; simpl; try done.
  destruct (Ascii.compare x y) eqn:Hxy; try done;
    destruct (Ascii.compare y z) eqn:Hyz; try done; intros H1 H2.
  - apply Ascii.compare_eq_iff in Hxy, Hyz. subst.
    rewrite Ascii_compare_refl. eauto.
  - apply Ascii.compare_eq_iff in Hxy. subst. by rewrite Hyz.
  - apply Ascii.compare_eq_iff in Hyz. subst. by rewrite Hxy.
  - by rewrite (Ascii_compare_Lt_trans _ _ _ Hxy Hyz).
Qed.

Lemma String_leb_refl s : String.leb s s = true.
Proof. unfold String.leb. by rewrite String_compare_refl. Qed.

Lemma String_leb_trans a b c :
  String.leb a b = true -> String.leb b c = true -> String.leb a c = true.
Proof.
  unfold String.leb.
  destruct (String.compare a b) eqn:Hab; try done;
    destruct (String.compare b c) eqn:Hbc; try done; intros _ _.
  - apply String.compare_eq_iff in Hab, Hbc. subst. by rewrite String_compare_refl.
  - apply String.compare_eq_iff in Hab. subst. by rewrite Hbc.
  - apply String.compare_eq_iff in Hbc. subst. by rewrite Hab.
  - by rewrite (String_compare_Lt_trans _ _ _ Hab Hbc).
Qed.

Lemma String_leb_empty s : String.leb "" s = true.
Proof. by destruct s. Qed.

Lemma String_leb_empty_inv s : String.leb s "" = true -> s = "".
Proof. by destruct s. Qed.

Lemma strings_Compare_gt_leb a b : strings_Compare_gt a b = negb (String.leb a b).
Proof. unfold strings_Compare_gt, String.leb. by destruct (String.compare a b). Qed.

Lemma String_leb_false a b : String.leb a b = false -> String.leb b a = true.
Proof.
  intros H. destruct (String.leb_total a b) as [H'|H']; [congruence|done].
Qed.

Lemma strings_HasPrefix_app s r : strings_HasPrefix (s ++ r) s = true.
Proof.
  induction s as [|c s IH]; simpl; [by destruct r|]. by rewrite Ascii.eqb_refl.
Qed.

Lemma strings_Contains_prefix s sub :
  strings_HasPrefix s sub = true -> strings_Contains s sub = true.
Proof. intros H. destruct s; simpl in *; by rewrite H. Qed.

Lemma strings_Contains_here s r : strings_Contains (s ++ r) s = true.
Proof. apply strings_Contains_prefix, strings_HasPrefix_app. Qed.

Lemma strings_Contains_refl s : strings_Contains s s = true.
Proof.
  assert (H : forall x, strings_HasPrefix x x = true).
  { induction x as [|c x IH]; simpl; [done|]. by rewrite Ascii.eqb_refl. }
  destruct s; simpl; [done|]. by rewrite Ascii.eqb_refl, H.
Qed.

Lemma strings_Contains_app_r p s sub :
  strings_Contains s sub = true -> strings_Contains (p ++ s) sub = true.
Proof.
  intros H. induction p as [|c p IH]; simpl; [done|].
  rewrite IH. by rewrite orb_true_r.
Qed.

Lemma strings_Contains_Join values sep name :
  name ∈ values -> strings_Contains (strings_Join values sep) name = true.
Proof.
  induction values as [|x [|y rest] IH]; intros Hin.
  - by apply elem_of_nil in Hin.
  - apply list_elem_of_singleton in Hin as ->. simpl.
    apply strings_Contains_refl.
  - apply elem_of_cons in Hin as [->|Hin].
    + change (strings_Join (x :: y :: rest) sep)
        with (x ++ sep ++ strings_Join (y :: rest) sep).
      apply strings_Contains_here.
    + change (strings_Join (x :: y :: rest) sep)
        with (x ++ sep ++ strings_Join (y :: rest) sep).
      do 2 apply strings_Contains_app_r. by apply IH.
Qed.

(* ===================================================================== *)
(** * [semver.Compare] is a total preorder *)

Lemma ol_le_trans {A} (c : A -> A -> Z) : OrderLike c ->
  forall a b d, c a b <= 0 -> c b d <= 0 -> c a d <= 0.
Proof.
  intros H a b d Hab Hbd.
  destruct (Z.eq_dec (c a b) 0) as [E|E]; [apply (ol_eq c H) in E; by subst|].
  destruct (Z.eq_dec (c b d) 0) as [E'|E']; [apply (ol_eq c H) in E'; by subst|].
  pose proof (ol_trans c H a b d). lia.
Qed.

Lemma cmpN_OrderLike : OrderLike cmpN.
Proof.
  split; unfold cmpN.
  - intros a. by rewrite N.compare_refl.
  - intros a b. rewrite (N.compare_antisym a b). by destruct (a ?= b)%N.
  - intros a b. destruct (N.compare_spec a b); done.
  - intros a b d. destruct (N.compare_spec a b), (N.compare_spec b d), (N.compare_spec a d);
      try done; lia.
Qed.

Lemma cmpS_OrderLike : OrderLike cmpS.
Proof.
  split; unfold cmpS.
  - intros a. by rewrite String_compare_refl.
  - intros a b. rewrite (String.compare_antisym a b). by destruct (String.compare b a).
  - intros a b. destruct (String.compare a b) eqn:E; try done.
    intros _. by apply String.compare_eq_iff.
  - intros a b d. destruct (String.compare a b) eqn:Hab; try done.
    destruct (String.compare b d) eqn:Hbd; try done.
    by rewrite (String_compare_Lt_trans _ _ _ Hab Hbd).
Qed.

Lemma compare_PR_OrderLike : OrderLike semver.compare_PR.
Proof.
  pose proof cmpN_OrderLike as HN. pose proof cmpS_OrderLike as HS.
  split.
  - intros [a|a]; [apply (ol_refl _ HN)|apply (ol_refl _ HS)].
  - intros [a|a] [b|b]; try done; [apply (ol_opp _ HN)|apply (ol_opp _ HS)].
  - intros [a|a] [b|b]; try done; intros E;
      [apply (ol_eq cmpN HN) in E|apply (ol_eq cmpS HS) in E]; by subst.
  - intros [a|a] [b|b] [d|d]; try done;
      [apply (ol_trans _ HN)|apply (ol_trans _ HS)].
Qed.

Lemma lex_OrderLike {A B} (c1 : A -> A -> Z) (c2 : B -> B -> Z) :
  OrderLike c1 -> OrderLike c2 ->
  OrderLike (λ x y : A * B, lex (c1 x.1 y.1) (c2 x.2 y.2)).
Proof.
  intros H1 H2. split; unfold lex.
  - intros [a b]. simpl. by rewrite (ol_refl _ H1), (ol_refl _ H2).
  - intros [a b] [a' b']. simpl. rewrite (ol_opp _ H1 a a'), (ol_opp _ H2 b b').
    destruct (Z.eqb_spec (c1 a a') 0), (Z.eqb_spec (- c1 a a') 0); lia.
  - intros [a b] [a' b']. simpl. destruct (Z.eqb_spec (c1 a a') 0) as [E|E]; [|done].
    intros E'. apply (ol_eq _ H1) in E. apply (ol_eq _ H2) in E'. by subst.
  - intros [a b] [a' b'] [a'' b'']. simpl.
    destruct (Z.eqb_spec (c1 a a') 0) as [E|E]; [apply (ol_eq _ H1) in E; subst|];
      (destruct (Z.eqb_spec (c1 a' a'') 0) as [E'|E']; [apply (ol_eq _ H1) in E'; subst|]).
    + rewrite ?(ol_refl _ H1). simpl. apply (ol_trans _ H2).
    + destruct (Z.eqb_spec (c1 a' a'') 0); done.
    + destruct (Z.eqb_spec (c1 a a'') 0); done.
    + intros Hab Hbd. pose proof (ol_trans _ H1 a a' a'' Hab Hbd).
      destruct (Z.eqb_spec (c1 a a'') 0); lia.
Qed.

Lemma compare_Pre_OrderLike : OrderLike semver.compare_Pre.
Proof.
  pose proof compare_PR_OrderLike as HP. split.
  - induction a as [|x a IH]; simpl; [done|]. by rewrite (ol_refl _ HP), IH.
  - induction a as [|x a IH]; intros [|y b]; simpl; try done.
    rewrite (ol_opp _ HP x y), (IH b).
    destruct (Z.eqb_spec (semver.compare_PR x y) 0), (Z.eqb_spec (- semver.compare_PR x y) 0); lia.
  - induction a as [|x a IH]; intros [|y b]; simpl; try done.
    destruct (Z.eqb_spec (semver.compare_PR x y) 0) as [E|E]; [|done].
    intros E'. apply (ol_eq _ HP) in E. apply IH in E'. by subst.
  - induction a as [|x a IH]; intros [|y b] [|z d]; simpl; try done.
    destruct (Z.eqb_spec (semver.compare_PR x y) 0) as [E|E]; [apply (ol_eq _ HP) in E; subst|];
      (destruct (Z.eqb_spec (semver.compare_PR y z) 0) as [E'|E']; [apply (ol_eq _ HP) in E'; subst|]).
    + rewrite ?(ol_refl _ HP). simpl. apply IH.
    + destruct (Z.eqb_spec (semver.compare_PR y z) 0); done.
    + destruct (Z.eqb_spec (semver.compare_PR x z) 0); done.
    + intros Hab Hbd. pose proof (ol_trans _ HP x y z Hab Hbd).
      destruct (Z.eqb_spec (semver.compare_PR x z) 0); lia.
Qed.

Lemma cmpPre_OrderLike : OrderLike cmpPre.
Proof.
  pose proof compare_Pre_OrderLike as HP. split.
  - intros [|x a]; [done|apply (ol_refl _ HP)].
  - intros [|x a] [|y b]; try done. apply (ol_opp _ HP).
  - intros [|x a] [|y b]; try done. apply (ol_eq _ HP).
  - intros [|x a] [|y b] [|z d]; try done. apply (ol_trans _ HP).
Qed.

Lemma cmpKey_OrderLike : OrderLike cmpKey.
Proof.
  apply (lex_OrderLike cmpN cmpTail2); [apply cmpN_OrderLike|].
  apply (lex_OrderLike cmpN cmpTail3); [apply cmpN_OrderLike|].
  apply (lex_OrderLike cmpN cmpPre); [apply cmpN_OrderLike|apply cmpPre_OrderLike].
Qed.

Lemma Compare_key v o : semver.Compare v o = cmpKey (key v) (key o).
Proof.
  unfold semver.Compare, cmpKey, cmpTail2, cmpTail3, key, lex, cmpN. simpl.
  destruct (N.eqb_spec (semver.Major v) (semver.Major o)) as [->|H1]; simpl.
  2: { destruct (N.ltb_spec (semver.Major o) (semver.Major v)),
         (N.compare_spec (semver.Major v) (semver.Major o)); simpl; try done; lia. }
  rewrite N.compare_refl. simpl.
  destruct (N.eqb_spec (semver.Minor v) (semver.Minor o)) as [->|H2]; simpl.
  2: { destruct (N.ltb_spec (semver.Minor o) (semver.Minor v)),
         (N.compare_spec (semver.Minor v) (semver.Minor o)); simpl; try done; lia. }
  rewrite N.compare_refl. simpl.
  destruct (N.eqb_spec (semver.Patch v) (semver.Patch o)) as [->|H3]; simpl.
  2: { destruct (N.ltb_spec (semver.Patch o) (semver.Patch v)),
         (N.compare_spec (semver.Patch v) (semver.Patch o)); simpl; try done; lia. }
  rewrite N.compare_refl. simpl.
  unfold cmpPre. by destruct (semver.Pre v), (semver.Pre o).
Qed.

Lemma Compare_refl v : semver.Compare v v = 0.
Proof. rewrite Compare_key. apply (ol_refl _ cmpKey_OrderLike). Qed.

Lemma Compare_le_trans a b d :
  semver.Compare a b <= 0 -> semver.Compare b d <= 0 -> semver.Compare a d <= 0.
Proof. rewrite !Compare_key. apply (ol_le_trans _ cmpKey_OrderLike). Qed.

Lemma Compare_gt_le a b : 0 < semver.Compare a b -> semver.Compare b a <= 0.
Proof. rewrite !Compare_key, (ol_opp _ cmpKey_OrderLike (key a) (key b)). lia. Qed.

(* ===================================================================== *)
(** * Running the monad *)

Lemma prepend_nil {W A} (r : Res W A) : prepend [] r = r.
Proof. by destruct r. Qed.

Lemma prepend_prepend {W A} t1 t2 (r : Res W A) :
  prepend t1 (prepend t2 r) = prepend (t1 ++ t2) r.
Proof. destruct r; simpl; by rewrite app_assoc. Qed.

Lemma bind_Ret {W A B} (m : M W A) (f : A -> M W B) s a s1 t1 :
  m s = Ret a s1 t1 -> (m ≫= f) s = prepend t1 (f a s1).
Proof. unfold mbind, M_bind, bind. by intros ->. Qed.

(** Unfold the primitive operations of the monad. *)
Ltac go_unfold :=
  unfold mbind, mret, M_bind, M_ret, bind, ret, call, emit, log, Infof, Warnf,
    getOpts, setOpts, timeNow, panic, outOfFuel in *.

Ltac go := go_unfold; simpl in *.

(* ===================================================================== *)
(** * The version resolver *)

Section VersionResolver.
Context {W : Type} `{!Services W}.

Lemma pickString_cases m v :
  String.leb m (pickString m v) = true
  /\ String.leb v (pickString m v) = true
  /\ (pickString m v = m \/ pickString m v = v).
Proof.
  unfold pickString. case_bool_decide as Hm; simpl.
  - subst. split; [apply String_leb_empty|]. split; [apply String_leb_refl|by right].
  - rewrite strings_Compare_gt_leb. destruct (String.leb v m) eqn:Hvm; simpl.
    + split; [apply String_leb_refl|]. split; [done|by left].
    + split; [by apply String_leb_false|]. split; [apply String_leb_refl|by right].
Qed.

Lemma fold_pickString versions : forall m,
  let r := fold_left pickString versions m in
  String.leb m r = true
  /\ (forall v, v ∈ versions -> String.leb v r = true)
  /\ (r = m \/ r ∈ versions).
Proof.
  induction versions as [|x versions IH]; intros m; simpl.
  - split; [apply String_leb_refl|]. split; [|by left].
    intros v Hv. by apply elem_of_nil in Hv.
  - destruct (IH (pickString m x)) as (H1 & H2 & H3).
    destruct (pickString_cases m x) as (P1 & P2 & P3).
    split; [by eapply String_leb_trans|]. split.
    + intros v [->|Hv]%elem_of_cons; [by eapply String_leb_trans|by apply H2].
    + destruct H3 as [->|H3].
      * destruct P3 as [->| ->]; [by left|right; by left].
      * right. by right.
Qed.

Lemma findLatestVersion_body_unparsable maxSemVer maxString x (s : State W) :
  semver.Parse x = None ->
  findLatestVersion_body (maxSemVer, maxString) x s
  = Ret (maxSemVer, pickString maxString x) s
        [EvLog Warn ("Invalid semantic version: " ++ x ++ nl)].
Proof.
  intros Hx. unfold findLatestVersion_body, pickString. rewrite Hx. go.
  destruct (bool_decide (maxString = "") || strings_Compare_gt x maxString);
    reflexivity.
Qed.

(** On strings that do not parse, the loop of [findLatestVersion] only
    moves [maxString], by [pickString]. *)
Lemma forRange_unparsable versions : forall maxSemVer maxString (s : State W),
  (forall v, v ∈ versions -> semver.Parse v = None) ->
  exists t,
    forRange findLatestVersion_body versions (maxSemVer, maxString) s
    = Ret (maxSemVer, fold_left pickString versions maxString) s t.
Proof.
  induction versions as [|x versions IH]; intros maxSemVer maxString s Hall.
  - exists []. reflexivity.
  - assert (Hx : semver.Parse x = None) by (apply Hall; by left).
    destruct (IH maxSemVer (pickString maxString x) s) as [t Ht].
    { intros v Hv. apply Hall. by right. }
    exists (EvLog Warn ("Invalid semantic version: " ++ x ++ nl) :: t).
    change (forRange (W:=W) findLatestVersion_body (x :: versions) (maxSemVer, maxString))
      with (findLatestVersion_body (W:=W) (maxSemVer, maxString) x
            ≫= forRange findLatestVersion_body versions).
    rewrite (bind_Ret _ _ _ _ _ _ (findLatestVersion_body_unparsable _ _ _ _ Hx)).
    rewrite Ht. reflexivity.
Qed.

(** The loop of [findLatestVersion] on any list of strings. *)
Lemma forRange_findLatestVersion versions : forall maxSemVer maxString (s : State W),
  exists t,
    forRange findLatestVersion_body versions (maxSemVer, maxString) s
    = Ret (fold_left pickVersion versions maxSemVer,
           fold_left keepString versions maxString) s t.
Proof.
  induction versions as [|x versions IH]; intros maxSemVer maxString s.
  - exists []. reflexivity.
  - destruct (IH (pickVersion maxSemVer x) (keepString maxString x) s) as [t Ht].
    change (forRange (W:=W) findLatestVersion_body (x :: versions) (maxSemVer, maxString))
      with (findLatestVersion_body (W:=W) (maxSemVer, maxString) x
            ≫= forRange findLatestVersion_body versions).
    assert (Hbody : exists t1,
               findLatestVersion_body (maxSemVer, maxString) x s
               = Ret (pickVersion maxSemVer x, keepString maxString x) s t1).
    { unfold findLatestVersion_body, pickVersion, keepString, pickString.
      destruct (semver.Parse x) as [sv|].
      - destruct maxSemVer as [m|]; [|by eexists].
        destruct (0 <? semver.Compare m sv); by eexists.
      - eexists. unfold mbind, mret, M_bind, M_ret, bind, ret, Warnf, log, emit. simpl.
        destruct (bool_decide (maxString = "") || strings_Compare_gt x maxString);
          reflexivity. }
    destruct Hbody as [t1 Hbody].
    exists (t1 ++ t)%list. rewrite (bind_Ret _ _ _ _ _ _ Hbody), Ht. reflexivity.
Qed.

(** The running [maxSemVer] is below every version parsed so far. *)
Lemma fold_pickVersion versions : forall acc,
  let r := fold_left pickVersion versions acc in
  (acc = None /\ (forall v, v ∈ versions -> semver.Parse v = None) /\ r = None)
  \/ exists m,
       r = Some m
       /\ (acc = Some m \/ exists v, v ∈ versions /\ semver.Parse v = Some m)
       /\ (forall a, acc = Some a -> semver.Compare m a <= 0)
       /\ forall v sv, v ∈ versions -> semver.Parse v = Some sv -> semver.Compare m sv <= 0.
Proof.
  induction versions as [|x versions IH]; intros acc; simpl.
  - destruct acc as [a|].
    + right. exists a. split; [done|]. split; [by left|]. split.
      * intros ? [= <-]. by rewrite Compare_refl.
      * intros v sv Hv. by apply elem_of_nil in Hv.
    + left. split; [done|]. split; [|done]. intros v Hv. by apply elem_of_nil in Hv.
  - destruct (IH (pickVersion acc x)) as [(Hacc & Hnone & Hr)|(m & Hr & Hfrom & Hle & Hall)].
    + left. unfold pickVersion in Hacc.
      destruct (semver.Parse x) as [sv|] eqn:Hx.
      { destruct acc as [a|]; [|done]. by destruct (0 <? semver.Compare a sv). }
      split; [done|]. split; [|done].
      intros v [->|Hv]%elem_of_cons; [done|by apply Hnone].
    + right. exists m. split; [done|].
      unfold pickVersion in Hfrom, Hle.
      destruct (semver.Parse x) as [sv|] eqn:Hx.
      * assert (Hsv : semver.Compare m sv <= 0
                      /\ (forall a, acc = Some a -> semver.Compare m a <= 0)
                      /\ (acc = Some m \/ semver.Parse x = Some m
                          \/ exists v, v ∈ versions /\ semver.Parse v = Some m)).
        { destruct acc as [a|].
          - destruct (Z.ltb_spec 0 (semver.Compare a sv)) as [Hgt|Hngt].
            + pose proof (Hle sv eq_refl) as Hm. split; [done|]. split.
              * intros ? [= <-]. eapply Compare_le_trans; [exact Hm|].
                by apply Compare_gt_le.
              * destruct Hfrom as [[= <-]|Hfrom]; [right; by left|by do 2 right].
            + pose proof (Hle a eq_refl) as Hm. split.
              * eapply Compare_le_trans; [exact Hm|lia].
              * split; [by intros ? [= <-]|].
                destruct Hfrom as [[= <-]|Hfrom]; [by left|by do 2 right].
          - pose proof (Hle sv eq_refl) as Hm. split; [done|]. split; [done|].
            destruct Hfrom as [[= <-]|Hfrom]; [right; by left|by do 2 right]. }
        destruct Hsv as (Hm & Ha & Hwhere). split; [|split; [exact Ha|]].
        -- destruct Hwhere as [?|[?|(v & Hv & Hpv)]]; [by left|right..].
           ++ exists x. split; [by left|congruence].
           ++ exists v. split; [by right|done].
        -- intros v sv' [->|Hv]%elem_of_cons Hp; [|by eapply Hall].
           rewrite Hx in Hp. by injection Hp as <-.
      * split; [|split; [exact Hle|]].
        -- destruct Hfrom as [?|(v & Hv & Hpv)]; [by left|right].
           exists v. split; [by right|done].
        -- intros v sv' [->|Hv]%elem_of_cons Hp; [congruence|by eapply Hall].
Qed.

(** Whenever some string of the answer parses, [findLatestVersion]
    returns the least of the parsed versions: every parsed version
    compares greater than or equal to it. *)
Lemma findLatestVersion_keeps_least app (s : State W) versions w1 :
  Helm_SearchChartVersions app (world s) = ((versions, None), w1) ->
  (exists v sv, v ∈ versions /\ semver.Parse v = Some sv) ->
  exists m t,
    findLatestVersion app s = Ret (semver.String m, None) (mkState (opts s) w1) t
    /\ (exists v, v ∈ versions /\ semver.Parse v = Some m)
    /\ forall v sv, v ∈ versions -> semver.Parse v = Some sv -> semver.Compare m sv <= 0.
Proof.
  intros Hsearch (v0 & sv0 & Hv0 & Hp0).
  destruct (forRange_findLatestVersion versions None "" (mkState (opts s) w1)) as [t Ht].
  destruct (fold_pickVersion versions None) as [(_ & Hnone & _)|(m & Hr & Hfrom & _ & Hall)].
  { rewrite (Hnone v0 Hv0) in Hp0. done. }
  exists m, ([EvSearchChartVersions app] ++ t ++ [])%list. split; [|split; [|exact Hall]].
  - unfold findLatestVersion.
    erewrite bind_Ret by (unfold call; rewrite Hsearch; reflexivity).
    cbv beta iota. erewrite bind_Ret by exact Ht. cbv beta iota. rewrite Hr. reflexivity.
  - by destruct Hfrom as [?|?].
Qed.

End VersionResolver.

Section VersionResolverTheorems.
Context {W : Type} `{!Services W}.

(** C9, as amended.  When the repository answers with strings none of
    which parses as a semantic version: if at least one of them is not
    the empty string, [findLatestVersion] returns, without error, the
    lexicographically greatest of them; if there is none, or all are
    empty, it fails with the error "Could not find a version of app". *)
Theorem findLatestVersion_unparsable app (s : State W) versions w1 :
  Helm_SearchChartVersions app (world s) = ((versions, None), w1) ->
  (forall v, v ∈ versions -> semver.Parse v = None) ->
  ((exists v, v ∈ versions /\ v <> "") ->
   exists best t,
     findLatestVersion app s = Ret (best, None) (mkState (opts s) w1) t
     /\ best ∈ versions
     /\ forall v, v ∈ versions -> String.leb v best = true)
  /\ ((forall v, v ∈ versions -> v = "") ->
      exists t,
        findLatestVersion app s
        = Ret ("", Some ("Could not find a version of app " ++ app
                         ++ " in the helm repositories"))
              (mkState (opts s) w1) t).
Proof.
  intros Hsearch Hall.
  destruct (forRange_unparsable versions None "" (mkState (opts s) w1) Hall) as [t Ht].
  destruct (fold_pickString versions "") as (_ & Hmax & Hin).
  set (best := fold_left pickString versions "") in *.
  assert (Hrun : findLatestVersion app s
                 = prepend [EvSearchChartVersions app]
                     (prepend t
                        (((if bool_decide (best = "") then
                             mret ("", Some ("Could not find a version of app " ++ app
                                             ++ " in the helm repositories"))
                           else mret (best, None)) : M W (string * option error))
                           (mkState (opts s) w1)))).
  { unfold findLatestVersion.
    erewrite bind_Ret by (unfold call; rewrite Hsearch; reflexivity).
    f_equal. simpl. erewrite bind_Ret by exact Ht. reflexivity. }
  split.
  - intros (v & Hv & Hne).
    assert (Hbest : best <> "").
    { intros E. specialize (Hmax v Hv). rewrite E in Hmax.
      by apply String_leb_empty_inv in Hmax. }
    exists best, ([EvSearchChartVersions app] ++ t ++ [])%list.
    split; [|split; [|done]].
    + rewrite Hrun. by rewrite bool_decide_eq_false_2.
    + by destruct Hin.
  - intros Hempty.
    assert (Hbest : best = "").
    { destruct Hin as [E|E]; [done|by apply Hempty]. }
    exists ([EvSearchChartVersions app] ++ t ++ [])%list.
    rewrite Hrun. by rewrite bool_decide_eq_true_2.
Qed.

End VersionResolverTheorems.

(** An event that occurs in a trace given by its events. *)
Ltac occurs := repeat first [left | right].

(** Membership in a list given by its elements. *)
Ltac each_element H :=
  repeat (apply elem_of_cons in H as [->|H]; [try reflexivity|]);
  try (by apply elem_of_nil in H).

(** C1.  On the versions ["1.0.0"; "1.2.0"; "0.9.5"], all three of which
    parse, [findLatestVersion] returns "0.9.5", the least of them: the
    running [maxSemVer] is replaced when it compares greater than the
    candidate. *)
Theorem findLatestVersion_returns_least_of_example :
  findLatestVersion "myapp" (Scripted.start (Scripted.quiet [] ["1.0.0"; "1.2.0"; "0.9.5"]))
  = Ret ("0.9.5", None) (Scripted.start (Scripted.quiet [] ["1.0.0"; "1.2.0"; "0.9.5"]))
        [EvSearchChartVersions "myapp"].
Proof. vm_compute. reflexivity. Qed.

(** The theorem of C9 at the versions ["not-a-version"; "also-bad"]. *)
Lemma findLatestVersion_unparsable_witness :
  let versions := ["not-a-version"; "also-bad"] in
  let s := Scripted.start (Scripted.quiet [] versions) in
  (forall v, v ∈ versions -> semver.Parse v = None)
  /\ (exists v, v ∈ versions /\ v <> "")
  /\ exists best t,
       findLatestVersion "myapp" s = Ret (best, None) s t
       /\ best ∈ versions
       /\ forall v, v ∈ versions -> String.leb v best = true.
Proof.
  intros versions s.
  assert (Hall : forall v, v ∈ versions -> semver.Parse v = None).
  { intros v Hv. unfold versions in Hv. each_element Hv. }
  assert (Hne : exists v, v ∈ versions /\ v <> "").
  { exists "also-bad". split; [right; left|done]. }
  split; [exact Hall|]. split; [exact Hne|].
  exact (proj1 (findLatestVersion_unparsable "myapp" s versions (world s)
                  eq_refl Hall) Hne).
Defined.

(** C9 as stated fails on the one-element answer [""]: no string parses,
    the repository did return a version string, and the resolver fails
    with the error meant for an empty answer. *)
Lemma findLatestVersion_empty_string_counterexample :
  let versions := [""] in
  let s := Scripted.start (Scripted.quiet [] versions) in
  versions <> []
  /\ (forall v, v ∈ versions -> semver.Parse v = None)
  /\ findLatestVersion "myapp" s
     = Ret ("", Some "Could not find a version of app myapp in the helm repositories") s
           [EvSearchChartVersions "myapp"; EvLog Warn ("Invalid semantic version: " ++ nl)].
Proof.
  split; [done|]. split.
  - intros v Hv. each_element Hv.
  - vm_compute. reflexivity.
Qed.

(* ===================================================================== *)
(** * Target resolution *)

Lemma call_Ret {W X} (e : Event) (f : W -> X * W) (s : State W) x w :
  f (world s) = (x, w) -> call e f s = Ret x (mkState (opts s) w) [e].
Proof. unfold call. by intros ->. Qed.

(** Run one collaborator call whose answer is the hypothesis [H]. *)
Ltac step_call H :=
  erewrite bind_Ret by (apply call_Ret; exact H); cbv beta iota.

Section TargetResolution.
Context {W : Type} `{!Services W}.

(** C6.  When the registry answers and the requested environment name
    (non-empty, so that one is requested) is not a key of the registry's
    map, [GetTargetNamespace] fails: it returns no namespace, no
    environment and an error whose message contains every name of the
    registry's list of names; when that list is not empty the error is
    [InvalidOption "env" env envNames]. *)
Theorem GetTargetNamespace_unknown_environment ns env (s : State W)
    currentNs w1 team w2 w3 (m : gmap string Environment) envNames w4 :
  env <> "" ->
  KubeClient (world s) = ((currentNs, None), w1) ->
  GetDevNamespace currentNs w1 = ((team, None), w2) ->
  JXClient w2 = (None, w3) ->
  GetEnvironments team w3 = ((m, envNames, None), w4) ->
  m !! env = None ->
  exists msg,
    GetTargetNamespace ns env s
    = Ret ("", None, Some msg) (mkState (opts s) w4)
          [EvKubeClient; EvGetDevNamespace currentNs; EvJXClient; EvGetEnvironments team]
    /\ (envNames <> [] -> msg = InvalidOption optionEnvironment env envNames)
    /\ forall name, name ∈ envNames -> strings_Contains msg name = true.
Proof.
  intros Henv Hkube Hdev Hjx Hget Hlookup.
  unfold GetTargetNamespace.
  step_call Hkube. step_call Hdev. step_call Hjx. step_call Hget.
  destruct envNames as [|n0 envNames].
  - eexists. split; [reflexivity|]. split; [done|].
    intros name Hin. by apply elem_of_nil in Hin.
  - exists (InvalidOption optionEnvironment env (n0 :: envNames)).
    split; [|split; [done|]].
    + rewrite bool_decide_eq_false_2 by done.
      rewrite bool_decide_eq_true_2 by done.
      rewrite Hlookup. reflexivity.
    + intros name Hin. unfold InvalidOption.
      do 6 apply strings_Contains_app_r.
      by apply strings_Contains_Join.
Qed.

End TargetResolution.

(** The theorem of C6 in a registry that knows "staging" and "production",
    asked for "qa". *)
Lemma GetTargetNamespace_unknown_environment_witness :
  let envs := [Scripted.environment "staging" "jx-staging" PromotionStrategyTypeAutomatic
                 EnvironmentKindTypePermanent "" 100;
               Scripted.environment "production" "jx-production" PromotionStrategyTypeManual
                 EnvironmentKindTypePermanent "" 200] in
  let s := Scripted.start (Scripted.quiet envs []) in
  "qa" <> ""
  /\ Scripted.registry envs !! "qa" = None
  /\ exists msg,
       GetTargetNamespace "" "qa" s
       = Ret ("", None, Some msg) s
             [EvKubeClient; EvGetDevNamespace "jx"; EvJXClient; EvGetEnvironments "jx"]
       /\ (Scripted.names envs <> [] ->
           msg = InvalidOption optionEnvironment "qa" (Scripted.names envs))
       /\ forall name, name ∈ Scripted.names envs -> strings_Contains msg name = true.
Proof.
  intros envs s.
  assert (Hne : "qa" <> "") by done.
  assert (Hlookup : Scripted.registry envs !! "qa" = None) by (vm_compute; reflexivity).
  split; [exact Hne|]. split; [exact Hlookup|].
  exact (GetTargetNamespace_unknown_environment "" "qa" s "jx" (world s) "jx" (world s)
           (world s) (Scripted.registry envs) (Scripted.names envs) (world s)
           Hne eq_refl eq_refl eq_refl eq_refl Hlookup).
Defined.

(* ===================================================================== *)
(** * Waiting for a promotion *)

Section Waiting.
Context {W : Type} `{!Services W}.

(** C10.  For every release info, if the timeout duration is absent, or
    the poll duration is absent, or the release info carries no
    pull-request info, [WaitForPromotion] returns nil whatever the fuel,
    leaves the options as they are, and emits nothing but log lines: no
    call to the Git provider, no ledger transition, no sleep. *)
Theorem WaitForPromotion_returns_at_once fuel ns env (ri : ReleaseInfo W) (s : State W) :
  o_TimeoutDuration (opts s) = None
  \/ o_PullRequestPollDuration (opts s) = None
  \/ ri_PullRequestInfo ri = None ->
  exists s' t,
    WaitForPromotion fuel ns env (Some ri) s = Ret None s' t
    /\ opts s' = opts s
    /\ forallb isLog t = true
    /\ forallb (negb ∘ isProviderOrLedger) t = true.
Proof.
  intros Hcase. unfold WaitForPromotion. go.
  destruct (o_TimeoutDuration (opts s)) as [duration|] eqn:Ht; simpl.
  2: { eexists _, _. split; [reflexivity|]. done. }
  destruct (o_PullRequestPollDuration (opts s)) as [poll|] eqn:Hp; simpl.
  2: { eexists _, _. split; [reflexivity|]. done. }
  destruct Hcase as [?|[?|Hri]]; [done|done|].
  destruct (time_Now (world s)) as [now w1]. simpl. rewrite Hri. simpl.
  eexists _, _. split; [reflexivity|]. done.
Qed.

End Waiting.

(** The theorem of C10 on the direct-update path: both durations are set
    and the release info has no pull-request info. *)
Lemma WaitForPromotion_returns_at_once_witness :
  let ri : ReleaseInfo Scripted.World :=
    {| ri_ReleaseName := "production-myapp"; ri_FullAppName := "repo/myapp";
       ri_Version := "2.0.0"; ri_PullRequestInfo := None |} in
  let s := Scripted.start (Scripted.quiet [] []) in
  let env := Scripted.environment "production" "production" PromotionStrategyTypeManual
               EnvironmentKindTypePermanent "" 200 in
  ri_PullRequestInfo ri = None
  /\ exists s' t,
       WaitForPromotion 0 "production" env (Some ri) s = Ret None s' t
       /\ opts s' = opts s
       /\ forallb isLog t = true
       /\ forallb (negb ∘ isProviderOrLedger) t = true.
Proof.
  intros ri s env. split; [reflexivity|].
  exact (WaitForPromotion_returns_at_once 0 "production" env ri s
           (or_intror (or_intror eq_refl))).
Defined.

(* ===================================================================== *)
(** * The sweep over the automatic environments *)

Lemma bind_assoc {W A B C} (m : M W A) (f : A -> M W B) (g : B -> M W C) s :
  ((m ≫= f) ≫= g) s = (m ≫= (λ a, f a ≫= g)) s.
Proof.
  unfold mbind, M_bind, bind. destruct (m s) as [a s1 t1| |]; [|done|done].
  destruct (f a s1) as [b s2 t2| |]; simpl; [|done|done].
  destruct (g b s2); simpl; by rewrite app_assoc.
Qed.

Lemma bind_mret {W A B} (a : A) (f : A -> M W B) s : (mret a ≫= f) s = f a s.
Proof. unfold mbind, mret, M_bind, M_ret, bind, ret. apply prepend_nil. Qed.

Lemma bind_ext {W A B} (m : M W A) (f g : A -> M W B) s :
  (forall a s', f a s' = g a s') -> (m ≫= f) s = (m ≫= g) s.
Proof.
  intros Hfg. unfold mbind, M_bind, bind.
  destruct (m s); [|done|done]. by rewrite Hfg.
Qed.

Lemma StronglySorted_filter {A} (R : relation A) (f : A -> bool) l :
  StronglySorted R l -> StronglySorted R (List.filter f l).
Proof.
  induction 1 as [|x l Hl IH Hx]; simpl; [constructor|].
  destruct (f x); [|done]. constructor; [done|].
  apply Forall_forall. intros y Hy.
  apply list_elem_of_In, filter_In in Hy as [Hy _].
  rewrite Forall_forall in Hx. apply Hx. by apply list_elem_of_In.
Qed.

Global Instance byOrder_trans : Transitive byOrder.
Proof. unfold byOrder. intros a b c. lia. Qed.

Global Instance byOrder_total : Total byOrder.
Proof. unfold byOrder. intros a b. lia. Qed.

Section Sweep.
Context {W : Type} `{!Services W}.

(** The loop with its test inside is the sequence over the filtered list. *)
Lemma promoteEach_filter fuel environments : forall s : State W,
  promoteEach fuel environments s
  = promoteSequentially (promoteOne fuel) (List.filter isTarget environments) s.
Proof.
  induction environments as [|env rest IH]; intros s; [reflexivity|].
  simpl promoteEach. simpl List.filter. fold (isTarget env).
  destruct (isTarget env); [|apply IH].
  simpl promoteSequentially. unfold promoteOne.
  destruct (bool_decide (spec_Namespace (env_Spec env) = "")).
  { by rewrite bind_mret. }
  rewrite bind_assoc. apply bind_ext.
  intros [releaseInfo [e|]] s1.
  - by rewrite bind_mret.
  - apply bind_ext. intros [e|] s2; [reflexivity|apply IH].
Qed.

(** In a sequence, the first step that fails ends the run: its error is
    the result and no later target contributes an event. *)
Lemma promoteSequentially_stops (step : Environment -> M W (option error))
    visited : forall (s : State W) env rest e s' t,
  promoteSequentially step visited s = Ret None s' t ->
  forall s'' t', step env s' = Ret (Some e) s'' t' ->
  promoteSequentially step (visited ++ env :: rest) s = Ret (Some e) s'' (t ++ t').
Proof.
  induction visited as [|v visited IH]; intros s env rest e s' t Hrun s'' t' Hstep.
  - injection Hrun as <- <-. simpl.
    rewrite (bind_Ret _ _ _ _ _ _ Hstep). simpl. by rewrite app_nil_r.
  - simpl in *. unfold mbind, M_bind, bind in *.
    destruct (step v s) as [[e1|] s1 t1| |]; simpl in *; try done.
    destruct (promoteSequentially step visited s1) as [r s2 t2| |] eqn:Hrest;
      simpl in *; try done.
    injection Hrun as -> -> <-.
    rewrite (IH s1 env rest e s' t2 Hrest s'' t' Hstep). simpl.
    by rewrite app_assoc.
Qed.

(** C3.  When the cluster clients and the registry answer, and
    [SortEnvironments] puts the environments in ascending order of the
    ordering attribute, [PromoteAllAutomatic] promotes, one after the
    other and in that order, exactly the environments whose strategy is
    [Automatic] and whose kind is permanent ([promoteOne]: the check of
    the namespace, [Promote], [WaitForPromotion]); the first promotion
    that returns an error ends the sweep with that error, and no later
    environment is promoted. *)
Theorem PromoteAllAutomatic_sweep fuel (s : State W) currentNs w1 team w2 w3 envs w4 :
  SortEnvironments envs ≡ₚ envs ->
  Sorted byOrder (SortEnvironments envs) ->
  KubeClient (world s) = ((currentNs, None), w1) ->
  GetDevNamespace currentNs w1 = ((team, None), w2) ->
  JXClient w2 = (None, w3) ->
  Environments_List team w3 = ((envs, None), w4) ->
  let targets := List.filter isTarget (SortEnvironments envs) in
  PromoteAllAutomatic fuel s
  = prepend ([EvKubeClient; EvGetDevNamespace currentNs; EvJXClient; EvListEnvironments team]
             ++ match envs with
                | [] => [EvLog Warn ("No Environments have been created yet in team " ++ team
                                     ++ ". Please create some via 'jx create env'" ++ nl)]
                | _ => []
                end)%list
      (promoteSequentially (promoteOne fuel) targets (mkState (opts s) w4))
  /\ StronglySorted byOrder targets
  /\ (forall e, e ∈ targets <-> e ∈ envs /\ isTarget e = true)
  /\ (forall promoted env rest e s' t s'' t',
        targets = (promoted ++ env :: rest)%list ->
        promoteSequentially (promoteOne fuel) promoted (mkState (opts s) w4)
        = Ret None s' t ->
        promoteOne fuel env s' = Ret (Some e) s'' t' ->
        PromoteAllAutomatic fuel s
        = Ret (Some e) s''
              ([EvKubeClient; EvGetDevNamespace currentNs; EvJXClient;
                EvListEnvironments team] ++ t ++ t')%list).
Proof.
  intros Hperm Hsorted Hkube Hdev Hjx Hlist targets.
  assert (Hrun : PromoteAllAutomatic fuel s
                 = prepend ([EvKubeClient; EvGetDevNamespace currentNs; EvJXClient;
                             EvListEnvironments team]
                            ++ match envs with
                               | [] => [EvLog Warn
                                          ("No Environments have been created yet in team "
                                           ++ team
                                           ++ ". Please create some via 'jx create env'"
                                           ++ nl)]
                               | _ => []
                               end)%list
                     (promoteSequentially (promoteOne fuel) targets (mkState (opts s) w4)));
    [|split; [exact Hrun|split; [|split]]].
  - unfold PromoteAllAutomatic.
    step_call Hkube. step_call Hdev. step_call Hjx. step_call Hlist.
    destruct envs as [|e0 envs].
    + apply Permutation_nil_r in Hperm. unfold targets. rewrite Hperm. reflexivity.
    + rewrite bool_decide_eq_false_2 by (simpl; lia).
      rewrite promoteEach_filter. fold targets.
      rewrite !prepend_prepend. reflexivity.
  - apply StronglySorted_filter.
    apply (sorting.Sorted_StronglySorted byOrder), Hsorted.
  - intros e. unfold targets.
    rewrite list_elem_of_In, filter_In, <- list_elem_of_In, Hperm. tauto.
  - intros promoted env' rest e s' t s'' t' Htargets Hpromoted Hfails.
    rewrite Hrun, Htargets.
    rewrite (promoteSequentially_stops _ _ _ _ _ _ _ _ Hpromoted _ _ Hfails).
    destruct envs as [|e0 envs]; [|reflexivity].
    apply Permutation_nil_r in Hperm. unfold targets in Htargets.
    rewrite Hperm in Htargets. by destruct promoted.
Qed.

End Sweep.

(** The theorem of C3 on three environments: "production" (manual),
    "staging" (automatic, order 100) and "canary" (automatic, order 50),
    sorted by merge sort. *)
Lemma PromoteAllAutomatic_sweep_witness :
  let staging := Scripted.environment "staging" "jx-staging" PromotionStrategyTypeAutomatic
                   EnvironmentKindTypePermanent "" 100 in
  let production := Scripted.environment "production" "jx-production"
                      PromotionStrategyTypeManual EnvironmentKindTypePermanent "" 200 in
  let canary := Scripted.environment "canary" "jx-canary" PromotionStrategyTypeAutomatic
                  EnvironmentKindTypePermanent "" 50 in
  let envs := [production; staging; canary] in
  let s := Scripted.start (Scripted.quiet envs []) in
  List.filter isTarget (SortEnvironments envs) = [canary; staging]
  /\ PromoteAllAutomatic 2 s
     = prepend [EvKubeClient; EvGetDevNamespace "jx"; EvJXClient; EvListEnvironments "jx"]
         (promoteSequentially (promoteOne 2) [canary; staging] s)
  /\ StronglySorted byOrder [canary; staging].
Proof.
  intros staging production canary envs s.
  assert (Htargets : List.filter isTarget (SortEnvironments envs) = [canary; staging])
    by (vm_compute; reflexivity).
  split; [exact Htargets|].
  assert (Hperm : SortEnvironments (W:=Scripted.World) envs ≡ₚ envs)
    by apply merge_sort_Permutation.
  assert (Hsort : Sorted byOrder (SortEnvironments (W:=Scripted.World) envs))
    by apply (Sorted_merge_sort byOrder).
  destruct (PromoteAllAutomatic_sweep 2 s "jx" (world s) "jx" (world s) (world s) envs
              (world s) Hperm Hsort eq_refl eq_refl eq_refl eq_refl)
    as (Hrun & Hsorted & _ & _).
  rewrite Htargets in Hrun, Hsorted. split; [exact Hrun|exact Hsorted].
Defined.

(* ===================================================================== *)
(** * The merge-status poller *)

Section PollerLemmas.
Context {W : Type} `{!Services W}.
Variables (ns : string) (env : Environment).
Variables (end_ duration : Z) (promoteKey : PromoteStepActivityKey).

Local Abbreviation pollLoop' := (pollLoop ns env end_ duration promoteKey).
Local Abbreviation pollIteration' := (pollIteration ns env end_ duration promoteKey).
Local Abbreviation rounds' := (rounds ns env end_ duration promoteKey).

Lemma pollLoop_S fuel st (s : State W) :
  pollLoop' (S fuel) st s
  = (pollIteration' st
     ≫= λ r, match r with Return e => mret e | Next st' => pollLoop' fuel st' end) s.
Proof. reflexivity. Qed.

(** After [k] completed rounds the loop goes on from where they end. *)
Lemma pollLoop_rounds k st (s : State W) st' s' t :
  rounds' k st s st' s' t ->
  forall fuel, pollLoop' (k + fuel) st s = prepend t (pollLoop' fuel st' s').
Proof.
  induction 1 as [st s|k st s st1 s1 t1 st2 s2 t2 Hstep _ IH]; intros fuel.
  - by rewrite prepend_nil.
  - change (S k + fuel)%nat with (S (k + fuel)). rewrite pollLoop_S.
    rewrite (bind_Ret _ _ _ _ _ _ Hstep). cbv beta iota.
    by rewrite IH, prepend_prepend.
Qed.

(** A round that returns ends the loop with its result. *)
Lemma pollLoop_returns k st0 (s0 : State W) st s t0 r s' t :
  rounds' k st0 s0 st s t0 ->
  pollIteration' st s = Ret (Return r) s' t ->
  forall fuel, pollLoop' (k + S fuel) st0 s0 = Ret r s' (t0 ++ t).
Proof.
  intros Hrounds Hstep fuel.
  rewrite (pollLoop_rounds _ _ _ _ _ _ Hrounds), pollLoop_S.
  rewrite (bind_Ret _ _ _ _ _ _ Hstep). simpl. by rewrite app_nil_r.
Qed.

(** A round in which the refresh and the branches return ends there. *)
Lemma pollIteration_status_returns st (s : State W) r s' t :
  pollStatus ns env promoteKey st s = Ret (Return r) s' t ->
  pollIteration' st s = Ret (Return r) s' t.
Proof.
  intros Hstatus. unfold pollIteration.
  rewrite (bind_Ret _ _ _ _ _ _ Hstatus). simpl. by rewrite app_nil_r.
Qed.

(** The refresh fails. *)
Lemma pollStatus_refresh_failure st (s : State W) info pr e w1 :
  pullRequestInfo st = Some info ->
  UpdatePullRequestStatus (pri_GitProvider info) (pri_PullRequest info) (world s)
  = ((pr, Some e), w1) ->
  pollStatus ns env promoteKey st s
  = Ret (Return (Some ("Failed to query the Pull Request status for " ++ pr_URL pr
                       ++ " " ++ e)))
        (mkState (opts s) w1) [EvUpdatePullRequestStatus (pr_URL (pri_PullRequest info))].
Proof.
  intros Hinfo Hrefresh. unfold pollStatus. rewrite Hinfo.
  step_call Hrefresh. reflexivity.
Qed.

(** C2.  In whatever round of the poll loop the refresh of the pull
    request fails, the loop ends there: the poller returns the error
    "Failed to query the Pull Request status for <url> <error>", and the
    refresh is the last call it makes; nothing is retried, where the
    specification has the failure reported and the refresh retried in
    the next round. *)
Theorem pollLoop_refresh_failure_is_terminal k st0 (s0 : State W) st s t0 info pr e w1 :
  rounds' k st0 s0 st s t0 ->
  pullRequestInfo st = Some info ->
  UpdatePullRequestStatus (pri_GitProvider info) (pri_PullRequest info) (world s)
  = ((pr, Some e), w1) ->
  forall fuel,
    pollLoop' (k + S fuel) st0 s0
    = Ret (Some ("Failed to query the Pull Request status for " ++ pr_URL pr ++ " " ++ e))
          (mkState (opts s) w1)
          (t0 ++ [EvUpdatePullRequestStatus (pr_URL (pri_PullRequest info))]).
Proof.
  intros Hrounds Hinfo Hrefresh fuel.
  eapply pollLoop_returns; [exact Hrounds|].
  by apply pollIteration_status_returns, pollStatus_refresh_failure.
Qed.

End PollerLemmas.

(** The theorem of C2 in a run whose first round finds the pull request
    open with a build in progress and whose second refresh fails. *)
Lemma pollLoop_refresh_failure_is_terminal_witness :
  let c := Scripted.quiet [] [] in
  let st0 := initialPollState (Scripted.tracked Scripted.openPR) in
  let s0 := Scripted.at_ c 0 [(Scripted.openPR, None);
                              (Scripted.openPR, Some "connection refused")] [] in
  let s1 := Scripted.at_ c 20000000000 [(Scripted.openPR, Some "connection refused")] [] in
  let t1 := [EvUpdatePullRequestStatus "http://pr/1";
             EvPullRequestLastCommitStatus "http://pr/1";
             EvLog Info "The build for the Pull Request last commit is currently in progress.";
             EvSleep 20000000000] in
  rounds "jx-staging" Scripted.staging Scripted.hour Scripted.hour Scripted.promoteKey
    1 st0 s0 st0 s1 t1
  /\ pollLoop "jx-staging" Scripted.staging Scripted.hour Scripted.hour Scripted.promoteKey
       3 st0 s0
     = Ret (Some "Failed to query the Pull Request status for http://pr/1 connection refused")
           (Scripted.at_ c 20000000000 [] [])
           (t1 ++ [EvUpdatePullRequestStatus "http://pr/1"]).
Proof.
  intros c st0 s0 s1 t1.
  assert (Hstep : pollIteration "jx-staging" Scripted.staging Scripted.hour Scripted.hour
                    Scripted.promoteKey st0 s0 = Ret (Next st0) s1 t1)
    by (vm_compute; reflexivity).
  assert (Hrounds : rounds "jx-staging" Scripted.staging Scripted.hour Scripted.hour
                      Scripted.promoteKey 1 st0 s0 st0 s1 t1)
    by exact (rounds_S _ _ _ _ _ 0 st0 s0 st0 s1 t1 st0 s1 [] Hstep
                (rounds_O _ _ _ _ _ st0 s1)).
  split; [exact Hrounds|].
  exact (pollLoop_refresh_failure_is_terminal "jx-staging" Scripted.staging Scripted.hour
           Scripted.hour Scripted.promoteKey 1 st0 s0 st0 s1 t1
           {| pri_GitProvider := Scripted.provider; pri_PullRequest := Scripted.openPR |}
           Scripted.openPR "connection refused" (world (Scripted.at_ c 20000000000 [] []))
           Hrounds eq_refl eq_refl 1).
Defined.

(** C2 as stated fails when the very first refresh fails: with an hour
    left before the deadline, [WaitForPromotion] makes that one call to
    the provider, returns the error and records the pull-request step as
    failed; there is no second round. *)
Lemma WaitForPromotion_refresh_failure_counterexample :
  let c := Scripted.quiet [] [] in
  let s0 := Scripted.at_ c 0 [(Scripted.openPR, Some "connection refused")] [] in
  WaitForPromotion 5 "jx-staging" Scripted.staging
    (Some (Scripted.tracked Scripted.openPR)) s0
  = Ret (Some "Failed to query the Pull Request status for http://pr/1 connection refused")
        (Scripted.at_ c 0 [] [])
        [EvCreatePromoteKey "staging"; EvUpdatePullRequestStatus "http://pr/1";
         EvOnPromotePullRequest Scripted.promoteKey FailedPromotionPullRequest].
Proof. vm_compute. reflexivity. Qed.

Section MergeStatuses.
Context {W : Type} `{!Services W}.
Variables (ns : string) (env : Environment).
Variables (end_ duration : Z) (promoteKey : PromoteStepActivityKey).

(** A status that is not failed only moves the two maps and logs. *)
Lemma statuses_body_recordStatus st status (s : State W) :
  IsFailed status = false ->
  exists t,
    statuses_body st status s = Ret (Next (recordStatus st status)) s t
    /\ forallb isLog t = true.
Proof.
  intros Hok. unfold statuses_body, recordStatus. rewrite Hok.
  destruct (bool_decide (mapGet (urlStatusMap st) (st_URL status) = "")
            || bool_decide (mapGet (urlStatusMap st) (st_URL status) ≠ gitStatusSuccess));
    [|by eexists].
  destruct (bool_decide (mapGet (urlStatusMap st) (st_URL status) ≠ st_State status));
    by eexists.
Qed.

(** The loop over the statuses returns at the first failed status. *)
Lemma statuses_loop_failed statuses : forall st (s : State W) failed,
  List.find IsFailed statuses = Some failed ->
  exists t,
    forRangeFlow statuses_body statuses st s = Ret (Return (Some (failedStatusError failed))) s t
    /\ forallb isLog t = true.
Proof.
  induction statuses as [|x rest IH]; intros st s failed Hfind; [done|].
  simpl in Hfind.
  change (forRangeFlow (W:=W) statuses_body (x :: rest) st)
    with (statuses_body (W:=W) st x
          ≫= λ r, match r with
                  | Return v => mret (Return v)
                  | Next acc' => forRangeFlow statuses_body rest acc'
                  end).
  destruct (IsFailed x) eqn:Hx.
  - injection Hfind as ->. eexists.
    unfold statuses_body. rewrite Hx. split; [reflexivity|done].
  - destruct (statuses_body_recordStatus st x s Hx) as (t1 & Hbody & Hlog1).
    destruct (IH (recordStatus st x) s failed Hfind) as (t2 & Hrest & Hlog2).
    exists (t1 ++ t2)%list. rewrite (bind_Ret _ _ _ _ _ _ Hbody). cbv beta iota.
    rewrite Hrest. split; [reflexivity|]. by rewrite forallb_app, Hlog1, Hlog2.
Qed.

(** The merged branch up to the answer of [ListCommitStatus]: the
    completion of the pull-request step in the ledger, the first time
    only, and the start of the update step. *)
Lemma mergedBranch_prologue gitProvider pr st (s : State W) mergeSha :
  pr_MergeCommitSHA pr = Some mergeSha ->
  let w2 := if logHasMergeSha st then world s
            else (OnPromotePullRequest promoteKey (mergedPR mergeSha) (world s)).2 in
  let w3 := (OnPromoteUpdate promoteKey StartPromotionUpdate w2).2 in
  let st1 := if logHasMergeSha st then st else set_logHasMergeSha st in
  forall statuses err w4,
    ListCommitStatus gitProvider (pr_Owner pr) (pr_Repo pr) mergeSha w3
    = ((statuses, err), w4) ->
    exists t,
      mergedBranch ns env promoteKey gitProvider pr st s
      = prepend t (checkMergeStatuses ns env promoteKey pr mergeSha st1 statuses err
                     (mkState (opts s) w4))
      /\ forallb (negb ∘ isCompleteUpdate) t = true
      /\ count_occ_b isCompletePullRequest t = (if logHasMergeSha st then 0 else 1)%nat.
Proof.
  intros Hsha w2 w3 st1 statuses err w4 Hlist. subst w2 w3 st1.
  unfold mergedBranch. rewrite Hsha.
  destruct (logHasMergeSha st); simpl negb; cbv iota.
  - destruct (OnPromoteUpdate promoteKey StartPromotionUpdate (world s)) as [r3 w3] eqn:H3.
    simpl in Hlist.
    eexists. rewrite bind_mret.
    step_call H3. step_call Hlist. rewrite prepend_prepend. split; [reflexivity|]. done.
  - destruct (OnPromotePullRequest promoteKey (mergedPR mergeSha) (world s)) as [r2 w2] eqn:H2.
    simpl in Hlist.
    destruct (OnPromoteUpdate promoteKey StartPromotionUpdate w2) as [r3 w3] eqn:H3.
    simpl in Hlist.
    eexists. rewrite bind_assoc. erewrite bind_Ret by reflexivity. cbv beta iota.
    rewrite bind_assoc. step_call H2. rewrite bind_mret.
    step_call H3. step_call Hlist. rewrite !prepend_prepend. split; [reflexivity|]. done.
Qed.

(** A merged round up to the answer of [ListCommitStatus]. *)
Lemma pollStatus_merged st (s : State W) info pr mergeSha statuses w4 :
  mergedWithStatuses promoteKey st s info pr mergeSha statuses w4 ->
  exists t,
    pollStatus ns env promoteKey st s
    = prepend t
        ((r ← checkMergeStatuses ns env promoteKey pr mergeSha (afterMergeSha st info pr)
                statuses None;
          match r with
          | Return e => mret (Return e)
          | Next st' => mret (Next (pr, st'))
          end) (mkState (opts s) w4))
    /\ forallb (negb ∘ isCompleteUpdate) t = true
    /\ count_occ_b isCompletePullRequest t = (if logHasMergeSha st then 0 else 1)%nat.
Proof.
  intros (Hinfo & w1 & Hrefresh & Hmerged & Hsha & Hlist).
  destruct (mergedBranch_prologue (pri_GitProvider info) pr (set_PullRequest info pr st)
              (mkState (opts s) w1) mergeSha Hsha statuses None w4 Hlist)
    as (t & Hrun & Hnone & Hcount).
  exists (EvUpdatePullRequestStatus (pr_URL (pri_PullRequest info)) :: t).
  split; [|split; [exact Hnone|exact Hcount]].
  change (if logHasMergeSha (set_PullRequest info pr st)
          then set_PullRequest info pr st
          else set_logHasMergeSha (set_PullRequest info pr st))
    with (afterMergeSha st info pr) in Hrun.
  unfold pollStatus. rewrite Hinfo. step_call Hrefresh.
  rewrite (bool_decide_eq_true_2 _ Hmerged).
  unfold mbind, M_bind, bind. rewrite Hrun.
  destruct (checkMergeStatuses _ _ _ _ _ _ _ _ _) as [[e|st'] s' t'| |];
    simpl; by rewrite ?app_nil_r.
Qed.

(** C4, as amended.  In whatever round of the poll loop the pull request
    is merged with a merge-commit sha and the listing of the commit
    statuses of that sha contains a failed status (state [failure] or
    [error]), the poller returns, whatever the other statuses are, the
    error "Status: <state> URL: <target-url> description: <description>"
    of the first failed status of the list; that round makes no
    transition that completes the update step. *)
Theorem pollLoop_failed_status_is_terminal k st0 (s0 : State W) st s t0
    info pr mergeSha statuses w4 failed :
  rounds ns env end_ duration promoteKey k st0 s0 st s t0 ->
  mergedWithStatuses promoteKey st s info pr mergeSha statuses w4 ->
  List.find IsFailed statuses = Some failed ->
  forall fuel, exists t,
    pollLoop ns env end_ duration promoteKey (k + S fuel) st0 s0
    = Ret (Some (failedStatusError failed)) (mkState (opts s) w4) (t0 ++ t)
    /\ forallb (negb ∘ isCompleteUpdate) t = true.
Proof.
  intros Hrounds Hround Hfind fuel.
  destruct (pollStatus_merged st s info pr mergeSha statuses w4 Hround)
    as (t1 & Hstatus & Hnone & _).
  destruct (statuses_loop_failed statuses (afterMergeSha st info pr)
              (mkState (opts s) w4) failed Hfind) as (t2 & Hloop & Hlog).
  exists (t1 ++ t2 ++ [])%list. split.
  - eapply pollLoop_returns; [exact Hrounds|].
    apply pollIteration_status_returns. rewrite Hstatus.
    unfold checkMergeStatuses.
    rewrite bool_decide_eq_false_2 by (destruct statuses; [done|simpl; lia]).
    rewrite bind_assoc, (bind_Ret _ _ _ _ _ _ Hloop). cbv beta iota.
    rewrite !bind_mret. reflexivity.
  - rewrite !forallb_app, Hnone. simpl. rewrite andb_true_r.
    clear -Hlog. induction t2 as [|e t2 IH]; [done|].
    simpl in *. apply andb_true_iff in Hlog as [He Ht]. rewrite (IH Ht).
    by destruct e.
Qed.

End MergeStatuses.

(** The theorem of C4 on a listing with a passed, a failed and a pending
    status, in that order. *)
Lemma pollLoop_failed_status_is_terminal_witness :
  let c := Scripted.quiet [] [] in
  let statuses := [Scripted.status "lint" "success"; Scripted.failedTests;
                   Scripted.status "deploy" "pending"] in
  let st0 := initialPollState (Scripted.tracked Scripted.openPR) in
  let s0 := Scripted.at_ c 0 [(Scripted.merged, None)] [(statuses, None)] in
  List.find IsFailed statuses = Some Scripted.failedTests
  /\ exists t,
       pollLoop "jx-staging" Scripted.staging Scripted.hour Scripted.hour
         Scripted.promoteKey 1 st0 s0
       = Ret (Some (failedStatusError Scripted.failedTests)) (Scripted.at_ c 0 [] []) t
       /\ forallb (negb ∘ isCompleteUpdate) t = true.
Proof.
  intros c statuses st0 s0.
  assert (Hfind : List.find IsFailed statuses = Some Scripted.failedTests) by reflexivity.
  assert (Hround : mergedWithStatuses Scripted.promoteKey st0 s0
                     {| pri_GitProvider := Scripted.provider;
                        pri_PullRequest := Scripted.openPR |}
                     Scripted.merged "abc123" statuses (world (Scripted.at_ c 0 [] []))).
  { split; [reflexivity|].
    exists (world (Scripted.at_ c 0 [] [(statuses, None)])).
    repeat split; reflexivity. }
  split; [exact Hfind|].
  exact (pollLoop_failed_status_is_terminal "jx-staging" Scripted.staging Scripted.hour
           Scripted.hour Scripted.promoteKey 0 st0 s0 st0 s0 [] _ _ _ _ _ _
           (rounds_O _ _ _ _ _ st0 s0) Hround Hfind 0).
Defined.

(** C4 as stated fails on a merged pull request whose only status is
    failed: the error the poller returns names the state, the target URL
    and the description of that status; it contains neither the merge
    sha nor the context URL of the status. *)
Lemma WaitForPromotion_failed_status_counterexample :
  let c := Scripted.quiet [] [] in
  let s0 := Scripted.at_ c 0 [(Scripted.merged, None)] [([Scripted.failedTests], None)] in
  let msg := "Status: failure URL: http://ci/job/7 description: tests failed" ++ nl in
  pr_MergeCommitSHA Scripted.merged = Some "abc123"
  /\ (exists s' t,
        WaitForPromotion 5 "jx-staging" Scripted.staging
          (Some (Scripted.tracked Scripted.openPR)) s0
        = Ret (Some msg) s' t)
  /\ strings_Contains msg "abc123" = false
  /\ strings_Contains msg (st_URL Scripted.failedTests) = false.
Proof.
  intros c s0 msg. split; [reflexivity|]. split.
  - eexists _, _. vm_compute. reflexivity.
  - split; vm_compute; reflexivity.
Qed.

Section MergeSuccess.
Context {W : Type} `{!Services W}.
Variables (ns : string) (env : Environment).
Variables (end_ duration : Z) (promoteKey : PromoteStepActivityKey).

(** Without a failed status the loop over the statuses records them all. *)
Lemma statuses_loop_recorded statuses : forall st (s : State W),
  forallb (negb ∘ IsFailed) statuses = true ->
  exists t,
    forRangeFlow statuses_body statuses st s
    = Ret (Next (fold_left recordStatus statuses st)) s t
    /\ forallb isLog t = true.
Proof.
  induction statuses as [|x rest IH]; intros st s Hok; [by exists []|].
  simpl in Hok. apply andb_true_iff in Hok as [Hx Hrest].
  apply negb_true_iff in Hx.
  change (forRangeFlow (W:=W) statuses_body (x :: rest) st)
    with (statuses_body (W:=W) st x
          ≫= λ r, match r with
                  | Return v => mret (Return v)
                  | Next acc' => forRangeFlow statuses_body rest acc'
                  end).
  destruct (statuses_body_recordStatus st x s Hx) as (t1 & Hbody & Hlog1).
  destruct (IH (recordStatus st x) s Hrest) as (t2 & Hloop & Hlog2).
  exists (t1 ++ t2)%list. rewrite (bind_Ret _ _ _ _ _ _ Hbody). cbv beta iota.
  rewrite Hloop. split; [reflexivity|]. by rewrite forallb_app, Hlog1, Hlog2.
Qed.

Lemma forallb_isLog_no_complete t :
  forallb isLog t = true ->
  forallb (negb ∘ isCompleteUpdate) t = true /\ count_occ_b isCompleteUpdate t = 0%nat.
Proof.
  unfold count_occ_b. induction t as [|e t IH]; [done|]. simpl.
  intros [He Ht]%andb_true_iff. destruct (IH Ht) as [IH1 IH2].
  destruct e; try done; simpl; by rewrite ?IH1, ?IH2.
Qed.

(** A merged round whose statuses are all recorded as [success], up to
    the call of the issue notifier. *)
Lemma pollStatus_all_success st (s : State W) info pr mergeSha statuses w4 r5 w5 :
  mergedWithStatuses promoteKey st s info pr mergeSha statuses w4 ->
  statuses <> [] ->
  forallb (negb ∘ IsFailed) statuses = true ->
  let st' := fold_left recordStatus statuses (afterMergeSha st info pr) in
  succeeded st' = true ->
  OnPromoteUpdate promoteKey (updateStatuses (prStatuses st')) w4 = (r5, w5) ->
  exists t,
    pollStatus ns env promoteKey st s
    = prepend t
        ((err ← commentOnIssues ns env promoteKey;
          r ← match err with
              | None =>
                  err ← call (EvOnPromoteUpdate promoteKey CompletePromotionUpdate)
                             (OnPromoteUpdate promoteKey CompletePromotionUpdate);
                  mret (Return err)
              | Some e => mret (Return (Some e))
              end;
          match r with
          | Return e => mret (Return e)
          | Next st'' => mret (Next (pr, st''))
          end : M W (Flow (option error) (GitPullRequest * PollState W)))
           (mkState (opts s) w5))
    /\ forallb (negb ∘ isCompleteUpdate) t = true
    /\ count_occ_b isCompletePullRequest t = (if logHasMergeSha st then 0 else 1)%nat.
Proof.
  intros Hround Hne Hok st' Hsucc Hupd.
  destruct (pollStatus_merged ns env promoteKey st s info pr mergeSha statuses w4 Hround)
    as (t1 & Hstatus & Hnone & Hcount).
  destruct (statuses_loop_recorded statuses (afterMergeSha st info pr)
              (mkState (opts s) w4) Hok) as (t2 & Hloop & Hlog).
  fold st' in Hloop.
  exists (t1 ++ t2 ++ [EvOnPromoteUpdate promoteKey (updateStatuses (prStatuses st'));
                      EvLog Info "Merge status checks all passed so the promotion worked!"])%list.
  split; [|split].
  - rewrite Hstatus. unfold checkMergeStatuses.
    rewrite bool_decide_eq_false_2 by (destruct statuses; [done|simpl; lia]).
    rewrite bind_assoc, (bind_Ret _ _ _ _ _ _ Hloop). cbv beta iota.
    rewrite bind_assoc. step_call Hupd. rewrite Hsucc.
    rewrite !bind_assoc. erewrite bind_Ret by reflexivity. cbv beta iota.
    rewrite bind_assoc. rewrite !prepend_prepend. f_equal.
    by rewrite <- !app_assoc.
  - destruct (forallb_isLog_no_complete t2 Hlog) as [H2 _].
    rewrite !forallb_app, Hnone, H2. reflexivity.
  - unfold count_occ_b in *. rewrite !List.filter_app, !length_app, Hcount.
    assert (H2 : length (List.filter isCompletePullRequest t2) = 0%nat).
    { clear -Hlog. induction t2 as [|e t2 IH]; [done|]. simpl in *.
      apply andb_true_iff in Hlog as [He Ht]. destruct e; try done. simpl. by apply IH. }
    rewrite H2. simpl. lia.
Qed.

End MergeSuccess.

Section MergeOutcome.
Context {W : Type} `{!Services W}.
Variables (ns : string) (env : Environment).
Variables (end_ duration : Z) (promoteKey : PromoteStepActivityKey).

(** The issue notifier leaves the options alone and makes no ledger
    transition. *)
Lemma commentOnIssues_quiet targetNS environment (s : State W) r s' t :
  commentOnIssues targetNS environment promoteKey s = Ret r s' t ->
  opts s' = opts s
  /\ count_occ_b isCompleteUpdate t = 0%nat
  /\ count_occ_b isCompletePullRequest t = 0%nat.
Proof.
  unfold commentOnIssues. go.
  repeat (first [ case_bool_decide
                | match goal with
                  | |- context [match ?f (world ?x) with _ => _ end] =>
                      destruct (f (world x)) eqn:?
                  | |- context [match ?f ?a (world ?x) with _ => _ end] =>
                      destruct (f a (world x)) eqn:?
                  | |- context [match ?f ?a ?b (world ?x) with _ => _ end] =>
                      destruct (f a b (world x)) eqn:?
                  | |- context [match ?f ?a ?b ?c ?d ?e (world ?x) with _ => _ end] =>
                      destruct (f a b c d e (world x)) eqn:?
                  | |- context [let '(_, _) := ?p in _] => destruct p
                  | |- context [match ?o with Some _ => _ | None => _ end] => destruct o
                  end ]; simpl);
    intros [= <- <- <-]; done.
Qed.

(** The success path, when the issue notifier returns no error: the
    poller returns what the ledger answers to the completion of the
    update step, and the round makes that transition exactly once and the
    completion of the pull-request step at most once (once when no
    earlier round made it). *)
Lemma pollLoop_merge_success k st0 (s0 : State W) st s t0
    info pr mergeSha statuses w4 r5 w5 s6 t6 r w7 :
  rounds ns env end_ duration promoteKey k st0 s0 st s t0 ->
  mergedWithStatuses promoteKey st s info pr mergeSha statuses w4 ->
  statuses <> [] ->
  forallb (negb ∘ IsFailed) statuses = true ->
  let st' := fold_left recordStatus statuses (afterMergeSha st info pr) in
  succeeded st' = true ->
  OnPromoteUpdate promoteKey (updateStatuses (prStatuses st')) w4 = (r5, w5) ->
  commentOnIssues ns env promoteKey (mkState (opts s) w5) = Ret None s6 t6 ->
  OnPromoteUpdate promoteKey CompletePromotionUpdate (world s6) = (r, w7) ->
  forall fuel, exists t,
    pollLoop ns env end_ duration promoteKey (k + S fuel) st0 s0
    = Ret r (mkState (opts s) w7) (t0 ++ t)
    /\ count_occ_b isCompleteUpdate t = 1%nat
    /\ count_occ_b isCompletePullRequest t = (if logHasMergeSha st then 0 else 1)%nat.
Proof.
  intros Hrounds Hround Hne Hok st' Hsucc Hupd Hcomment Hcomplete fuel.
  destruct (pollStatus_all_success ns env promoteKey st s info pr mergeSha statuses w4 r5 w5
              Hround Hne Hok Hsucc Hupd) as (t1 & Hstatus & Hnone & Hcount).
  destruct (commentOnIssues_quiet _ _ _ _ _ _ Hcomment) as (Hopts & Hc1 & Hc2).
  simpl in Hopts.
  exists (t1 ++ t6 ++ [EvOnPromoteUpdate promoteKey CompletePromotionUpdate])%list.
  split; [|split].
  - eapply pollLoop_returns; [exact Hrounds|].
    apply pollIteration_status_returns. rewrite Hstatus.
    rewrite (bind_Ret _ _ _ _ _ _ Hcomment). cbv beta iota.
    rewrite bind_assoc. step_call Hcomplete.
    rewrite !bind_mret. simpl. by rewrite Hopts.
  - unfold count_occ_b in *. rewrite !List.filter_app, !length_app, Hc1.
    assert (H1 : length (List.filter isCompleteUpdate t1) = 0%nat).
    { clear -Hnone. induction t1 as [|e t1 IH]; [done|]. simpl in *.
      apply andb_true_iff in Hnone as [He Ht].
      destruct (isCompleteUpdate e); [done|]. by apply IH. }
    by rewrite H1.
  - unfold count_occ_b in *. rewrite !List.filter_app, !length_app, Hcount, Hc2.
    simpl. lia.
Qed.

(** The same round when the issue notifier returns an error: the poller
    returns that error, and the completion of the update step is never
    asked of the ledger. *)
Lemma pollLoop_merge_success_notifier_error k st0 (s0 : State W) st s t0
    info pr mergeSha statuses w4 r5 w5 e s6 t6 :
  rounds ns env end_ duration promoteKey k st0 s0 st s t0 ->
  mergedWithStatuses promoteKey st s info pr mergeSha statuses w4 ->
  statuses <> [] ->
  forallb (negb ∘ IsFailed) statuses = true ->
  let st' := fold_left recordStatus statuses (afterMergeSha st info pr) in
  succeeded st' = true ->
  OnPromoteUpdate promoteKey (updateStatuses (prStatuses st')) w4 = (r5, w5) ->
  commentOnIssues ns env promoteKey (mkState (opts s) w5) = Ret (Some e) s6 t6 ->
  forall fuel, exists t,
    pollLoop ns env end_ duration promoteKey (k + S fuel) st0 s0
    = Ret (Some e) s6 (t0 ++ t)
    /\ count_occ_b isCompleteUpdate t = 0%nat.
Proof.
  intros Hrounds Hround Hne Hok st' Hsucc Hupd Hcomment fuel.
  destruct (pollStatus_all_success ns env promoteKey st s info pr mergeSha statuses w4 r5 w5
              Hround Hne Hok Hsucc Hupd) as (t1 & Hstatus & Hnone & Hcount).
  destruct (commentOnIssues_quiet _ _ _ _ _ _ Hcomment) as (Hopts & Hc1 & Hc2).
  exists (t1 ++ t6)%list. split.
  - eapply pollLoop_returns; [exact Hrounds|].
    apply pollIteration_status_returns. rewrite Hstatus.
    rewrite (bind_Ret _ _ _ _ _ _ Hcomment). cbv beta iota.
    rewrite !bind_mret. simpl. by rewrite !app_nil_r.
  - unfold count_occ_b in *. rewrite !List.filter_app, !length_app, Hc1.
    assert (H1 : length (List.filter isCompleteUpdate t1) = 0%nat).
    { clear -Hnone. induction t1 as [|e' t1 IH]; [done|]. simpl in *.
      apply andb_true_iff in Hnone as [He Ht].
      destruct (isCompleteUpdate e'); [done|]. by apply IH. }
    by rewrite H1.
Qed.

End MergeOutcome.

(** C5.  A pull request merged at "abc123" whose two commit statuses
    both report [success], in a world where the issue notifier cannot
    create its Git credentials service: [WaitForPromotion] returns the
    notifier's error, the completion of the update step is never sent to
    the ledger, and the pull-request step, completed a moment before, is
    recorded as failed.  On the direct path, in the same world,
    [Promote] logs the notifier's error as a warning, completes the
    update step and returns no error. *)
Theorem WaitForPromotion_notifier_error_fails_merged_promotion :
  let c := Scripted.notifierDown in
  let key := Scripted.promoteKey in
  let statuses := [Scripted.status "lint" "success"; Scripted.status "deploy" "success"] in
  let s0 := Scripted.at_ c 0 [(Scripted.merged, None)] [(statuses, None)] in
  WaitForPromotion 5 "jx-staging" Scripted.staging
    (Some (Scripted.tracked Scripted.openPR)) s0
  = Ret (Some "no git credentials") (Scripted.at_ c 0 [] [])
        [EvCreatePromoteKey "staging";
         EvUpdatePullRequestStatus "http://pr/1";
         EvLog Info ("Pull Request http://pr/1 is merged at sha abc123" ++ nl);
         EvOnPromotePullRequest key (mergedPR "abc123");
         EvOnPromoteUpdate key StartPromotionUpdate;
         EvListCommitStatus "acme" "env-staging" "abc123";
         EvLog Info ("merge status: success for URL lint with target: http://ci/lint"
                     ++ " description: build" ++ nl);
         EvLog Info ("merge status: success for URL deploy with target: http://ci/deploy"
                     ++ " description: build" ++ nl);
         EvOnPromoteUpdate key
           (updateStatuses [{| gs_URL := "http://ci/deploy"; gs_Status := "success" |};
                            {| gs_URL := "http://ci/lint"; gs_Status := "success" |}]);
         EvLog Info "Merge status checks all passed so the promotion worked!";
         EvCreateGitAuthConfigService;
         EvOnPromotePullRequest key FailedPromotionPullRequest]
  /\ (exists ri s' t,
        Promote "jx-production" Scripted.production false (Scripted.start c)
        = Ret (Some ri, None) s' t
        /\ count_occ_b isCompleteUpdate t = 1%nat
        /\ EvLog Warn ("Failed to comment on issues for release jx-production-myapp: "
                       ++ "no git credentials" ++ nl) ∈ t).
Proof.
  intros c key statuses s0. split.
  - vm_compute. reflexivity.
  - eexists _, _, _. split; [vm_compute; reflexivity|]. split; [reflexivity|].
    occurs.
Qed.

(* ===================================================================== *)
(** * The deadline *)

Section Deadline.
Context {W : Type} `{!Services W}.

(** A round that reaches its deadline check after the deadline. *)
Lemma pollIteration_timeout ns env end_ duration promoteKey st (s : State W)
    pr st1 s1 t1 st2 s2 t2 now w3 :
  pollStatus ns env promoteKey st s = Ret (Next (pr, st1)) s1 t1 ->
  rebaseOnConflict env pr st1 s1 = Ret st2 s2 t2 ->
  time_Now (world s2) = (now, w3) ->
  end_ < now ->
  pollIteration ns env end_ duration promoteKey st s
  = Ret (Return (Some ("Timed out waiting for pull request " ++ pr_URL pr
                       ++ " to merge. Waited " ++ Duration_String duration)))
        (mkState (opts s2) w3) (t1 ++ t2).
Proof.
  intros Hstatus Hrebase Hnow Hlate. unfold pollIteration.
  rewrite (bind_Ret _ _ _ _ _ _ Hstatus). cbv beta iota.
  rewrite (bind_Ret _ _ _ _ _ _ Hrebase). cbv beta.
  unfold deadlineCheck.
  erewrite bind_Ret by (unfold timeNow; rewrite Hnow; reflexivity). cbv beta.
  apply Z.ltb_lt in Hlate. rewrite Hlate. simpl. by rewrite !app_nil_r.
Qed.

(** C7, as amended.  [WaitForPromotion] reads the clock once, at entry,
    and every round of the poll loop checks the same deadline, that
    reading plus the configured timeout, at its end.  If, after any
    number of rounds, a round reaches its deadline check (the refresh
    and the branches did not end the poll) when the clock is past that
    deadline, then
    [WaitForPromotion] returns the error "Timed out waiting for pull
    request <url> to merge. Waited <timeout>", and after that check its
    only action is to record the pull-request step as failed. *)
Theorem WaitForPromotion_times_out ns env (ri : ReleaseInfo W) (s : State W)
    timeout poll info now w1 promoteKey w2 k st sk t0 pr st1 s1 t1 st2 s2 t2 now' w3 :
  o_TimeoutDuration (opts s) = Some timeout ->
  o_PullRequestPollDuration (opts s) = Some poll ->
  ri_PullRequestInfo ri = Some info ->
  time_Now (world s) = (now, w1) ->
  createPromoteKey (opts s) env w1 = (promoteKey, w2) ->
  rounds ns env (now + timeout) timeout promoteKey k
    (initialPollState ri) (mkState (opts s) w2) st sk t0 ->
  pollStatus ns env promoteKey st sk = Ret (Next (pr, st1)) s1 t1 ->
  rebaseOnConflict env pr st1 s1 = Ret st2 s2 t2 ->
  time_Now (world s2) = (now', w3) ->
  now + timeout < now' ->
  forall fuel,
    WaitForPromotion (k + S fuel) ns env (Some ri) s
    = Ret (Some ("Timed out waiting for pull request " ++ pr_URL pr
                 ++ " to merge. Waited " ++ Duration_String timeout))
          (mkState (opts s2)
             (OnPromotePullRequest promoteKey FailedPromotionPullRequest w3).2)
          ([EvCreatePromoteKey (env_Name env)] ++ t0 ++ t1 ++ t2
           ++ [EvOnPromotePullRequest promoteKey FailedPromotionPullRequest]).
Proof.
  intros Htimeout Hpoll Hinfo Hnow Hkey Hrounds Hstatus Hrebase Hnow' Hlate fuel.
  pose proof (pollIteration_timeout ns env (now + timeout) timeout promoteKey st sk
                pr st1 s1 t1 st2 s2 t2 now' w3 Hstatus Hrebase Hnow' Hlate) as Hround.
  pose proof (pollLoop_returns ns env (now + timeout) timeout promoteKey k _ _ st sk t0
                _ _ _ Hrounds Hround fuel) as Hloop.
  unfold WaitForPromotion.
  erewrite bind_Ret by reflexivity. cbv beta. rewrite Htimeout, Hpoll.
  erewrite bind_Ret by (unfold timeNow; rewrite Hnow; reflexivity). cbv beta.
  rewrite Hinfo. step_call Hkey.
  unfold waitForGitOpsPullRequest. rewrite Hinfo.
  rewrite (bind_Ret _ _ _ _ _ _ Hloop). cbv beta iota.
  destruct (OnPromotePullRequest promoteKey FailedPromotionPullRequest w3) as [r w4] eqn:Hfail.
  step_call Hfail. simpl. by rewrite <- !app_assoc.
Qed.

End Deadline.

(** The theorem of C7 with a thirty-second timeout and a twenty-second
    poll: two rounds find the build in progress, the third reaches its
    deadline check at forty seconds. *)
Lemma WaitForPromotion_times_out_witness :
  let s := mkState Scripted.impatient (Scripted.idle 0) in
  let st := initialPollState (Scripted.tracked Scripted.openPR) in
  let round := [EvUpdatePullRequestStatus "http://pr/1";
                EvPullRequestLastCommitStatus "http://pr/1";
                EvLog Info "The build for the Pull Request last commit is currently in progress."] in
  let t0 := (round ++ [EvSleep 20000000000] ++ round ++ [EvSleep 20000000000])%list in
  rounds "jx-staging" Scripted.staging 30000000000 30000000000 Scripted.promoteKey 2
    st s st (mkState Scripted.impatient (Scripted.idle 40000000000)) t0
  /\ WaitForPromotion 3 "jx-staging" Scripted.staging
       (Some (Scripted.tracked Scripted.openPR)) s
     = Ret (Some ("Timed out waiting for pull request http://pr/1 to merge. Waited "
                  ++ "30000000000ns"))
           (mkState Scripted.impatient (Scripted.idle 40000000000))
           ([EvCreatePromoteKey "staging"] ++ t0 ++ round
            ++ [EvOnPromotePullRequest Scripted.promoteKey FailedPromotionPullRequest]).
Proof.
  intros s st round t0.
  set (s20 := mkState Scripted.impatient (Scripted.idle 20000000000)).
  set (s40 := mkState Scripted.impatient (Scripted.idle 40000000000)).
  assert (H1 : pollIteration "jx-staging" Scripted.staging 30000000000 30000000000
                 Scripted.promoteKey st s
               = Ret (Next st) s20 (round ++ [EvSleep 20000000000]))
    by (vm_compute; reflexivity).
  assert (H2 : pollIteration "jx-staging" Scripted.staging 30000000000 30000000000
                 Scripted.promoteKey st s20
               = Ret (Next st) s40 (round ++ [EvSleep 20000000000]))
    by (vm_compute; reflexivity).
  assert (Hrounds : rounds "jx-staging" Scripted.staging 30000000000 30000000000
                      Scripted.promoteKey 2 st s st s40 t0)
    by exact (rounds_S _ _ _ _ _ 1 st s st s20 _ st s40 _ H1
                (rounds_S _ _ _ _ _ 0 st s20 st s40 _ st s40 [] H2
                   (rounds_O _ _ _ _ _ st s40))).
  split; [exact Hrounds|].
  exact (WaitForPromotion_times_out "jx-staging" Scripted.staging
           (Scripted.tracked Scripted.openPR) s 30000000000 20000000000
           {| pri_GitProvider := Scripted.provider; pri_PullRequest := Scripted.openPR |}
           0 (Scripted.idle 0) Scripted.promoteKey (Scripted.idle 0) 2 st s40 t0
           Scripted.openPR st s40 round st s40 [] 40000000000 (Scripted.idle 40000000000)
           eq_refl eq_refl eq_refl eq_refl eq_refl Hrounds eq_refl eq_refl eq_refl
           eq_refl 0).
Defined.

(** C7 as stated fails when the pull request is merged during the last
    sleep, after the deadline: with a thirty-second timeout, two rounds
    leave the clock at forty seconds and the pull request unmerged; the
    third round, past the deadline, finds it merged, lists the commit
    statuses, completes the update step, and [WaitForPromotion] returns
    nil instead of a timeout error. *)
Lemma WaitForPromotion_late_merge_counterexample :
  let c := Scripted.quiet [] [] in
  let statuses := [(([Scripted.status "lint" "success"], None)
                    : list GitRepoStatus * option error)] in
  let s := mkState Scripted.impatient
             (Scripted.mkWorld c 0 [(Scripted.openPR, None); (Scripted.openPR, None);
                                    (Scripted.merged, None)] statuses [] []) in
  let s40 := mkState Scripted.impatient
               (Scripted.mkWorld c 40000000000 [(Scripted.merged, None)] statuses [] []) in
  let st := initialPollState (Scripted.tracked Scripted.openPR) in
  (exists t0,
     rounds "jx-staging" Scripted.staging (0 + 30000000000) 30000000000
       Scripted.promoteKey 2 st s st s40 t0)
  /\ 0 + 30000000000 < Scripted.clock (world s40)
  /\ (pr_Merged ∘ pri_PullRequest <$> pullRequestInfo st) = Some None
  /\ exists s' t,
       WaitForPromotion 5 "jx-staging" Scripted.staging
         (Some (Scripted.tracked Scripted.openPR)) s
       = Ret None s' t
       /\ EvListCommitStatus "acme" "env-staging" "abc123" ∈ t
       /\ count_occ_b isCompleteUpdate t = 1%nat.
Proof.
  intros c statuses s s40 st. split; [|split; [reflexivity|split; [reflexivity|]]].
  - eexists.
    eapply rounds_S; [vm_compute; reflexivity|].
    eapply rounds_S; [vm_compute; reflexivity|].
    apply rounds_O.
  - eexists _, _. split; [vm_compute; reflexivity|]. split; [|reflexivity].
    occurs.
Qed.

(* ===================================================================== *)
(** * Rebase on conflict *)

Section Rebase.
Context {W : Type} `{!Services W}.
Variables (ns : string) (env : Environment).
Variables (end_ duration : Z) (promoteKey : PromoteStepActivityKey).

(** The first call of a round is the refresh of the tracked pull
    request, through the provider of the tracked info. *)
Lemma pollStatus_starts_with_refresh st info (s : State W) :
  pullRequestInfo st = Some info ->
  exists r,
    pollStatus ns env promoteKey st s
    = prepend [EvUpdatePullRequestStatus (pr_URL (pri_PullRequest info))] r.
Proof.
  intros Hinfo. unfold pollStatus. rewrite Hinfo.
  destruct (UpdatePullRequestStatus (pri_GitProvider info) (pri_PullRequest info) (world s))
    as [x w1] eqn:Hrefresh.
  step_call Hrefresh. by eexists.
Qed.

(** C8, as amended.  In a round in which the refresh and the branches
    did not end the poll and the provider reported the pull request as
    not mergeable, the promoter is run again with the tracked info as the
    existing one; the info it returns replaces the tracked one, the
    flags and the per-URL maps are left as they were, and, the deadline
    not being passed, the loop sleeps and goes on with the same deadline
    and timeout from that state: its next round starts with the refresh
    of the new pull request. *)
Theorem pollLoop_rebase_on_conflict st (s : State W) pr st1 s1 t1 info' err s2 t2 now w3 poll :
  pollStatus ns env promoteKey st s = Ret (Next (pr, st1)) s1 t1 ->
  pr_Mergeable pr = Some false ->
  let app := o_Application (opts s1) in
  let versionName := if bool_decide (o_Version (opts s1) = "") then "latest"
                     else o_Version (opts s1) in
  let branchNameText := "promote-" ++ app ++ "-" ++ versionName in
  let title := app ++ " to " ++ versionName in
  let message := "Promote " ++ app ++ " to version " ++ versionName in
  createEnvironmentPullRequest env (modifyRequirementsFn (opts s1)) branchNameText title
    message (pullRequestInfo st1) s1
  = Ret (Some info', err) s2 t2 ->
  time_Now (world s2) = (now, w3) ->
  now <= end_ ->
  o_PullRequestPollDuration (opts s2) = Some poll ->
  let st2 := set_releaseInfo (set_PullRequestInfo (Some info') (releaseInfo st1)) st1 in
  pullRequestInfo st2 = Some info'
  /\ (urlStatusMap st2 = urlStatusMap st1
      /\ urlStatusTargetURLMap st2 = urlStatusTargetURLMap st1
      /\ logMergeFailure st2 = logMergeFailure st1
      /\ logNoMergeCommitSha st2 = logNoMergeCommitSha st1
      /\ logHasMergeSha st2 = logHasMergeSha st1
      /\ logMergeStatusError st2 = logMergeStatusError st1
      /\ logNoMergeStatuses st2 = logNoMergeStatuses st1)
  /\ (forall fuel,
        pollLoop ns env end_ duration promoteKey (S fuel) st s
        = prepend (t1 ++ [EvLog Info "Rebasing PullRequest due to conflict";
                          EvCreateEnvironmentPullRequest (env_Name env) branchNameText
                            title message]
                   ++ t2 ++ [EvSleep poll])%list
            (pollLoop ns env end_ duration promoteKey fuel st2
               (mkState (opts s2) (time_Sleep poll w3).2)))
  /\ (forall s', exists r,
        pollStatus ns env promoteKey st2 s'
        = prepend [EvUpdatePullRequestStatus (pr_URL (pri_PullRequest info'))] r).
Proof.
  intros Hstatus Hconflict app versionName branchNameText title message
    Hpromoter Hnow Hearly Hpoll st2.
  split; [reflexivity|]. split; [by repeat split|]. split.
  - intros fuel. rewrite pollLoop_S. unfold pollIteration.
    rewrite bind_assoc, (bind_Ret _ _ _ _ _ _ Hstatus). cbv beta iota.
    unfold rebaseOnConflict. rewrite Hconflict.
    unfold PromoteViaPullRequest.
    rewrite !bind_assoc. erewrite bind_Ret by reflexivity. cbv beta.
    rewrite !bind_assoc. erewrite bind_Ret by reflexivity. cbv beta.
    rewrite !bind_assoc. erewrite bind_Ret by reflexivity. cbv beta.
    rewrite !bind_assoc.
    fold app versionName branchNameText title message.
    change (ri_PullRequestInfo (releaseInfo st1)) with (pullRequestInfo st1).
    rewrite (bind_Ret _ _ _ _ _ _ Hpromoter). cbv beta iota.
    rewrite !bind_mret. fold st2.
    unfold deadlineCheck.
    rewrite !bind_assoc.
    erewrite bind_Ret by (unfold timeNow; rewrite Hnow; reflexivity). cbv beta.
    assert (Hle : (end_ <? now) = false) by (apply Z.ltb_ge; lia).
    rewrite Hle. rewrite !bind_assoc. erewrite bind_Ret by reflexivity. cbv beta.
    simpl opts. rewrite Hpoll.
    destruct (time_Sleep poll w3) as [[] w4] eqn:Hsleep.
    rewrite !bind_assoc. step_call Hsleep. rewrite !bind_mret.
    rewrite !prepend_prepend. simpl. f_equal.
    rewrite <- !app_assoc. simpl. by rewrite ?app_nil_r.
  - intros s'. by apply pollStatus_starts_with_refresh.
Qed.

End Rebase.

(** The theorem of C8 on a pull request that the first refresh reports
    as conflicting and that the promoter replaces by "http://pr/2". *)
Lemma pollLoop_rebase_on_conflict_witness :
  let c := Scripted.quiet [] [] in
  let s := mkState Scripted.options
             (Scripted.mkWorld c 0 [(Scripted.conflicting, None)] [] []
                [(Some Scripted.recreated, None)]) in
  let st := initialPollState (Scripted.tracked Scripted.openPR) in
  let st1 := initialPollState (Scripted.tracked Scripted.conflicting) in
  let st2 := initialPollState (Scripted.tracked Scripted.recreated) in
  let s1 := mkState Scripted.options
              (Scripted.mkWorld c 0 [] [] [] [(Some Scripted.recreated, None)]) in
  let t1 := [EvUpdatePullRequestStatus "http://pr/1";
             EvPullRequestLastCommitStatus "http://pr/1";
             EvLog Info "The build for the Pull Request last commit is currently in progress."] in
  pollStatus "jx-staging" Scripted.staging Scripted.promoteKey st s
  = Ret (Next (Scripted.conflicting, st1)) s1 t1
  /\ pr_Mergeable Scripted.conflicting = Some false
  /\ pollLoop "jx-staging" Scripted.staging Scripted.hour Scripted.hour
       Scripted.promoteKey 2 st s
     = prepend (t1 ++ [EvLog Info "Rebasing PullRequest due to conflict";
                       EvCreateEnvironmentPullRequest "staging" "promote-myapp-2.0.0"
                         "myapp to 2.0.0" "Promote myapp to version 2.0.0";
                       EvSleep 20000000000])%list
         (pollLoop "jx-staging" Scripted.staging Scripted.hour Scripted.hour
            Scripted.promoteKey 1 st2 (Scripted.at_ c 20000000000 [] [])).
Proof.
  intros c s st st1 st2 s1 t1.
  assert (Hstatus : pollStatus "jx-staging" Scripted.staging Scripted.promoteKey st s
                    = Ret (Next (Scripted.conflicting, st1)) s1 t1)
    by (vm_compute; reflexivity).
  split; [exact Hstatus|]. split; [reflexivity|].
  assert (Hle : 0 <= Scripted.hour) by (unfold Scripted.hour; lia).
  destruct (pollLoop_rebase_on_conflict "jx-staging" Scripted.staging Scripted.hour
              Scripted.hour Scripted.promoteKey st s Scripted.conflicting st1 s1 t1
              {| pri_GitProvider := Scripted.provider;
                 pri_PullRequest := Scripted.recreated |}
              None (Scripted.at_ c 0 [] []) [] 0 (world (Scripted.at_ c 0 [] []))
              20000000000 Hstatus eq_refl eq_refl eq_refl Hle eq_refl)
    as (_ & _ & Hloop & _).
  exact (Hloop 1%nat).
Defined.

(** C8 as stated fails when the pull request reported as not mergeable
    also has a failed build: the poller returns the error of the failed
    last-commit status; the promoter is not run again (its queue is
    untouched) and the tracked pull request is not replaced. *)
Lemma WaitForPromotion_conflict_with_failed_build_counterexample :
  let c := Scripted.quiet [] [] in
  let w proposals refreshes lastCommitStatuses :=
    Scripted.mkWorld c 0 refreshes [] lastCommitStatuses proposals in
  let proposals := [(Some Scripted.recreated, (None : option error))] in
  let s := mkState Scripted.options
             (w proposals [(Scripted.conflicting, None)] [("failure", None)]) in
  pr_Mergeable Scripted.conflicting = Some false
  /\ WaitForPromotion 5 "jx-staging" Scripted.staging
       (Some (Scripted.tracked Scripted.openPR)) s
     = Ret (Some "Pull request http://pr/1 last commit has status failure for ref c0ffee")
           (mkState Scripted.options (w proposals [] []))
           [EvCreatePromoteKey "staging"; EvUpdatePullRequestStatus "http://pr/1";
            EvPullRequestLastCommitStatus "http://pr/1";
            EvOnPromotePullRequest Scripted.promoteKey FailedPromotionPullRequest].
Proof. intros c w proposals s. split; [reflexivity|]. vm_compute. reflexivity. Qed.

(* ===================================================================== *)
(** * Case analysis of a run *)

(** Split on the innermost test or answer the goal still waits for. *)
Ltac case_step :=
  match goal with
  | |- context [match ?x with _ => _ end] =>
      lazymatch x with
      | context [match _ with _ => _ end] => fail
      | _ => destruct x eqn:?
      end
  end.

Ltac cases := repeat (simpl; case_step); simpl.

Section TargetResolutionResult.
Context {W : Type} `{!Services W}.

(** X2.  [GetTargetNamespace] always returns, and it leaves the options
    as they were.  With an error it returns neither a namespace nor an
    environment.  Without error its last call ensured that the returned
    namespace exists, and: if it returns an environment, a name was
    requested and the namespace is the non-empty namespace of that
    environment, whatever the namespace argument; if it returns none, no
    name was requested, and the namespace is the namespace argument when
    that is not empty. *)
Theorem GetTargetNamespace_result ns env (s : State W) :
  exists targetNS envResource err s' t,
    GetTargetNamespace ns env s = Ret (targetNS, envResource, err) s' t
    /\ opts s' = opts s
    /\ match err with
       | Some _ => targetNS = "" /\ envResource = None
       | None =>
           last t = Some (EvEnsureNamespaceCreated targetNS)
           /\ match envResource with
              | Some e =>
                  env <> "" /\ targetNS = spec_Namespace (env_Spec e) /\ targetNS <> ""
              | None => env = "" /\ (ns <> "" -> targetNS = ns)
              end
       end.
Proof.
  unfold GetTargetNamespace. go.
  cases; do 5 eexists; (split; [reflexivity|]); simpl; repeat split; try done;
    repeat match goal with
           | H : bool_decide _ = true |- _ => apply bool_decide_eq_true_1 in H
           | H : bool_decide _ = false |- _ => apply bool_decide_eq_false_1 in H
           end; try done; try congruence; try (by apply dec_stable).
Qed.

End TargetResolutionResult.

(* ===================================================================== *)
(** * The direct path of [Promote] *)

Section DirectPath.
Context {W : Type} `{!Services W}.

(** X3.  On the direct path (no confirmation asked, and an environment
    without source repository or not permanent), when the Helm client is
    configured and the chart upgrade fails, [Promote] records the update
    step as failed and returns what the ledger answers to that, not the
    error of the upgrade: when the ledger accepts the transition,
    [Promote] returns no error.  The issue notifier is not run. *)
Theorem Promote_upgrade_failure targetNS env warnIfAuto (s : State W)
    promoteKey w1 w2 w3 r4 w4 e w5 r w6 :
  let o := withReleaseName (opts s) targetNS in
  let version := o_Version (opts s) in
  let ri : ReleaseInfo W :=
    {| ri_ReleaseName := releaseNameOf (opts s) targetNS;
       ri_FullAppName := fullAppNameOf (opts s);
       ri_Version := version; ri_PullRequestInfo := None |} in
  o_Application (opts s) <> "" ->
  warnIfAuto && is_Automatic (spec_PromotionStrategy (env_Spec env)) = false ->
  spec_Source_URL (env_Spec env) = "" \/ IsPermanent (spec_Kind (env_Spec env)) = false ->
  createPromoteKey o env (world s) = (promoteKey, w1) ->
  verifyHelmConfigured w1 = (None, w2) ->
  (if o_NoHelmUpdate (opts s) then w3 = w2 else Helm_UpdateRepo w2 = (None, w3)) ->
  OnPromoteUpdate promoteKey (startPromote version) w3 = (r4, w4) ->
  Helm_UpgradeChart (ri_FullAppName ri) (ri_ReleaseName ri) targetNS version w4
  = (Some e, w5) ->
  OnPromoteUpdate promoteKey FailedPromotionUpdate w5 = (r, w6) ->
  Promote targetNS env warnIfAuto s
  = Ret (Some ri, r) (mkState o w6)
        ([promotingLine (opts s) targetNS; EvCreatePromoteKey (env_Name env);
          EvVerifyHelmConfigured]
         ++ (if o_NoHelmUpdate (opts s) then []
             else [EvLog Info "Updating the helm repositories to ensure we can find the latest versions...";
                   EvUpdateRepo])
         ++ [EvOnPromoteUpdate promoteKey (startPromote version);
             EvUpgradeChart (ri_FullAppName ri) (ri_ReleaseName ri) targetNS version;
             EvOnPromoteUpdate promoteKey FailedPromotionUpdate])%list.
Proof.
  intros o version ri Happ Hwarn Hdirect Hkey Hhelm Hrepo Hstart Hupgrade Hfailed.
  assert (Hpath : bool_decide (spec_Source_URL (env_Spec env) ≠ "")
                  && IsPermanent (spec_Kind (env_Spec env)) = false).
  { destruct Hdirect as [-> | ->]; [done|apply andb_false_r]. }
  subst o version ri.
  unfold withReleaseName, releaseNameOf, fullAppNameOf, promotingLine in *.
  unfold Promote. go.
  rewrite (bool_decide_eq_false_2 _ Happ), Hwarn.
  destruct (bool_decide (o_Version (opts s) = ""));
    destruct (bool_decide (o_ReleaseName (opts s) = ""));
    destruct (o_NoHelmUpdate (opts s)) eqn:Hn; simpl in *; subst;
    rewrite ?Hn, Hkey; simpl; rewrite Hpath; simpl; rewrite Hhelm; simpl;
    rewrite ?Hn; simpl; rewrite ?Hrepo; simpl; rewrite Hstart; simpl;
    rewrite Hupgrade; simpl; rewrite Hfailed; reflexivity.
Qed.

(** X4.  On the direct path, when the chart upgrade succeeds, the
    answer of the issue notifier does not change the outcome: an error
    of [commentOnIssues] is logged as a warning, the update step is
    completed in the ledger all the same, and [Promote] returns what the
    ledger answers to the completion. *)
Theorem Promote_notifier_failure targetNS env warnIfAuto (s : State W)
    promoteKey w1 w2 w3 r4 w4 w5 cerr s6 t6 r w7 :
  let o := withReleaseName (opts s) targetNS in
  let version := o_Version (opts s) in
  let ri : ReleaseInfo W :=
    {| ri_ReleaseName := releaseNameOf (opts s) targetNS;
       ri_FullAppName := fullAppNameOf (opts s);
       ri_Version := version; ri_PullRequestInfo := None |} in
  o_Application (opts s) <> "" ->
  warnIfAuto && is_Automatic (spec_PromotionStrategy (env_Spec env)) = false ->
  spec_Source_URL (env_Spec env) = "" \/ IsPermanent (spec_Kind (env_Spec env)) = false ->
  createPromoteKey o env (world s) = (promoteKey, w1) ->
  verifyHelmConfigured w1 = (None, w2) ->
  (if o_NoHelmUpdate (opts s) then w3 = w2 else Helm_UpdateRepo w2 = (None, w3)) ->
  OnPromoteUpdate promoteKey (startPromote version) w3 = (r4, w4) ->
  Helm_UpgradeChart (ri_FullAppName ri) (ri_ReleaseName ri) targetNS version w4
  = (None, w5) ->
  commentOnIssues targetNS env promoteKey (mkState o w5) = Ret cerr s6 t6 ->
  OnPromoteUpdate promoteKey CompletePromotionUpdate (world s6) = (r, w7) ->
  Promote targetNS env warnIfAuto s
  = Ret (Some ri, r) (mkState (opts s6) w7)
        ([promotingLine (opts s) targetNS; EvCreatePromoteKey (env_Name env);
          EvVerifyHelmConfigured]
         ++ (if o_NoHelmUpdate (opts s) then []
             else [EvLog Info "Updating the helm repositories to ensure we can find the latest versions...";
                   EvUpdateRepo])
         ++ [EvOnPromoteUpdate promoteKey (startPromote version);
             EvUpgradeChart (ri_FullAppName ri) (ri_ReleaseName ri) targetNS version]
         ++ t6
         ++ match cerr with
            | Some e => [EvLog Warn ("Failed to comment on issues for release "
                                     ++ ri_ReleaseName ri ++ ": " ++ e ++ nl)]
            | None => []
            end
         ++ [EvOnPromoteUpdate promoteKey CompletePromotionUpdate])%list.
Proof.
  intros o version ri Happ Hwarn Hdirect Hkey Hhelm Hrepo Hstart Hupgrade Hcomment
    Hcomplete.
  assert (Hpath : bool_decide (spec_Source_URL (env_Spec env) ≠ "")
                  && IsPermanent (spec_Kind (env_Spec env)) = false).
  { destruct Hdirect as [-> | ->]; [done|apply andb_false_r]. }
  subst o version ri.
  unfold withReleaseName, releaseNameOf, fullAppNameOf, promotingLine in *.
  unfold Promote. go_unfold. cbn [opts world].
  rewrite (bool_decide_eq_false_2 _ Happ), Hwarn.
  destruct (bool_decide (o_Version (opts s) = ""));
    destruct (bool_decide (o_ReleaseName (opts s) = ""));
    destruct (o_NoHelmUpdate (opts s)) eqn:Hn; cbn -[commentOnIssues] in *; subst;
    rewrite ?Hn, Hkey; cbn -[commentOnIssues]; rewrite Hpath; cbn -[commentOnIssues];
    rewrite Hhelm; cbn -[commentOnIssues];
    rewrite ?Hn; cbn -[commentOnIssues]; rewrite ?Hrepo; cbn -[commentOnIssues];
    rewrite Hstart; cbn -[commentOnIssues];
    rewrite Hupgrade; cbn -[commentOnIssues]; rewrite Hcomment; cbn -[commentOnIssues];
    destruct cerr; cbn -[commentOnIssues]; rewrite Hcomplete; cbn;
    rewrite <- ?app_assoc; reflexivity.
Qed.

(** X5.  Asked to confirm the promotion to an environment that is
    promoted automatically, [Promote] stops when the question fails or
    the answer is no: it returns the release info, and the error of the
    question if any, having made no other call than the question, neither
    to the Helm client, nor to the promoter, nor to the ledger. *)
Theorem Promote_needs_confirmation targetNS env (s : State W) flag err w1 :
  let ri : ReleaseInfo W :=
    {| ri_ReleaseName := releaseNameOf (opts s) targetNS;
       ri_FullAppName := fullAppNameOf (opts s);
       ri_Version := o_Version (opts s); ri_PullRequestInfo := None |} in
  o_Application (opts s) <> "" ->
  is_Automatic (spec_PromotionStrategy (env_Spec env)) = true ->
  survey_AskOne (world s) = ((flag, err), w1) ->
  err <> None \/ flag = false ->
  Promote targetNS env true s
  = Ret (Some ri, err) (mkState (withReleaseName (opts s) targetNS) w1)
        [promotingLine (opts s) targetNS;
         EvLog Info ("WARNING: The Environment " ++ env_Name env
                     ++ " is setup to promote automatically as part of the CI/CD Pipelines."
                     ++ nl ++ nl);
         EvAskOne].
Proof.
  intros ri Happ Hauto Hask Hno. subst ri.
  unfold withReleaseName, releaseNameOf, fullAppNameOf, promotingLine.
  unfold Promote. go.
  rewrite (bool_decide_eq_false_2 _ Happ), Hauto.
  destruct (bool_decide (o_Version (opts s) = ""));
    destruct (bool_decide (o_ReleaseName (opts s) = "")); simpl;
    rewrite Hask; simpl; destruct err as [e|]; simpl; try reflexivity;
    destruct Hno as [? | ->]; done.
Qed.

End DirectPath.

(* ===================================================================== *)
(** * Postconditions *)

Lemma post_bind {W A B} (m : M W A) (f : A -> M W B) (s : State W) Q :
  (forall a s1 t1, m s = Ret a s1 t1 -> post (f a s1) (λ b s' t2, Q b s' (t1 ++ t2)%list)) ->
  post ((m ≫= f) s) Q.
Proof.
  unfold mbind, M_bind, bind. destruct (m s) as [a s1 t1| |]; simpl; [|done..].
  intros H. specialize (H a s1 t1 eq_refl). by destruct (f a s1).
Qed.

Lemma post_mret {W A} (a : A) (s : State W) (Q : A -> State W -> list Event -> Prop) :
  Q a s [] -> post ((mret a : M W A) s) Q.
Proof. done. Qed.

Lemma post_Ret {W A} (r : Res W A) Q a s t : post r Q -> r = Ret a s t -> Q a s t.
Proof. by intros H ->. Qed.

(** What a primitive step returns. *)
Ltac prim H :=
  unfold Infof, Warnf, log, emit, getOpts, setOpts, call, mret, M_ret, ret in H;
  cbv beta in H;
  repeat match type of H with
         | context [let '(_, _) := ?x in _] => destruct x
         | context [if ?b then _ else _] => destruct b
         end;
  first [injection H as <- <- <-|simplify_eq].

Ltac post_step :=
  cbv beta iota;
  lazymatch goal with
  | |- post ((_ ≫= _) _) _ => apply post_bind; intros ? ? ? ?
  | |- post (mret _ _) _ => apply post_mret
  | |- post ((if ?b then _ else _) _) _ => destruct b eqn:?
  | |- post ((match ?x with _ => _ end) _) _ => destruct x eqn:?
  end.

(** A primitive step, with what it returns. *)
Ltac post_prim :=
  cbv beta iota; apply post_bind;
  let H := fresh "Hprim" in intros ? ? ? H; prim H.

(** Steps whose answer does not matter. *)
Ltac post_skip :=
  cbv beta iota;
  lazymatch goal with
  | |- post ((_ ≫= _) _) _ => apply post_bind; intros ? ? ? _
  | |- post (mret _ _) _ => apply post_mret
  | |- post ((if ?b then _ else _) _) _ => destruct b eqn:?
  | |- post ((match ?x with _ => _ end) _) _ => destruct x eqn:?
  end.

Ltac no_info :=
  try (by intros [? ?]);
  try match goal with H : is_Some _ |- _ => by destruct H end.

Section PromoteResult.
Context {W : Type} `{!Services W}.

(** The promoter only replaces the pull-request info of the release info. *)
Lemma PromoteViaPullRequest_result env (ri : ReleaseInfo W) s ri' err s' t :
  PromoteViaPullRequest env ri s = Ret (ri', err) s' t ->
  exists info, ri' = set_PullRequestInfo info ri.
Proof.
  intros Hrun.
  refine (post_Ret _ (λ '(ri', _) _ _, _) _ _ _ _ Hrun). clear Hrun.
  unfold PromoteViaPullRequest. repeat post_skip. by eexists.
Qed.

(** X6.  The release info that [Promote] returns is fixed by the options
    at entry, on every path: its release name is the configured one, or
    "<namespace>-<application>" when none is configured, its full
    application name carries the repository prefix, its version is the
    configured one, and it carries a pull-request info only for a
    permanent environment with a source repository.  [Promote] returns
    no release info only when there is no application name, and then it
    returns no error and changes nothing. *)
Theorem Promote_release_info targetNS env warnIfAuto (s : State W) releaseInfo err s' t :
  Promote targetNS env warnIfAuto s = Ret (releaseInfo, err) s' t ->
  match releaseInfo with
  | None => o_Application (opts s) = "" /\ err = None /\ s' = s
  | Some ri =>
      o_Application (opts s) <> ""
      /\ ri_ReleaseName ri = releaseNameOf (opts s) targetNS
      /\ ri_FullAppName ri = fullAppNameOf (opts s)
      /\ ri_Version ri = o_Version (opts s)
      /\ (is_Some (ri_PullRequestInfo ri) ->
          spec_Source_URL (env_Spec env) <> ""
          /\ IsPermanent (spec_Kind (env_Spec env)) = true)
  end.
Proof.
  intros Hrun.
  refine (post_Ret _ (λ '(releaseInfo, err) s' _, _) _ _ _ _ Hrun). clear Hrun.
  unfold Promote.
  post_step. prim H.
  post_step.
  { post_step. prim H. post_step. by apply bool_decide_eq_true_1 in Heqb. }
  apply bool_decide_eq_false_1 in Heqb.
  post_skip. post_step.
  match goal with
  | H : _ = Ret ?a _ _ |- _ =>
      assert (a = releaseNameOf (opts s) targetNS) as ->;
        [|clear H]
  end.
  { unfold releaseNameOf. destruct (bool_decide (o_ReleaseName (opts s) = "")).
    - unfold mbind, M_bind, bind in H. simpl in H. by simplify_eq.
    - by prim H. }
  fold (fullAppNameOf (opts s)).
  set (ri0 := {| ri_ReleaseName := releaseNameOf (opts s) targetNS;
                 ri_FullAppName := fullAppNameOf (opts s);
                 ri_Version := o_Version (opts s);
                 ri_PullRequestInfo := None |} : ReleaseInfo W).
  post_step.
  match goal with
  | H : _ = Ret ?a _ _ |- _ =>
      assert (a = Next tt \/ exists e, a = Return (Some ri0, e)) as Hconfirmed;
        [|clear H; destruct Hconfirmed as [->|[e ->]]]
  end.
  { destruct (warnIfAuto && is_Automatic (spec_PromotionStrategy (env_Spec env))).
    - revert H. apply (post_Ret _ (λ a _ _, a = Next tt \/ exists e, a = Return (Some ri0, e))).
      repeat post_skip; eauto.
    - prim H. by left. }
  2: { post_step. repeat split; try done; no_info. }
  post_skip. post_skip.
  destruct (bool_decide (spec_Source_URL (env_Spec env) ≠ "")) eqn:Hsrc;
    destruct (IsPermanent (spec_Kind (env_Spec env))) eqn:Hperm; simpl andb.
  1: { apply bool_decide_eq_true_1 in Hsrc.
       apply post_bind; intros [ri' err'] ? ? Hpr.
       apply PromoteViaPullRequest_result in Hpr as [info ->].
       repeat post_skip; repeat split; done. }
  all: repeat post_skip; repeat split; try done; no_info.
Qed.
End PromoteResult.

(** The theorem of X3 on "production", an environment without source
    repository, when the chart upgrade fails and the ledger accepts the
    failure: [Promote] returns no error. *)
Lemma Promote_upgrade_failure_witness :
  let s := Scripted.start Console.upgradeFails in
  let key := {| key_Name := "pipeline-1"; key_Pipeline := "pipeline"; key_Build := "1";
                key_Environment := "production" |} in
  Promote "jx-production" Scripted.production false s
  = Ret (Some {| ri_ReleaseName := "jx-production-myapp"; ri_FullAppName := "repo/myapp";
                 ri_Version := "2.0.0"; ri_PullRequestInfo := None |}, None)
        (mkState (set_ReleaseName "jx-production-myapp" Scripted.options) (world s))
        [EvLog Info ("Promoting app myapp version 2.0.0 to namespace jx-production" ++ nl);
         EvCreatePromoteKey "production"; EvVerifyHelmConfigured;
         EvLog Info "Updating the helm repositories to ensure we can find the latest versions...";
         EvUpdateRepo;
         EvOnPromoteUpdate key (startPromote "2.0.0");
         EvUpgradeChart "repo/myapp" "jx-production-myapp" "jx-production" "2.0.0";
         EvOnPromoteUpdate key FailedPromotionUpdate].
Proof.
  intros s key.
  assert (Happ : o_Application (opts s) <> "") by done.
  exact (Promote_upgrade_failure "jx-production" Scripted.production false s key
           (world s) (world s) (world s) None (world s) "release failed" (world s) None
           (world s) Happ eq_refl (or_introl eq_refl) eq_refl eq_refl eq_refl eq_refl
           eq_refl eq_refl).
Defined.

(** The theorem of X4 on "production" when the issue notifier cannot
    create its Git credentials service. *)
Lemma Promote_notifier_failure_witness :
  let s := Scripted.start Scripted.notifierDown in
  let key := {| key_Name := "pipeline-1"; key_Pipeline := "pipeline"; key_Build := "1";
                key_Environment := "production" |} in
  Promote "jx-production" Scripted.production false s
  = Ret (Some {| ri_ReleaseName := "jx-production-myapp"; ri_FullAppName := "repo/myapp";
                 ri_Version := "2.0.0"; ri_PullRequestInfo := None |}, None)
        (mkState (set_ReleaseName "jx-production-myapp" Scripted.options) (world s))
        [EvLog Info ("Promoting app myapp version 2.0.0 to namespace jx-production" ++ nl);
         EvCreatePromoteKey "production"; EvVerifyHelmConfigured;
         EvLog Info "Updating the helm repositories to ensure we can find the latest versions...";
         EvUpdateRepo;
         EvOnPromoteUpdate key (startPromote "2.0.0");
         EvUpgradeChart "repo/myapp" "jx-production-myapp" "jx-production" "2.0.0";
         EvCreateGitAuthConfigService;
         EvLog Warn ("Failed to comment on issues for release jx-production-myapp: "
                     ++ "no git credentials" ++ nl);
         EvOnPromoteUpdate key CompletePromotionUpdate].
Proof.
  intros s key.
  assert (Happ : o_Application (opts s) <> "") by done.
  set (s5 := mkState (set_ReleaseName "jx-production-myapp" Scripted.options) (world s)).
  assert (Hcomment : commentOnIssues "jx-production" Scripted.production key s5
                     = Ret (Some "no git credentials") s5 [EvCreateGitAuthConfigService])
    by (vm_compute; reflexivity).
  exact (Promote_notifier_failure "jx-production" Scripted.production false s key
           (world s) (world s) (world s) None (world s) (world s)
           (Some "no git credentials") s5 [EvCreateGitAuthConfigService] None (world s)
           Happ eq_refl (or_introl eq_refl) eq_refl eq_refl eq_refl eq_refl
           eq_refl Hcomment eq_refl).
Defined.

(** The theorem of X5 on "staging", promoted automatically, when the
    user answers no. *)
Lemma Promote_needs_confirmation_witness :
  let s := Scripted.start Console.declined in
  Promote "jx-staging" Scripted.staging true s
  = Ret (Some {| ri_ReleaseName := "jx-staging-myapp"; ri_FullAppName := "repo/myapp";
                 ri_Version := "2.0.0"; ri_PullRequestInfo := None |}, None)
        (mkState (set_ReleaseName "jx-staging-myapp" Scripted.options) (world s))
        [EvLog Info ("Promoting app myapp version 2.0.0 to namespace jx-staging" ++ nl);
         EvLog Info ("WARNING: The Environment staging is setup to promote automatically as part of the CI/CD Pipelines."
                     ++ nl ++ nl);
         EvAskOne].
Proof.
  intros s.
  assert (Happ : o_Application (opts s) <> "") by done.
  exact (Promote_needs_confirmation "jx-staging" Scripted.staging s false None (world s)
           Happ eq_refl eq_refl (or_intror eq_refl)).
Defined.

(** The theorem of X6 on the pull-request path to "staging": the
    promoter answers with the pull request "http://pr/1". *)
Lemma Promote_release_info_witness :
  let s := mkState Scripted.options
             (Scripted.mkWorld (Scripted.quiet [] []) 0 [] [] []
                [(Some Scripted.openPR, None)]) in
  exists ri s' t,
    Promote "jx-staging" Scripted.staging false s = Ret (Some ri, None) s' t
    /\ o_Application (opts s) <> ""
    /\ ri_ReleaseName ri = "jx-staging-myapp"
    /\ ri_FullAppName ri = "repo/myapp"
    /\ ri_Version ri = "2.0.0"
    /\ (is_Some (ri_PullRequestInfo ri) ->
        spec_Source_URL (env_Spec Scripted.staging) <> ""
        /\ IsPermanent (spec_Kind (env_Spec Scripted.staging)) = true).
Proof.
  intros s.
  eexists _, _, _. split; [vm_compute; reflexivity|].
  exact (Promote_release_info "jx-staging" Scripted.staging false s _ _ _ _ eq_refl).
Defined.

(* ===================================================================== *)
(** * The sweep when the environments cannot be listed *)

Section SweepWithoutList.
Context {W : Type} `{!Services W}.

(** X7.  When the cluster clients answer and the listing of the
    environments of the team fails, [PromoteAllAutomatic] logs the
    warning "No Environments found: <error>/n" and returns nil: the
    failure is not reported to the caller and nothing is promoted. *)
Theorem PromoteAllAutomatic_list_failure fuel (s : State W)
    currentNs w1 team w2 w3 envs e w4 :
  KubeClient (world s) = ((currentNs, None), w1) ->
  GetDevNamespace currentNs w1 = ((team, None), w2) ->
  JXClient w2 = (None, w3) ->
  Environments_List team w3 = ((envs, Some e), w4) ->
  PromoteAllAutomatic fuel s
  = Ret None (mkState (opts s) w4)
        [EvKubeClient; EvGetDevNamespace currentNs; EvJXClient; EvListEnvironments team;
         EvLog Warn ("No Environments found: " ++ e ++ "/n")].
Proof.
  intros Hkube Hdev Hjx Hlist. unfold PromoteAllAutomatic.
  step_call Hkube. step_call Hdev. step_call Hjx. step_call Hlist. reflexivity.
Qed.

End SweepWithoutList.

(** The theorem of X7 in a cluster that forbids the listing. *)
Lemma PromoteAllAutomatic_list_failure_witness :
  let s := Scripted.start Console.unlisted in
  PromoteAllAutomatic 3 s
  = Ret None s
        [EvKubeClient; EvGetDevNamespace "jx"; EvJXClient; EvListEnvironments "jx";
         EvLog Warn "No Environments found: forbidden/n"].
Proof.
  intros s.
  exact (PromoteAllAutomatic_list_failure 3 s "jx" (world s) "jx" (world s) (world s) []
           "forbidden" (world s) eq_refl eq_refl eq_refl eq_refl).
Defined.

(* ===================================================================== *)
(** * The poller on a pull request that is not merged *)

Section OpenPullRequest.
Context {W : Type} `{!Services W}.
Variables (ns : string) (env : Environment).
Variables (end_ duration : Z) (promoteKey : PromoteStepActivityKey).

(** A round whose refresh succeeds and reports the pull request as not
    merged goes through [openBranch]. *)
Lemma pollStatus_open st (s : State W) info pr w1 :
  pullRequestInfo st = Some info ->
  UpdatePullRequestStatus (pri_GitProvider info) (pri_PullRequest info) (world s)
  = ((pr, None), w1) ->
  pr_Merged pr <> Some true ->
  pollStatus ns env promoteKey st s
  = prepend [EvUpdatePullRequestStatus (pr_URL (pri_PullRequest info))]
      ((r ← openBranch (pri_GitProvider info) pr (set_PullRequest info pr st);
        match r with
        | Return e => mret (Return e)
        | Next st' => mret (Next (pr, st'))
        end) (mkState (opts s) w1)).
Proof.
  intros Hinfo Hrefresh Hopen. unfold pollStatus. rewrite Hinfo.
  step_call Hrefresh. by rewrite (bool_decide_eq_false_2 _ Hopen).
Qed.

(** X8.  In whatever round of the poll loop the refresh reports the
    pull request as closed and not merged, the poller ends with the error
    "Promotion failed as Pull Request <url> is closed without merging":
    after the refresh it only logs a warning; it asks neither for the
    status of the last commit nor for a merge. *)
Theorem pollLoop_closed_pull_request k st0 (s0 : State W) st s t0 info pr w1 :
  rounds ns env end_ duration promoteKey k st0 s0 st s t0 ->
  pullRequestInfo st = Some info ->
  UpdatePullRequestStatus (pri_GitProvider info) (pri_PullRequest info) (world s)
  = ((pr, None), w1) ->
  pr_Merged pr <> Some true ->
  IsClosed pr = true ->
  forall fuel,
    pollLoop ns env end_ duration promoteKey (k + S fuel) st0 s0
    = Ret (Some ("Promotion failed as Pull Request " ++ pr_URL pr
                 ++ " is closed without merging"))
          (mkState (opts s) w1)
          (t0 ++ [EvUpdatePullRequestStatus (pr_URL (pri_PullRequest info));
                  EvLog Warn ("Pull Request " ++ pr_URL pr ++ " is closed" ++ nl)]).
Proof.
  intros Hrounds Hinfo Hrefresh Hopen Hclosed fuel.
  eapply pollLoop_returns; [exact Hrounds|].
  apply pollIteration_status_returns.
  rewrite (pollStatus_open _ _ _ _ _ Hinfo Hrefresh Hopen).
  unfold openBranch. rewrite Hclosed. reflexivity.
Qed.

(** X9.  In whatever round of the poll loop the pull request is open
    and the provider reports the status of its last commit as [error]
    or [failure], the poller ends with the error "Pull request <url>
    last commit has status <status> for ref <sha>"; the query is the
    last call of the round, and no merge is attempted. *)
Theorem pollLoop_failed_build k st0 (s0 : State W) st s t0 info pr w1 status w2 :
  rounds ns env end_ duration promoteKey k st0 s0 st s t0 ->
  pullRequestInfo st = Some info ->
  UpdatePullRequestStatus (pri_GitProvider info) (pri_PullRequest info) (world s)
  = ((pr, None), w1) ->
  pr_Merged pr <> Some true ->
  IsClosed pr = false ->
  PullRequestLastCommitStatus (pri_GitProvider info) pr w1 = ((status, None), w2) ->
  status = "error" \/ status = "failure" ->
  forall fuel,
    pollLoop ns env end_ duration promoteKey (k + S fuel) st0 s0
    = Ret (Some ("Pull request " ++ pr_URL pr ++ " last commit has status " ++ status
                 ++ " for ref " ++ pr_LastCommitSha pr))
          (mkState (opts s) w2)
          (t0 ++ [EvUpdatePullRequestStatus (pr_URL (pri_PullRequest info));
                  EvPullRequestLastCommitStatus (pr_URL pr)]).
Proof.
  intros Hrounds Hinfo Hrefresh Hopen Hclosed Hquery Hstatus fuel.
  eapply pollLoop_returns; [exact Hrounds|].
  apply pollIteration_status_returns.
  rewrite (pollStatus_open _ _ _ _ _ Hinfo Hrefresh Hopen).
  unfold openBranch. rewrite Hclosed.
  rewrite bind_assoc. step_call Hquery.
  destruct Hstatus as [-> | ->]; reflexivity.
Qed.

(** X10.  The status step of a round ([pollStatus]: the refresh, the
    query of the last commit and the merge, before the rebase test, the
    deadline test and the sleep), on a pull request that is open and
    whose last commit has the status [success].  When merging is
    disabled ([NoMergePullRequest]), the step makes no other call than
    the refresh and the query, and it hands the variables of the loop on
    as they are, but for the refreshed pull request; otherwise it asks
    the provider once to merge the pull request, and a failure of the
    merge does not end the poll there: it is logged, the first time only,
    and remembered in [logMergeFailure].  In both cases the step goes on
    to the rest of the round. *)
Theorem pollStatus_merge_on_success st (s : State W) info pr w1 w2 :
  pullRequestInfo st = Some info ->
  UpdatePullRequestStatus (pri_GitProvider info) (pri_PullRequest info) (world s)
  = ((pr, None), w1) ->
  pr_Merged pr <> Some true ->
  IsClosed pr = false ->
  PullRequestLastCommitStatus (pri_GitProvider info) pr w1 = (("success", None), w2) ->
  let st1 := set_PullRequest info pr st in
  let message := "jx promote automatically merged promotion PR" in
  (o_NoMergePullRequest (opts s) = true ->
   pollStatus ns env promoteKey st s
   = Ret (Next (pr, st1)) (mkState (opts s) w2)
         [EvUpdatePullRequestStatus (pr_URL (pri_PullRequest info));
          EvPullRequestLastCommitStatus (pr_URL pr)])
  /\ (o_NoMergePullRequest (opts s) = false ->
      forall merr w3,
        MergePullRequest (pri_GitProvider info) pr message w2 = (merr, w3) ->
        pollStatus ns env promoteKey st s
        = Ret (Next (pr, match merr with
                         | Some _ => if logMergeFailure st then st1
                                     else set_logMergeFailure st1
                         | None => st1
                         end))
              (mkState (opts s) w3)
              ([EvUpdatePullRequestStatus (pr_URL (pri_PullRequest info));
                EvPullRequestLastCommitStatus (pr_URL pr);
                EvMergePullRequest (pr_URL pr) message]
               ++ match merr with
                  | Some e =>
                      if logMergeFailure st then []
                      else [EvLog Warn ("Failed to merge the Pull Request " ++ pr_URL pr
                                        ++ " due to " ++ e
                                        ++ " maybe I don't have karma?" ++ nl)]
                  | None => []
                  end)%list).
Proof.
  intros Hinfo Hrefresh Hopen Hclosed Hquery st1 message. split.
  - intros Hno.
    rewrite (pollStatus_open _ _ _ _ _ Hinfo Hrefresh Hopen).
    unfold openBranch. rewrite Hclosed.
    rewrite bind_assoc. step_call Hquery. simpl.
    unfold mbind, M_bind, bind, getOpts. simpl. rewrite Hno. reflexivity.
  - intros Hyes merr w3 Hmerge.
    rewrite (pollStatus_open _ _ _ _ _ Hinfo Hrefresh Hopen).
    unfold openBranch. rewrite Hclosed.
    rewrite bind_assoc. step_call Hquery. simpl.
    unfold mbind, M_bind, bind, getOpts, call. simpl. rewrite Hyes. simpl.
    fold message. rewrite Hmerge.
    destruct merr as [e|]; [|reflexivity].
    change (logMergeFailure (set_PullRequest info pr st)) with (logMergeFailure st).
    destruct (logMergeFailure st); reflexivity.
Qed.

(** X11.  A round that finds the pull request open and cannot learn
    the status of its last commit, or learns a status that is neither
    [success], [error] nor [failure] (a build in progress, say), does not
    end the poll: after the query the round only logs, it attempts no
    merge, and the variables of the loop are left as they are. *)
Theorem pollStatus_build_not_finished st (s : State W) info pr w1 status qerr w2 :
  pullRequestInfo st = Some info ->
  UpdatePullRequestStatus (pri_GitProvider info) (pri_PullRequest info) (world s)
  = ((pr, None), w1) ->
  pr_Merged pr <> Some true ->
  IsClosed pr = false ->
  PullRequestLastCommitStatus (pri_GitProvider info) pr w1 = ((status, qerr), w2) ->
  qerr <> None \/ (status <> "success" /\ status <> "error" /\ status <> "failure") ->
  exists t,
    pollStatus ns env promoteKey st s
    = Ret (Next (pr, set_PullRequest info pr st)) (mkState (opts s) w2)
          ([EvUpdatePullRequestStatus (pr_URL (pri_PullRequest info));
            EvPullRequestLastCommitStatus (pr_URL pr)] ++ t)
    /\ forallb isLog t = true.
Proof.
  intros Hinfo Hrefresh Hopen Hclosed Hquery Hcase.
  rewrite (pollStatus_open _ _ _ _ _ Hinfo Hrefresh Hopen).
  unfold openBranch. rewrite Hclosed.
  rewrite bind_assoc. step_call Hquery.
  destruct qerr as [e|].
  - eexists. split; [reflexivity|done].
  - destruct Hcase as [?|(H1 & H2 & H3)]; [done|].
    destruct (bool_decide (status = "in-progress")).
    { eexists. split; [reflexivity|done]. }
    rewrite (bool_decide_eq_false_2 _ H1), (bool_decide_eq_false_2 _ H2),
      (bool_decide_eq_false_2 _ H3).
    exists []. split; [reflexivity|done].
Qed.

End OpenPullRequest.

(** The theorem of X8 on a pull request closed before the first round. *)
Lemma pollLoop_closed_pull_request_witness :
  let c := Scripted.quiet [] [] in
  let st0 := initialPollState (Scripted.tracked Scripted.openPR) in
  let s0 := Scripted.at_ c 0 [(Console.closedPR, None)] [] in
  pollLoop "jx-staging" Scripted.staging Scripted.hour Scripted.hour Scripted.promoteKey
    1 st0 s0
  = Ret (Some "Promotion failed as Pull Request http://pr/1 is closed without merging")
        (Scripted.at_ c 0 [] [])
        [EvUpdatePullRequestStatus "http://pr/1";
         EvLog Warn ("Pull Request http://pr/1 is closed" ++ nl)].
Proof.
  intros c st0 s0.
  assert (Hopen : pr_Merged Console.closedPR <> Some true) by done.
  exact (pollLoop_closed_pull_request "jx-staging" Scripted.staging Scripted.hour
           Scripted.hour Scripted.promoteKey 0 st0 s0 st0 s0 []
           {| pri_GitProvider := Scripted.provider; pri_PullRequest := Scripted.openPR |}
           Console.closedPR (world (Scripted.at_ c 0 [] []))
           (rounds_O _ _ _ _ _ st0 s0) eq_refl eq_refl Hopen eq_refl 0%nat).
Defined.

(** The theorem of X9 on an open pull request whose build failed. *)
Lemma pollLoop_failed_build_witness :
  let c := Scripted.quiet [] [] in
  let st0 := initialPollState (Scripted.tracked Scripted.openPR) in
  let s0 := mkState Scripted.options
              (Scripted.mkWorld c 0 [(Scripted.openPR, None)] [] [("failure", None)] []) in
  pollLoop "jx-staging" Scripted.staging Scripted.hour Scripted.hour Scripted.promoteKey
    1 st0 s0
  = Ret (Some "Pull request http://pr/1 last commit has status failure for ref c0ffee")
        (Scripted.at_ c 0 [] [])
        [EvUpdatePullRequestStatus "http://pr/1";
         EvPullRequestLastCommitStatus "http://pr/1"].
Proof.
  intros c st0 s0.
  assert (Hopen : pr_Merged Scripted.openPR <> Some true) by done.
  exact (pollLoop_failed_build "jx-staging" Scripted.staging Scripted.hour
           Scripted.hour Scripted.promoteKey 0 st0 s0 st0 s0 []
           {| pri_GitProvider := Scripted.provider; pri_PullRequest := Scripted.openPR |}
           Scripted.openPR
           (Scripted.mkWorld c 0 [] [] [("failure", None)] [])
           "failure" (world (Scripted.at_ c 0 [] []))
           (rounds_O _ _ _ _ _ st0 s0) eq_refl eq_refl Hopen eq_refl eq_refl
           (or_intror eq_refl) 0%nat).
Defined.

(** The theorem of X10 on an open pull request whose build passed, with
    merging enabled and a provider that accepts the merge. *)
Lemma pollStatus_merge_on_success_witness :
  let c := Scripted.quiet [] [] in
  let st0 := initialPollState (Scripted.tracked Scripted.openPR) in
  let s0 := mkState Scripted.options
              (Scripted.mkWorld c 0 [(Scripted.openPR, None)] [] [("success", None)] []) in
  pollStatus "jx-staging" Scripted.staging Scripted.promoteKey st0 s0
  = Ret (Next (Scripted.openPR, st0)) (Scripted.at_ c 0 [] [])
        [EvUpdatePullRequestStatus "http://pr/1";
         EvPullRequestLastCommitStatus "http://pr/1";
         EvMergePullRequest "http://pr/1" "jx promote automatically merged promotion PR"].
Proof.
  intros c st0 s0.
  assert (Hopen : pr_Merged Scripted.openPR <> Some true) by done.
  exact (proj2 (pollStatus_merge_on_success "jx-staging" Scripted.staging
                  Scripted.promoteKey st0 s0
                  {| pri_GitProvider := Scripted.provider;
                     pri_PullRequest := Scripted.openPR |}
                  Scripted.openPR
                  (Scripted.mkWorld c 0 [] [] [("success", None)] [])
                  (world (Scripted.at_ c 0 [] []))
                  eq_refl eq_refl Hopen eq_refl eq_refl)
           eq_refl None (world (Scripted.at_ c 0 [] [])) eq_refl).
Defined.

(** The theorem of X11 on an open pull request whose build is reported
    as "pending". *)
Lemma pollStatus_build_not_finished_witness :
  let c := Scripted.quiet [] [] in
  let st0 := initialPollState (Scripted.tracked Scripted.openPR) in
  let s0 := mkState Scripted.options
              (Scripted.mkWorld c 0 [(Scripted.openPR, None)] [] [("pending", None)] []) in
  exists t,
    pollStatus "jx-staging" Scripted.staging Scripted.promoteKey st0 s0
    = Ret (Next (Scripted.openPR, st0)) (Scripted.at_ c 0 [] [])
          ([EvUpdatePullRequestStatus "http://pr/1";
            EvPullRequestLastCommitStatus "http://pr/1"] ++ t)
    /\ forallb isLog t = true.
Proof.
  intros c st0 s0.
  assert (Hopen : pr_Merged Scripted.openPR <> Some true) by done.
  assert (Hstatus : "pending" <> "success" /\ "pending" <> "error" /\ "pending" <> "failure")
    by done.
  exact (pollStatus_build_not_finished "jx-staging" Scripted.staging
           Scripted.promoteKey st0 s0
           {| pri_GitProvider := Scripted.provider; pri_PullRequest := Scripted.openPR |}
           Scripted.openPR
           (Scripted.mkWorld c 0 [] [] [("pending", None)] [])
           "pending" None (world (Scripted.at_ c 0 [] []))
           eq_refl eq_refl Hopen eq_refl eq_refl (or_intror Hstatus)).
Defined.

(* ===================================================================== *)
(** * What the poll loop keeps from round to round *)

Lemma post_weaken {W A} (r : Res W A) (Q Q' : A -> State W -> list Event -> Prop) :
  post r Q -> (forall a s t, Q a s t -> Q' a s t) -> post r Q'.
Proof. destruct r; simpl; auto. Qed.

Section Keeps.
Context {W : Type} `{!Services W}.
Variables (ns : string) (env : Environment).
Variables (end_ duration : Z) (promoteKey : PromoteStepActivityKey).

Lemma keeps_refl (st : PollState W) : keeps st st.
Proof. by repeat split. Qed.

Lemma keeps_trans (st1 st2 st3 : PollState W) :
  keeps st1 st2 -> keeps st2 st3 -> keeps st1 st3.
Proof.
  intros (A1 & A2 & A3 & A4 & A5 & A6 & A7) (B1 & B2 & B3 & B4 & B5 & B6 & B7).
  repeat split; auto.
Qed.

(** Recording a state for a URL whose recorded state is not [success]. *)
Lemma keeps_set_urlStatus (st : PollState W) url state targetURL :
  mapGet (urlStatusMap st) url ≠ gitStatusSuccess ->
  keeps st (set_urlStatus url state targetURL st).
Proof.
  intros Hnot. repeat split; try done; simpl.
  - intros url' Hsome. destruct (decide (url = url')) as [->|Hne].
    + rewrite lookup_insert_eq. by eexists.
    + by rewrite lookup_insert_ne.
  - intros url' Hsucc. destruct (decide (url = url')) as [->|Hne].
    + exfalso. apply Hnot. unfold mapGet. by rewrite Hsucc.
    + by rewrite lookup_insert_ne.
Qed.

Lemma statuses_body_keeps (st : PollState W) status s :
  post (statuses_body st status s) (λ r _ _, keepsNext st r).
Proof.
  unfold statuses_body.
  destruct (IsFailed status). { repeat post_skip. done. }
  destruct (bool_decide (mapGet (urlStatusMap st) (st_URL status) = "")) eqn:Hempty;
    [|destruct (bool_decide (mapGet (urlStatusMap st) (st_URL status) ≠ gitStatusSuccess))
        eqn:Hnot]; simpl orb; cbv iota.
  - apply bool_decide_eq_true_1 in Hempty.
    repeat post_skip; try apply keeps_refl.
    all: apply keeps_set_urlStatus; by rewrite Hempty.
  - apply bool_decide_eq_true_1 in Hnot.
    repeat post_skip; try apply keeps_refl.
    all: by apply keeps_set_urlStatus.
  - repeat post_skip; try done; apply keeps_refl.
Qed.

Lemma statuses_loop_keeps statuses : forall (st : PollState W) s,
  post (forRangeFlow statuses_body statuses st s) (λ r _ _, keepsNext st r).
Proof.
  induction statuses as [|x rest IH]; intros st s.
  - apply keeps_refl.
  - change (forRangeFlow (W:=W) statuses_body (x :: rest) st)
      with (statuses_body (W:=W) st x
            ≫= λ r, match r with
                    | Return v => mret (Return v)
                    | Next acc' => forRangeFlow statuses_body rest acc'
                    end).
    apply post_bind. intros [v|st1] s1 t1 Hbody.
    + done.
    + pose proof (statuses_body_keeps st x s) as Hkeep. rewrite Hbody in Hkeep.
      simpl in Hkeep.
      eapply post_weaken; [apply IH|].
      intros [v|st2] _ _; simpl; [done|]. by apply keeps_trans.
Qed.

Lemma checkMergeStatuses_keeps pr mergeSha (st : PollState W) statuses err s :
  post (checkMergeStatuses ns env promoteKey pr mergeSha st statuses err s)
    (λ r _ _, keepsNext st r).
Proof.
  unfold checkMergeStatuses. destruct err as [e|].
  { repeat post_skip; by repeat split. }
  destruct (bool_decide (length statuses = 0%nat)).
  { repeat post_skip; by repeat split. }
  apply post_bind. intros [v|st1] s1 t1 Hloop; [done|].
  pose proof (statuses_loop_keeps statuses st s) as Hkeep. rewrite Hloop in Hkeep.
  simpl in Hkeep. repeat post_skip; done.
Qed.

Lemma mergedBranch_keeps gitProvider pr (st : PollState W) s :
  post (mergedBranch ns env promoteKey gitProvider pr st s) (λ r _ _, keepsNext st r).
Proof.
  unfold mergedBranch. destruct (pr_MergeCommitSHA pr) as [mergeSha|].
  2: { repeat post_skip; by repeat split. }
  apply post_bind. intros st1 s1 t1 Hflag.
  assert (Hst1 : keeps st st1).
  { destruct (logHasMergeSha st) eqn:Hlog; simpl in Hflag.
    - prim Hflag. apply keeps_refl.
    - revert Hflag. apply (post_Ret _ (λ st1 _ _, keeps st st1)).
      repeat post_skip. by repeat split. }
  clear Hflag. post_skip. apply post_bind. intros [statuses err] s3 t3 _.
  eapply post_weaken; [apply checkMergeStatuses_keeps|].
  intros [v|st2] _ _; simpl; [done|]. by apply keeps_trans.
Qed.

Lemma openBranch_keeps gitProvider pr (st : PollState W) s :
  post (openBranch gitProvider pr st s) (λ r _ _, keepsNext st r).
Proof.
  unfold openBranch. repeat post_skip; try done; apply keeps_refl.
Qed.

Lemma keeps_set_releaseInfo (st : PollState W) r : keeps st (set_releaseInfo r st).
Proof. by repeat split. Qed.

Lemma pollIteration_keeps (st : PollState W) s :
  post (pollIteration ns env end_ duration promoteKey st s) (λ r _ _, keepsNext st r).
Proof.
  unfold pollIteration. apply post_bind. intros r s1 t1 Hstatus.
  assert (Hr : match r with Next (_, st1) => keeps st st1 | Return _ => True end).
  { revert Hstatus. apply (post_Ret _ (λ r _ _, match r with
                                                 | Next (_, st1) => keeps st st1
                                                 | Return _ => True
                                                 end)).
    unfold pollStatus. destruct (pullRequestInfo st) as [info|]; [|done].
    apply post_bind. intros [pr err] s2 t2 _. destruct err as [e|]; [done|].
    apply post_bind. intros [v|st1] s3 t3 Hbranch; [done|].
    cut (keeps (set_PullRequest info pr st) st1).
    { intros Hk. eapply keeps_trans; [|exact Hk]. apply keeps_set_releaseInfo. }
    destruct (bool_decide (pr_Merged pr = Some true)).
    - pose proof (mergedBranch_keeps (pri_GitProvider info) pr
                    (set_PullRequest info pr st) s2) as Hk.
      by rewrite Hbranch in Hk.
    - pose proof (openBranch_keeps (pri_GitProvider info) pr
                    (set_PullRequest info pr st) s2) as Hk.
      by rewrite Hbranch in Hk. }
  clear Hstatus. destruct r as [v|[pr st1]]; [done|].
  apply post_bind. intros st2 s2 t2 Hrebase.
  assert (Hst2 : keeps st1 st2).
  { revert Hrebase. apply (post_Ret _ (λ st2 _ _, keeps st1 st2)).
    unfold rebaseOnConflict. repeat post_skip; try apply keeps_refl.
    apply keeps_set_releaseInfo. }
  clear Hrebase. unfold deadlineCheck.
  apply post_bind. intros now s3 t3 _.
  repeat post_skip; try done. simpl. by eapply keeps_trans.
Qed.

(** X12.  Whatever the collaborators answer, over any number of rounds
    of the poll loop: a flag that records that a message was logged, once
    set, stays set; a context URL whose state was recorded stays
    recorded; and a context URL recorded with the state [success] keeps
    that state, whatever later listings report for it.  A rebase changes
    none of this. *)
Theorem rounds_keep k (st : PollState W) s st' s' t :
  rounds ns env end_ duration promoteKey k st s st' s' t -> keeps st st'.
Proof.
  induction 1 as [st s|k st s st1 s1 t1 st2 s2 t2 Hstep _ IH].
  - apply keeps_refl.
  - pose proof (pollIteration_keeps st s) as Hk. rewrite Hstep in Hk.
    by eapply keeps_trans.
Qed.

End Keeps.

(** The theorem of X12 on the second of two rounds on a merged pull
    request: the first listing reports "lint" as [success] and "deploy"
    as [pending], the second reports both as [pending]; "lint" is still
    recorded with [success] after it. *)
Lemma rounds_keep_witness :
  let c := Scripted.quiet [] [] in
  let listing1 := [Scripted.status "lint" "success"; Scripted.status "deploy" "pending"] in
  let listing2 := [Scripted.status "lint" "pending"; Scripted.status "deploy" "pending"] in
  let s0 := Scripted.at_ c 0 [(Scripted.merged, None); (Scripted.merged, None)]
              [(listing1, None); (listing2, None)] in
  let st0 := initialPollState (Scripted.tracked Scripted.openPR) in
  exists st1 s1 t1 st2 s2 t2,
    pollIteration "jx-staging" Scripted.staging Scripted.hour Scripted.hour
      Scripted.promoteKey st0 s0 = Ret (Next st1) s1 t1
    /\ rounds "jx-staging" Scripted.staging Scripted.hour Scripted.hour
         Scripted.promoteKey 1 st1 s1 st2 s2 t2
    /\ urlStatusMap st1 !! "lint" = Some gitStatusSuccess
    /\ keeps st1 st2.
Proof.
  intros c listing1 listing2 s0 st0.
  eexists _, _, _, _, _, _.
  split; [vm_compute; reflexivity|].
  match goal with
  | |- rounds ?a ?b ?d ?e ?f 1 ?st1 ?s1 ?st2 ?s2 ?t2 /\ _ =>
      assert (Hrounds : rounds a b d e f 1 st1 s1 st2 s2 t2)
  end.
  { eapply rounds_S; [vm_compute; reflexivity|apply rounds_O]. }
  split; [exact Hrounds|]. split; [vm_compute; reflexivity|].
  exact (rounds_keep _ _ _ _ _ _ _ _ _ _ _ Hrounds).
Defined.

(* ===================================================================== *)
(** * A rebase that produces no pull request *)

Section FailedRebase.
Context {W : Type} `{!Services W}.
Variables (ns : string) (env : Environment).
Variables (end_ duration : Z) (promoteKey : PromoteStepActivityKey).

(** X13.  In a round that reaches the rebase with a pull request
    reported as not mergeable, when the promoter returns no pull-request
    info (with or without an error, which is not looked at) and the
    deadline is not passed, the loop sleeps and its next round
    dereferences the nil info: the poller panics instead of returning
    an error. *)
Theorem pollLoop_failed_rebase_panics st (s : State W) pr st1 s1 t1 err s2 t2 now w3 poll :
  pollStatus ns env promoteKey st s = Ret (Next (pr, st1)) s1 t1 ->
  pr_Mergeable pr = Some false ->
  let app := o_Application (opts s1) in
  let versionName := if bool_decide (o_Version (opts s1) = "") then "latest"
                     else o_Version (opts s1) in
  let branchNameText := "promote-" ++ app ++ "-" ++ versionName in
  let title := app ++ " to " ++ versionName in
  let message := "Promote " ++ app ++ " to version " ++ versionName in
  createEnvironmentPullRequest env (modifyRequirementsFn (opts s1)) branchNameText title
    message (pullRequestInfo st1) s1
  = Ret (None, err) s2 t2 ->
  time_Now (world s2) = (now, w3) ->
  now <= end_ ->
  o_PullRequestPollDuration (opts s2) = Some poll ->
  forall fuel,
    pollLoop ns env end_ duration promoteKey (S (S fuel)) st s
    = Panic (t1 ++ [EvLog Info "Rebasing PullRequest due to conflict";
                    EvCreateEnvironmentPullRequest (env_Name env) branchNameText
                      title message]
             ++ t2 ++ [EvSleep poll])%list.
Proof.
  intros Hstatus Hconflict app versionName branchNameText title message
    Hpromoter Hnow Hearly Hpoll fuel.
  rewrite pollLoop_S. unfold pollIteration.
  rewrite bind_assoc, (bind_Ret _ _ _ _ _ _ Hstatus). cbv beta iota.
  unfold rebaseOnConflict. rewrite Hconflict.
  unfold PromoteViaPullRequest.
  rewrite !bind_assoc. erewrite bind_Ret by reflexivity. cbv beta.
  rewrite !bind_assoc. erewrite bind_Ret by reflexivity. cbv beta.
  rewrite !bind_assoc. erewrite bind_Ret by reflexivity. cbv beta.
  rewrite !bind_assoc.
  fold app versionName branchNameText title message.
  change (ri_PullRequestInfo (releaseInfo st1)) with (pullRequestInfo st1).
  rewrite (bind_Ret _ _ _ _ _ _ Hpromoter). cbv beta iota.
  rewrite !bind_mret.
  unfold deadlineCheck.
  rewrite !bind_assoc.
  erewrite bind_Ret by (unfold timeNow; rewrite Hnow; reflexivity). cbv beta.
  assert (Hle : (end_ <? now) = false) by (apply Z.ltb_ge; lia).
  rewrite Hle. rewrite !bind_assoc. erewrite bind_Ret by reflexivity. cbv beta.
  simpl opts. rewrite Hpoll.
  destruct (time_Sleep poll w3) as [[] w4] eqn:Hsleep.
  rewrite !bind_assoc. step_call Hsleep. rewrite !bind_mret.
  rewrite !prepend_prepend. rewrite pollLoop_S. unfold pollIteration, pollStatus.
  simpl. by rewrite <- !app_assoc.
Qed.

End FailedRebase.

(** The theorem of X13 on a pull request that the first refresh reports
    as conflicting, when the promoter has no pull request to offer. *)
Lemma pollLoop_failed_rebase_panics_witness :
  let c := Scripted.quiet [] [] in
  let s := Scripted.at_ c 0 [(Scripted.conflicting, None)] [] in
  let st := initialPollState (Scripted.tracked Scripted.openPR) in
  pollLoop "jx-staging" Scripted.staging Scripted.hour Scripted.hour
    Scripted.promoteKey 2 st s
  = Panic [EvUpdatePullRequestStatus "http://pr/1";
           EvPullRequestLastCommitStatus "http://pr/1";
           EvLog Info "The build for the Pull Request last commit is currently in progress.";
           EvLog Info "Rebasing PullRequest due to conflict";
           EvCreateEnvironmentPullRequest "staging" "promote-myapp-2.0.0"
             "myapp to 2.0.0" "Promote myapp to version 2.0.0";
           EvSleep 20000000000].
Proof.
  intros c s st.
  assert (Hle : 0 <= Scripted.hour) by (unfold Scripted.hour; lia).
  exact (pollLoop_failed_rebase_panics "jx-staging" Scripted.staging Scripted.hour
           Scripted.hour Scripted.promoteKey st s Scripted.conflicting
           (initialPollState (Scripted.tracked Scripted.conflicting))
           (Scripted.at_ c 0 [] [])
           [EvUpdatePullRequestStatus "http://pr/1";
            EvPullRequestLastCommitStatus "http://pr/1";
            EvLog Info "The build for the Pull Request last commit is currently in progress."]
           (Some "no pull request") (Scripted.at_ c 0 [] []) [] 0
           (world (Scripted.at_ c 0 [] [])) 20000000000
           eq_refl eq_refl eq_refl eq_refl Hle eq_refl 0%nat).
Defined.

(* ===================================================================== *)
(** * How [WaitForPromotion] ends *)

Section WaitOutcome.
Context {W : Type} `{!Services W}.

(** X14.  When both durations are set and a pull request is tracked,
    [WaitForPromotion] returns what the poll loop returns.  Whatever
    error ends the poll, also one found after the merge, the step
    recorded as failed is the pull-request step, as the last action and
    without looking at the answer of the ledger; when the poll ends
    without error nothing more is recorded. *)
Theorem WaitForPromotion_records_failure fuel ns env (ri : ReleaseInfo W) (s : State W)
    timeout poll info now w1 promoteKey w2 r s3 t3 :
  o_TimeoutDuration (opts s) = Some timeout ->
  o_PullRequestPollDuration (opts s) = Some poll ->
  ri_PullRequestInfo ri = Some info ->
  time_Now (world s) = (now, w1) ->
  createPromoteKey (opts s) env w1 = (promoteKey, w2) ->
  pollLoop ns env (now + timeout) timeout promoteKey fuel (initialPollState ri)
    (mkState (opts s) w2) = Ret r s3 t3 ->
  WaitForPromotion fuel ns env (Some ri) s
  = Ret r
        (match r with
         | Some _ =>
             mkState (opts s3)
               (OnPromotePullRequest promoteKey FailedPromotionPullRequest (world s3)).2
         | None => s3
         end)
        ([EvCreatePromoteKey (env_Name env)] ++ t3
         ++ match r with
            | Some _ => [EvOnPromotePullRequest promoteKey FailedPromotionPullRequest]
            | None => []
            end)%list.
Proof.
  intros Htimeout Hpoll Hinfo Hnow Hkey Hloop.
  unfold WaitForPromotion.
  erewrite bind_Ret by reflexivity. cbv beta. rewrite Htimeout, Hpoll.
  erewrite bind_Ret by (unfold timeNow; rewrite Hnow; reflexivity). cbv beta.
  rewrite Hinfo. step_call Hkey.
  unfold waitForGitOpsPullRequest. rewrite Hinfo.
  rewrite (bind_Ret _ _ _ _ _ _ Hloop). cbv beta iota.
  destruct r as [e|]; [|reflexivity].
  destruct (OnPromotePullRequest promoteKey FailedPromotionPullRequest (world s3))
    as [r' w4] eqn:Hfail.
  step_call Hfail. simpl. by rewrite <- ?app_assoc.
Qed.

End WaitOutcome.

(** The theorem of X14 on a merged pull request with a failed commit
    status: the pull-request step, completed a moment before, is the one
    recorded as failed. *)
Lemma WaitForPromotion_records_failure_witness :
  let c := Scripted.quiet [] [] in
  let s := Scripted.at_ c 0 [(Scripted.merged, None)] [([Scripted.failedTests], None)] in
  let t3 := [EvUpdatePullRequestStatus "http://pr/1";
             EvLog Info ("Pull Request http://pr/1 is merged at sha abc123" ++ nl);
             EvOnPromotePullRequest Scripted.promoteKey (mergedPR "abc123");
             EvOnPromoteUpdate Scripted.promoteKey StartPromotionUpdate;
             EvListCommitStatus "acme" "env-staging" "abc123";
             EvLog Warn ("merge status: failure URL: http://ci/job/7 description: tests failed"
                         ++ nl)] in
  WaitForPromotion 1 "jx-staging" Scripted.staging
    (Some (Scripted.tracked Scripted.openPR)) s
  = Ret (Some ("Status: failure URL: http://ci/job/7 description: tests failed" ++ nl))
        (Scripted.at_ c 0 [] [])
        ([EvCreatePromoteKey "staging"] ++ t3
         ++ [EvOnPromotePullRequest Scripted.promoteKey FailedPromotionPullRequest]).
Proof.
  intros c s t3.
  assert (Hloop : pollLoop "jx-staging" Scripted.staging (0 + 3600000000000)
                    3600000000000 Scripted.promoteKey 1
                    (initialPollState (Scripted.tracked Scripted.openPR))
                    (mkState (opts s) (world s))
                  = Ret (Some ("Status: failure URL: http://ci/job/7 description: tests failed"
                               ++ nl))
                        (Scripted.at_ c 0 [] []) t3)
    by (vm_compute; reflexivity).
  exact (WaitForPromotion_records_failure 1 "jx-staging" Scripted.staging
           (Scripted.tracked Scripted.openPR) s 3600000000000 20000000000
           {| pri_GitProvider := Scripted.provider; pri_PullRequest := Scripted.openPR |}
           0 (world s) Scripted.promoteKey (world s) _ _ t3
           eq_refl eq_refl eq_refl eq_refl eq_refl Hloop).
Defined.

(* ===================================================================== *)
(** * The command *)

Section RunLemmas.
Context {W : Type} `{!Services W} `{!Bootstrap W}.

Lemma quietly_Ret {X} (f : W -> X * W) (s : State W) a s1 t1 :
  quietly f s = Ret a s1 t1 -> opts s1 = opts s /\ t1 = [].
Proof. unfold quietly. destruct (f (world s)). by intros [= <- <- <-]. Qed.

(** [GetTargetNamespace] leaves the options alone, and it returns no
    environment without error only when no name was requested. *)
Lemma GetTargetNamespace_no_environment ns env (s : State W) targetNS envResource err s' t :
  GetTargetNamespace ns env s = Ret (targetNS, envResource, err) s' t ->
  opts s' = opts s /\ (err = None -> envResource = None -> env = "").
Proof.
  unfold GetTargetNamespace. go.
  cases; intros ?; simplify_eq; simpl; split; try done; intros _ ?; try done;
    match goal with
    | H : bool_decide (env ≠ "") = false |- _ =>
        apply bool_decide_eq_false_1 in H; by apply dec_stable
    end.
Qed.

Lemma DiscoverAppName_opts (s : State W) a s1 t1 :
  DiscoverAppName s = Ret a s1 t1 -> opts s1 = opts s.
Proof.
  apply (post_Ret _ (λ _ s1 _, opts s1 = opts s)). unfold DiscoverAppName.
  apply post_bind. intros [chartFile [e|]] s2 t2 [Ho _]%quietly_Ret; [by post_skip|].
  destruct (bool_decide (chartFile ≠ "")).
  - destruct (quietly (LoadChartName chartFile) s2) as [a' s3 t3| |] eqn:Hload; [|done..].
    apply quietly_Ret in Hload as [Ho' _]. simpl. congruence.
  - apply post_bind. intros [gitInfo [e|]] s3 t3 [Ho' _]%quietly_Ret;
      repeat post_skip; congruence.
Qed.

Lemma parseDurationFlag_Environment text name assign (s : State W) r s1 t1 :
  (forall d o, o_Environment (assign d o) = o_Environment o) ->
  parseDurationFlag text name assign s = Ret r s1 t1 ->
  o_Environment (opts s1) = o_Environment (opts s).
Proof.
  intros Hassign. unfold parseDurationFlag.
  destruct (bool_decide (text ≠ "")); [|by intros [= <- <- <-]].
  destruct (time_ParseDuration text) as [d [e|]]; [by intros [= <- <- <-]|].
  go. intros [= <- <- <-]. apply Hassign.
Qed.

(** When the preparation hands over no environment, none was asked for. *)
Lemma Run_prepare_no_environment cl (s : State W) targetNS s1 t1 :
  Run_prepare cl s = Ret (Next (targetNS, None)) s1 t1 ->
  o_Environment (opts s1) = "".
Proof.
  intros Hrun.
  refine (post_Ret _ (λ r s1 _, match r with
                                | Next (_, None) => o_Environment (opts s1) = ""
                                | _ => True
                                end) _ _ _ _ Hrun).
  clear Hrun. unfold Run_prepare.
  post_prim.
  apply post_bind. intros [app [e|]] s2 t2 Happ; [by post_skip|].
  assert (Ho2 : opts s2 = opts s).
  { destruct (bool_decide (o_Application (opts s) = "")); [|by prim Happ].
    destruct (Args cl); [by eapply DiscoverAppName_opts|by prim Happ]. }
  clear Happ. post_prim.
  apply post_bind. intros [e|[]] s3 t3 Hpoll; [by post_skip|].
  apply parseDurationFlag_Environment in Hpoll; [|done]. simpl in Hpoll.
  apply post_bind. intros [e|[]] s4 t4 Htimeout; [by post_skip|].
  apply parseDurationFlag_Environment in Htimeout; [|done].
  post_prim.
  apply post_bind. intros [[targetNS' envResource] err] s5 t5 Htarget.
  apply GetTargetNamespace_no_environment in Htarget as [Ho5 Hnone].
  destruct err as [e|]; [by post_skip|].
  apply post_bind. intros [e|] s6 t6 [Ho6 _]%quietly_Ret; [by post_skip|].
  apply post_bind. intros [e|] s7 t7 [Ho7 _]%quietly_Ret; [by post_skip|].
  apply post_bind. intros [e|] s8 t8 [Ho8 _]%quietly_Ret; [by post_skip|].
  apply post_bind. intros [e|] s9 t9 [Ho9 _]%quietly_Ret; [by post_skip|].
  apply post_bind. intros [e|] s10 t10 [Ho10 _]%quietly_Ret; [by post_skip|].
  apply post_bind. intros [e|] s11 t11 Hjx; [by post_skip|]. prim Hjx.
  simpl in Ho10.
  post_prim.
  destruct envResource as [envResource|].
  { repeat post_skip; done. }
  specialize (Hnone eq_refl eq_refl).
  assert (Henv : o_Environment (opts s10) = "").
  { rewrite Ho10, Ho9, Ho8, Ho7, Ho6, Ho5. by rewrite <- Hnone. }
  post_prim; post_step; simpl; by rewrite ?Henv.
Qed.

(** With both durations set, [WaitForPromotion] dereferences a nil
    release info. *)
Lemma WaitForPromotion_nil fuel ns env (s : State W) timeout poll :
  o_TimeoutDuration (opts s) = Some timeout ->
  o_PullRequestPollDuration (opts s) = Some poll ->
  WaitForPromotion fuel ns env None s = Panic [].
Proof.
  intros Htimeout Hpoll. unfold WaitForPromotion. go.
  rewrite Htimeout, Hpoll. by destruct (time_Now (world s)).
Qed.

(** Without a tracked pull request there is nothing to wait for. *)
Lemma WaitForPromotion_without_pull_request fuel ns env (ri : ReleaseInfo W) (s : State W) :
  ri_PullRequestInfo ri = None ->
  exists s' t,
    WaitForPromotion fuel ns env (Some ri) s = Ret None s' t /\ forallb isLog t = true.
Proof.
  intros Hri. unfold WaitForPromotion. go.
  destruct (o_TimeoutDuration (opts s)); [|by eexists _, _].
  destruct (o_PullRequestPollDuration (opts s)); [|by eexists _, _].
  destruct (time_Now (world s)). simpl. rewrite Hri. by eexists _, _.
Qed.

(** X15.  [Run] validates the two duration flags before it touches the
    cluster.  With the application name given by the flag, a poll time
    that does not parse ends the command with "Invalid duration format
    <text> for option --pull-request-poll-time: <error>"; a poll time
    that is empty or parses, followed by a timeout that does not parse,
    ends it with the same message for --timeout.  In both cases no call
    was made and the world is as it was. *)
Theorem Run_rejects_invalid_durations fuel cl (s : State W) :
  o_Application (opts s) <> "" ->
  (forall d e,
     PullRequestPollTime cl <> "" ->
     time_ParseDuration (PullRequestPollTime cl) = (d, Some e) ->
     exists s',
       Run fuel cl s
       = Ret (Some ("Invalid duration format " ++ PullRequestPollTime cl
                    ++ " for option --pull-request-poll-time: " ++ e)) s' []
       /\ world s' = world s)
  /\ (forall d0 d e,
        PullRequestPollTime cl = ""
        \/ time_ParseDuration (PullRequestPollTime cl) = (d0, None) ->
        Timeout cl <> "" ->
        time_ParseDuration (Timeout cl) = (d, Some e) ->
        exists s',
          Run fuel cl s
          = Ret (Some ("Invalid duration format " ++ Timeout cl
                       ++ " for option --timeout: " ++ e)) s' []
          /\ world s' = world s).
Proof.
  intros Happ. split.
  - intros d e Hset Hparse. unfold Run, Run_prepare, parseDurationFlag. go.
    rewrite (bool_decide_eq_false_2 _ Happ). simpl.
    rewrite (bool_decide_eq_true_2 _ Hset), Hparse. simpl. by eexists.
  - intros d0 d e Hpoll Hset Hparse. unfold Run, Run_prepare, parseDurationFlag. go.
    rewrite (bool_decide_eq_false_2 _ Happ). simpl.
    rewrite (bool_decide_eq_true_2 _ Hset), Hparse.
    destruct Hpoll as [Hnone|Hok].
    + rewrite bool_decide_eq_false_2 by (by intros ?). simpl. by eexists.
    + destruct (bool_decide (PullRequestPollTime cl ≠ "")); simpl.
      * rewrite Hok. simpl. by eexists.
      * by eexists.
Qed.

(** X16.  When the preparation ends with an empty application name
    (the name discovered from the Git repository, or the first
    argument, is empty) and both durations are set, the promotion to the
    one environment panics: [Promote] logs that no application name
    could be detected and returns a nil release info, which
    [WaitForPromotion] dereferences. *)
Theorem Run_without_application_name fuel cl (s : State W) targetNS env s1 t1 timeout poll :
  Run_prepare cl s = Ret (Next (targetNS, Some env)) s1 t1 ->
  o_AllAutomatic (opts s1) = false ->
  o_Application (opts s1) = "" ->
  o_TimeoutDuration (opts s1) = Some timeout ->
  o_PullRequestPollDuration (opts s1) = Some poll ->
  Run fuel cl s
  = Panic (t1 ++ [EvLog Warn ("No application name could be detected so cannot promote via Helm. If the detection of the helm chart name is not working consider adding it with the --"
                             ++ optionApplication
                             ++ " argument on the 'jx promomote' command" ++ nl)]).
Proof.
  intros Hprepare Hone Happ Htimeout Hpoll. unfold Run.
  rewrite (bind_Ret _ _ _ _ _ _ Hprepare). cbv beta iota.
  unfold Run_promote. erewrite bind_Ret by reflexivity. cbv beta. rewrite Hone.
  assert (Hpromote : Promote targetNS env true s1
                     = Ret (None, None) s1
                         [EvLog Warn ("No application name could be detected so cannot promote via Helm. If the detection of the helm chart name is not working consider adding it with the --"
                                      ++ optionApplication
                                      ++ " argument on the 'jx promomote' command" ++ nl)]).
  { unfold Promote. go. by rewrite (bool_decide_eq_true_2 _ Happ). }
  rewrite (bind_Ret _ _ _ _ _ _ Hpromote). cbv beta iota.
  rewrite (WaitForPromotion_nil _ _ _ _ _ _ Htimeout Hpoll). simpl.
  by rewrite ?app_nil_r.
Qed.

(** X17.  [Run] does not return the error of [Promote]: once the
    preparation has resolved the environment, the result of [Run] is the
    result of [WaitForPromotion] on the release info that [Promote]
    returned, whatever error came with it.  In particular, when that
    release info tracks no pull request (the direct path, or a promoter
    that failed), [Run] returns nil after logging at most. *)
Theorem Run_discards_error_of_Promote fuel cl (s : State W) targetNS env s1 t1
    releaseInfo err s2 t2 :
  Run_prepare cl s = Ret (Next (targetNS, Some env)) s1 t1 ->
  o_AllAutomatic (opts s1) = false ->
  Promote targetNS env true s1 = Ret (releaseInfo, err) s2 t2 ->
  Run fuel cl s
  = prepend (t1 ++ t2) (WaitForPromotion fuel targetNS env releaseInfo s2)
  /\ (forall ri,
        releaseInfo = Some ri ->
        ri_PullRequestInfo ri = None ->
        exists s3 t3,
          Run fuel cl s = Ret None s3 (t1 ++ t2 ++ t3) /\ forallb isLog t3 = true).
Proof.
  intros Hprepare Hone Hpromote.
  assert (Hrun : Run fuel cl s
                 = prepend (t1 ++ t2) (WaitForPromotion fuel targetNS env releaseInfo s2)).
  { unfold Run. rewrite (bind_Ret _ _ _ _ _ _ Hprepare). cbv beta iota.
    unfold Run_promote. erewrite bind_Ret by reflexivity. cbv beta. rewrite Hone.
    rewrite (bind_Ret _ _ _ _ _ _ Hpromote). cbv beta iota.
    by rewrite prepend_nil, prepend_prepend. }
  split; [exact Hrun|].
  intros ri -> Hri.
  destruct (WaitForPromotion_without_pull_request fuel targetNS env ri s2 Hri)
    as (s3 & t3 & Hwait & Hlog).
  exists s3, t3. rewrite Hrun, Hwait. simpl. by rewrite <- app_assoc.
Qed.

(** X18.  When the preparation resolves a namespace and no environment
    and the sweep is not asked for, [Run] returns the error of the
    missing option "env"; its other error for that case, "Could not find
    an Environment called <name>", is never returned: the preparation
    hands over no environment only when no name was given. *)
Theorem Run_without_environment fuel cl (s : State W) targetNS s1 t1 :
  Run_prepare cl s = Ret (Next (targetNS, None)) s1 t1 ->
  o_AllAutomatic (opts s1) = false ->
  Run fuel cl s = Ret (Some (MissingOption optionEnvironment)) s1 t1.
Proof.
  intros Hprepare Hone.
  pose proof (Run_prepare_no_environment _ _ _ _ _ Hprepare) as Henv.
  unfold Run. rewrite (bind_Ret _ _ _ _ _ _ Hprepare). cbv beta iota.
  unfold Run_promote. erewrite bind_Ret by reflexivity. cbv beta. rewrite Hone.
  rewrite (bool_decide_eq_true_2 _ Henv). simpl. by rewrite !app_nil_r.
Qed.

End RunLemmas.

(** The theorem of X15 on the poll time "soon". *)
Lemma Run_rejects_invalid_durations_witness :
  let s := mkState Scripted.options (Scripted.idle 0) in
  let cl := {| Args := []; Timeout := "1h"; PullRequestPollTime := "soon" |} in
  exists s',
    Run 1 cl s
    = Ret (Some ("Invalid duration format soon for option --pull-request-poll-time: "
                 ++ "time: invalid duration soon")) s' []
    /\ world s' = world s.
Proof.
  intros s cl.
  assert (Happ : o_Application (opts s) <> "") by done.
  assert (Hset : PullRequestPollTime cl <> "") by done.
  exact (proj1 (Run_rejects_invalid_durations 1 cl s Happ) 0
           "time: invalid duration soon" Hset eq_refl).
Defined.

(** The theorem of X16 in a Git repository without a name: no
    application is given, the one discovered is empty, and the default
    durations are set. *)
Lemma Run_without_application_name_witness :
  let s := mkState (Console.blank "staging")
             (Scripted.mkWorld (Console.nameless [Scripted.staging]) 0 [] [] [] []) in
  exists s1 t1,
    Run_prepare Console.defaults s = Ret (Next ("jx-staging", Some Scripted.staging)) s1 t1
    /\ o_Application (opts s1) = ""
    /\ Run 1 Console.defaults s
       = Panic (t1 ++ [EvLog Warn ("No application name could be detected so cannot promote via Helm. If the detection of the helm chart name is not working consider adding it with the --"
                                  ++ optionApplication
                                  ++ " argument on the 'jx promomote' command" ++ nl)]).
Proof.
  intros s. eexists _, _.
  match goal with
  | |- ?P /\ _ => assert (Hprepare : P) by (vm_compute; reflexivity)
  end.
  split; [exact Hprepare|]. split; [reflexivity|].
  exact (Run_without_application_name 1 Console.defaults s "jx-staging" Scripted.staging
           _ _ 3600000000000 20000000000 Hprepare eq_refl eq_refl eq_refl eq_refl).
Defined.

(** The theorem of X17 on "production" when the Helm client cannot be
    set up: [Promote] returns that error, [Run] returns nil. *)
Lemma Run_discards_error_of_Promote_witness :
  let s := mkState (Console.blank "production")
             (Scripted.mkWorld (Console.helmDown [Scripted.production]) 0 [] [] [] []) in
  let cl := {| Args := ["myapp"]; Timeout := "1h"; PullRequestPollTime := "20s" |} in
  exists s1 t1 ri s2 t2,
    Run_prepare cl s = Ret (Next ("jx-production", Some Scripted.production)) s1 t1
    /\ Promote "jx-production" Scripted.production true s1
       = Ret (Some ri, Some "helm is not installed") s2 t2
    /\ exists s3 t3, Run 1 cl s = Ret None s3 (t1 ++ t2 ++ t3) /\ forallb isLog t3 = true.
Proof.
  intros s cl. eexists _, _, _, _, _.
  match goal with
  | |- ?P /\ _ => assert (Hprepare : P) by (vm_compute; reflexivity)
  end.
  split; [exact Hprepare|].
  match goal with
  | |- ?P /\ _ => assert (Hpromote : P) by (vm_compute; reflexivity)
  end.
  split; [exact Hpromote|].
  exact (proj2 (Run_discards_error_of_Promote 1 cl s "jx-production" Scripted.production
                  _ _ _ _ _ _ Hprepare eq_refl Hpromote) _ eq_refl eq_refl).
Defined.

(** The theorem of X18 when neither an environment nor the sweep is
    asked for. *)
Lemma Run_without_environment_witness :
  let s := mkState (Console.blank "")
             (Scripted.mkWorld (Scripted.quiet [Scripted.staging] []) 0 [] [] [] []) in
  let cl := {| Args := ["myapp"]; Timeout := "1h"; PullRequestPollTime := "20s" |} in
  exists s1 t1,
    Run_prepare cl s = Ret (Next ("jx", None)) s1 t1
    /\ Run 1 cl s = Ret (Some "Missing option: --env") s1 t1.
Proof.
  intros s cl. eexists _, _.
  match goal with
  | |- ?P /\ _ => assert (Hprepare : P) by (vm_compute; reflexivity)
  end.
  split; [exact Hprepare|].
  exact (Run_without_environment 1 cl s "jx" _ _ Hprepare eq_refl).
Defined.

(* ===================================================================== *)
(** * The probes *)

(** Unfold the primitive operations of the probes. *)
Ltac probe_unfold :=
  unfold mbind, mret, Probe.P_bind, Probe.P_ret, Probe.bind, Probe.ret, Probe.call,
    Probe.getenv, Probe.get, Probe.modify, Probe.Infof, Probe.Warnf,
    Probe.result, Probe.final, Probe.events in *.

Section ProbeLemmas.
Context {W : Type} `{!Probe.Host W}.

Lemma probe_bind_run {A B} (m : Probe.P W A) (f : A -> Probe.P W B) s :
  (m ≫= f) s
  = let '(a, s1, t1) := m s in
    let '(b, s2, t2) := f a s1 in
    (b, s2, (t1 ++ t2)%list).
Proof. reflexivity. Qed.

(** X19.  [getJenkinsURL] prefers the answer of the lookup
    [GetJenkinsURL] to everything else: when the lookup succeeds its
    answer is returned, even an empty one, whatever the receiver had
    cached and whatever the variable JENKINS_URL holds; only when the
    lookup fails is the cached URL returned, or, if none is cached, the
    value of JENKINS_URL.  The URL returned is the one the receiver
    caches. *)
Theorem getJenkinsURL_prefers_lookup (s : Probe.State W) :
  let cached := Probe.jenkinsURL (Probe.receiver s) in
  let answer := (Probe.GetJenkinsURL (Probe.world s)).1 in
  let r := Probe.getJenkinsURL s in
  Probe.result r
  = match answer.2 with
    | None => answer.1
    | Some _ =>
        if bool_decide (cached = "") then Probe.os_Getenv "JENKINS_URL" (Probe.world s)
        else cached
    end
  /\ Probe.jenkinsURL (Probe.receiver (Probe.final r)) = Probe.result r.
Proof.
  unfold Probe.getJenkinsURL. probe_unfold. simpl.
  destruct (bool_decide (Probe.jenkinsURL (Probe.receiver s) = "")) eqn:Hcached; simpl.
  - destruct (bool_decide (Probe.os_Getenv "JENKINS_URL" (Probe.world s) = "")) eqn:Henv;
      simpl; destruct (Probe.GetJenkinsURL (Probe.world s)) as [[url [e|]] w1]; simpl;
      try done.
  - rewrite Hcached. simpl.
    destruct (Probe.GetJenkinsURL (Probe.world s)) as [[url [e|]] w1]; simpl; done.
Qed.

(** X20.  [verifyHelmConfigured] does not look at the error of
    [KubeClient].  When the Helm home directory exists, or is
    initialised without error, the local repository is registered in
    whatever namespace [KubeClient] returned, even with an error, and
    the result is the answer of that registration.  The client is
    initialised only when the directory is missing. *)
Theorem verifyHelmConfigured_ignores_cluster_error (s : Probe.State W)
    found w1 w2 ns kerr w3 r w4 :
  let dir := Probe.filepath_Join (Probe.HomeDir (Probe.world s)) ".helm" in
  let repo := o_LocalHelmRepoName (Probe.options (Probe.receiver s)) in
  Probe.FileExists dir (Probe.world s) = ((found, None), w1) ->
  (if found then w2 = w1 else Probe.helmInit "" w1 = (None, w2)) ->
  Probe.KubeClient w2 = ((ns, kerr), w3) ->
  Probe.registerLocalHelmRepo repo ns w3 = (r, w4) ->
  Probe.verifyHelmConfigured s
  = (r, Probe.mkState (Probe.receiver s) w4,
     [Probe.EvHomeDir; Probe.EvFileExists dir]
     ++ (if found then []
         else [Probe.EvLog Warn ("No helm home dir at " ++ dir
                                 ++ " so lets initialise helm client" ++ nl);
               Probe.EvHelmInit])
     ++ [Probe.EvKubeClient; Probe.EvRegisterLocalHelmRepo repo ns])%list.
Proof.
  intros dir repo Hexists Hinit Hkube Hregister. subst dir repo.
  unfold Probe.verifyHelmConfigured. probe_unfold. simpl.
  rewrite Hexists. simpl. destruct found; simpl.
  - subst w2. rewrite Hkube. simpl. rewrite Hregister. reflexivity.
  - rewrite Hinit. simpl. rewrite Hkube. simpl. rewrite Hregister. reflexivity.
Qed.

End ProbeLemmas.

(** The theorem of X20 in a build whose cluster client returns an
    error with the namespace "jx". *)
Lemma verifyHelmConfigured_ignores_cluster_error_witness :
  let s := Probe.mkState (Probe.fresh "") Probe.ci in
  Probe.verifyHelmConfigured s
  = (None, s,
     [Probe.EvHomeDir; Probe.EvFileExists "/home/jx/.helm"; Probe.EvKubeClient;
      Probe.EvRegisterLocalHelmRepo "releases" "jx"]).
Proof.
  intros s.
  exact (verifyHelmConfigured_ignores_cluster_error s true Probe.ci Probe.ci "jx"
           (Some "no cluster") Probe.ci None Probe.ci eq_refl eq_refl eq_refl eq_refl).
Defined.

(* ===================================================================== *)
(** * The key of the promotion step *)

Section Calm.
Context {W : Type} `{!Probe.Host W}.
Context {X : Type} (field : Probe.Receiver -> X).
Variable p : Probe.Event -> bool.

Lemma calm_ret {A} (a : A) : Probe.calm (W:=W) field p (mret a).
Proof. by intros s. Qed.

Lemma calm_bind {A B} (m : Probe.P W A) (f : A -> Probe.P W B) :
  Probe.calm field p m -> (forall a, Probe.calm field p (f a)) -> Probe.calm field p (m ≫= f).
Proof.
  intros Hm Hf s. specialize (Hm s). rewrite probe_bind_run.
  destruct (m s) as [[a s1] t1]. specialize (Hf a s1).
  destruct (f a s1) as [[b s2] t2]. unfold Probe.final, Probe.events in *. simpl in *.
  destruct Hm as [Hm1 Hm2], Hf as [Hf1 Hf2]. split; [congruence|].
  by rewrite forallb_app, Hm2, Hf2.
Qed.

Lemma calm_call {Y} e (f : W -> Y * W) : p e = true -> Probe.calm field p (Probe.call e f).
Proof.
  intros He s. unfold Probe.call, Probe.final, Probe.events.
  destruct (f (Probe.world s)). simpl. by rewrite He.
Qed.

Lemma calm_getenv name : p (Probe.EvGetenv name) = true -> Probe.calm field p (Probe.getenv name).
Proof. intros He. by apply calm_call. Qed.

Lemma calm_log level msg :
  p (Probe.EvLog level msg) = true ->
  Probe.calm (W:=W) field p (λ s, (tt, s, [Probe.EvLog level msg])).
Proof. intros He s. unfold Probe.final, Probe.events. simpl. by rewrite He. Qed.

Lemma calm_get : Probe.calm (W:=W) field p Probe.get.
Proof. by intros s. Qed.

Lemma calm_modify f :
  (forall o, field (f o) = field o) ->
  Probe.calm (W:=W) field p (Probe.modify f).
Proof. intros Hf s. unfold Probe.modify, Probe.final, Probe.events. simpl. by rewrite Hf. Qed.

End Calm.

(** Prove that a computation is calm, step by step. *)
Ltac calm_step :=
  lazymatch goal with
  | |- Probe.calm _ _ (_ ≫= _) => apply calm_bind; [|intros ?]
  | |- Probe.calm _ _ (mret _) => apply calm_ret
  | |- Probe.calm _ _ (Probe.call _ _) => apply calm_call; reflexivity
  | |- Probe.calm _ _ (Probe.getenv _) => apply calm_getenv; reflexivity
  | |- Probe.calm _ _ (Probe.Infof _) => apply calm_log; reflexivity
  | |- Probe.calm _ _ (Probe.Warnf _) => apply calm_log; reflexivity
  | |- Probe.calm _ _ Probe.get => apply calm_get
  | |- Probe.calm _ _ (Probe.modify _) => apply calm_modify; by intros ?
  | |- Probe.calm _ _ (if ?b then _ else _) => destruct b
  | |- Probe.calm _ _ (match ?x with _ => _ end) => destruct x
  | |- Probe.calm _ _ (let '(_, _) := ?x in _) => destruct x
  end.

Section PromoteKey.
Context {W : Type} `{!Probe.Host W}.

Lemma probe_post_bind {A B} (m : Probe.P W A) (f : A -> Probe.P W B) s Q :
  (forall a s1 t1, m s = (a, s1, t1) ->
                   Probe.post (f a s1) (λ b s2 t2, Q b s2 (t1 ++ t2)%list)) ->
  Probe.post ((m ≫= f) s) Q.
Proof.
  intros Hf. rewrite probe_bind_run. destruct (m s) as [[a s1] t1].
  specialize (Hf a s1 t1 eq_refl). unfold Probe.post in *.
  by destruct (f a s1) as [[b s2] t2].
Qed.

(** What a calm computation returns. *)
Lemma calm_run {A X} (field : Probe.Receiver -> X) p (m : Probe.P W A) s a s1 t1 :
  Probe.calm field p m -> m s = (a, s1, t1) ->
  field (Probe.receiver s1) = field (Probe.receiver s) /\ forallb p t1 = true.
Proof. intros Hm Hrun. specialize (Hm s). by rewrite Hrun in Hm. Qed.

Lemma getJenkinsURL_calm :
  Probe.calm (W:=W) Probe.releaseResource (negb ∘ Probe.isGetRelease)
    Probe.getJenkinsURL.
Proof. unfold Probe.getJenkinsURL. repeat calm_step. Qed.

Lemma getLatestPipelineBuild_calm pipeline :
  Probe.calm (W:=W) Probe.releaseResource (negb ∘ Probe.isGetRelease)
    (Probe.getLatestPipelineBuild pipeline).
Proof. unfold Probe.getLatestPipelineBuild. repeat calm_step. Qed.

Lemma defaultPipeline_calm gitInfo pipeline build :
  Probe.calm (W:=W) Probe.releaseResource (negb ∘ Probe.isGetRelease)
    (Probe.defaultPipeline gitInfo pipeline build).
Proof.
  unfold Probe.defaultPipeline.
  repeat first [apply getLatestPipelineBuild_calm|calm_step].
Qed.

Lemma buildURLs_calm pipeline build buildURL buildLogsURL :
  Probe.calm (W:=W) Probe.releaseResource (negb ∘ Probe.isGetRelease)
    (Probe.buildURLs pipeline build buildURL buildLogsURL).
Proof.
  unfold Probe.buildURLs. repeat first [apply getJenkinsURL_calm|calm_step].
Qed.

(** X21.  The release resource is looked up at most once.  When the
    receiver already holds one (from an earlier call of
    [createPromoteKey], or from the issue notifier), [createPromoteKey]
    makes no lookup of a release, on any path: the release notes URL of
    the key is that of the resource held, which the receiver still holds
    afterwards. *)
Theorem createPromoteKey_release_cached env (s : Probe.State W) release :
  Probe.releaseResource (Probe.receiver s) = Some release ->
  let r := Probe.createPromoteKey env s in
  Probe.k_ReleaseNotesURL (Probe.pipelineActivityKey (Probe.result r))
  = Probe.rel_ReleaseNotesURL release
  /\ Probe.releaseResource (Probe.receiver (Probe.final r)) = Some release
  /\ forallb (negb ∘ Probe.isGetRelease) (Probe.events r) = true.
Proof.
  intros Hheld r. subst r.
  change (Probe.post (Probe.createPromoteKey env s)
            (λ key s' t,
               Probe.k_ReleaseNotesURL (Probe.pipelineActivityKey key)
               = Probe.rel_ReleaseNotesURL release
               /\ Probe.releaseResource (Probe.receiver s') = Some release
               /\ forallb (negb ∘ Probe.isGetRelease) t = true)).
  unfold Probe.createPromoteKey.
  apply probe_post_bind. intros pipeline s1 t1 H1.
  apply (calm_run Probe.releaseResource (negb ∘ Probe.isGetRelease)) in H1 as [R1 E1];
    [|repeat calm_step].
  apply probe_post_bind. intros build s2 t2 H2.
  apply (calm_run Probe.releaseResource (negb ∘ Probe.isGetRelease)) in H2 as [R2 E2];
    [|repeat calm_step].
  apply probe_post_bind. intros buildURL s3 t3 H3.
  apply (calm_run Probe.releaseResource (negb ∘ Probe.isGetRelease)) in H3 as [R3 E3];
    [|repeat calm_step].
  apply probe_post_bind. intros buildLogsURL s4 t4 H4.
  apply (calm_run Probe.releaseResource (negb ∘ Probe.isGetRelease)) in H4 as [R4 E4];
    [|repeat calm_step].
  apply probe_post_bind. intros [gitInfo err] s5 t5 H5.
  apply (calm_run Probe.releaseResource (negb ∘ Probe.isGetRelease)) in H5 as [R5 E5];
    [|repeat calm_step].
  assert (Hs5 : Probe.releaseResource (Probe.receiver s5) = Some release) by congruence.
  apply probe_post_bind. intros [] s6 t6 H6.
  assert (H6' : s6 = s5 /\ t6 = []).
  { unfold Probe.lookupRelease in H6. probe_unfold. simpl in H6. rewrite Hs5 in H6.
    simpl in H6. by injection H6 as <- <-. }
  destruct H6' as [-> ->]. clear H6.
  apply probe_post_bind. intros o s7 t7 H7.
  injection H7 as <- <- <-. rewrite Hs5.
  apply probe_post_bind. intros [] s8 t8 H8.
  apply (calm_run Probe.releaseResource (negb ∘ Probe.isGetRelease)) in H8 as [R8 E8];
    [|repeat calm_step].
  apply probe_post_bind. intros [pipeline' build'] s9 t9 H9.
  apply (calm_run _ _ _ _ _ _ _ (defaultPipeline_calm _ _ _)) in H9 as [R9 E9].
  apply probe_post_bind. intros [[name buildURL'] buildLogsURL'] s10 t10 H10.
  apply (calm_run _ _ _ _ _ _ _ (buildURLs_calm _ _ _ _)) in H10 as [R10 E10].
  apply probe_post_bind. intros [] s11 t11 H11.
  injection H11 as <- <-. unfold Probe.post, Probe.result, Probe.final, Probe.events.
  simpl. split; [done|]. split; [congruence|].
  by rewrite !forallb_app, E1, E2, E3, E4, E5, E8, E9, E10.
Qed.

End PromoteKey.

Section PromoteKeyInPipeline.
Context {W : Type} `{!Probe.Host W}.

Local Abbreviation undiscovering :=
  (λ e, negb (Probe.isJenkins e || Probe.isGitBranch e)).

Lemma lookupRelease_calm env :
  Probe.calm (W:=W) Probe.jenkinsURL undiscovering (Probe.lookupRelease env).
Proof. unfold Probe.lookupRelease. repeat calm_step. Qed.

Lemma getenv_run name (s : Probe.State W) a s1 t1 :
  Probe.getenv name s = (a, s1, t1) ->
  a = Probe.os_Getenv name (Probe.world s)
  /\ Probe.receiver s1 = Probe.receiver s /\ Probe.world s1 = Probe.world s
  /\ t1 = [Probe.EvGetenv name].
Proof. unfold Probe.getenv, Probe.call. by intros [= <- <- <-]. Qed.

(** X22.  In a build of a pipeline, where the variables JOB_NAME,
    BUILD_NUMBER, BUILD_URL and BUILD_LOG_URL are all set,
    [createPromoteKey] takes the pipeline, the build and the two URLs of
    the key from these variables, names the key after
    "<JOB_NAME>-<BUILD_NUMBER>" and the environment, and asks neither
    Jenkins nor the working copy for its branch; the Jenkins URL cached
    by the receiver is left as it is. *)
Theorem createPromoteKey_in_pipeline env (s : Probe.State W) :
  let job := Probe.os_Getenv "JOB_NAME" (Probe.world s) in
  let number := Probe.os_Getenv "BUILD_NUMBER" (Probe.world s) in
  let url := Probe.os_Getenv "BUILD_URL" (Probe.world s) in
  let logs := Probe.os_Getenv "BUILD_LOG_URL" (Probe.world s) in
  job <> "" -> number <> "" -> url <> "" -> logs <> "" ->
  let r := Probe.createPromoteKey env s in
  let key := Probe.pipelineActivityKey (Probe.result r) in
  Probe.k_Name key = Probe.ToValidName (job ++ "-" ++ number)
  /\ Probe.k_Pipeline key = job
  /\ Probe.k_Build key = number
  /\ Probe.k_BuildURL key = url
  /\ Probe.k_BuildLogsURL key = logs
  /\ Probe.k_Environment (Probe.result r) = env_Name env
  /\ forallb undiscovering (Probe.events r) = true
  /\ Probe.jenkinsURL (Probe.receiver (Probe.final r))
     = Probe.jenkinsURL (Probe.receiver s).
Proof.
  intros job number url logs Hjob Hnumber Hurl Hlogs r key. subst r key.
  change (Probe.post (Probe.createPromoteKey env s)
            (λ k s' t,
               let key := Probe.pipelineActivityKey k in
               Probe.k_Name key = Probe.ToValidName (job ++ "-" ++ number)
               /\ Probe.k_Pipeline key = job
               /\ Probe.k_Build key = number
               /\ Probe.k_BuildURL key = url
               /\ Probe.k_BuildLogsURL key = logs
               /\ Probe.k_Environment k = env_Name env
               /\ forallb undiscovering t = true
               /\ Probe.jenkinsURL (Probe.receiver s')
                  = Probe.jenkinsURL (Probe.receiver s))).
  unfold Probe.createPromoteKey.
  apply probe_post_bind. intros ? s1 t1 (-> & R1 & W1 & ->)%getenv_run.
  apply probe_post_bind. intros ? s2 t2 (-> & R2 & W2 & ->)%getenv_run.
  apply probe_post_bind. intros ? s3 t3 (-> & R3 & W3 & ->)%getenv_run.
  apply probe_post_bind. intros ? s4 t4 (-> & R4 & W4 & ->)%getenv_run.
  rewrite W1. rewrite W2, W1. rewrite W3, W2, W1.
  fold job number url logs.
  apply probe_post_bind. intros [gitInfo err] s5 t5 H5.
  apply (calm_run Probe.jenkinsURL undiscovering) in H5 as [R5 E5]; [|repeat calm_step].
  apply probe_post_bind. intros [] s6 t6 H6.
  apply (calm_run _ _ _ _ _ _ _ (lookupRelease_calm env)) in H6 as [R6 E6].
  apply probe_post_bind. intros o s7 t7 H7. injection H7 as <- <- <-.
  apply probe_post_bind. intros [] s8 t8 H8.
  apply (calm_run Probe.jenkinsURL undiscovering) in H8 as [R8 E8]; [|repeat calm_step].
  unfold Probe.defaultPipeline.
  rewrite (bool_decide_eq_false_2 _ Hjob), (bool_decide_eq_false_2 _ Hnumber).
  apply probe_post_bind. intros [pipeline' build'] s9 t9 H9.
  injection H9 as <- <- <- <-.
  unfold Probe.buildURLs.
  rewrite (bool_decide_eq_true_2 _ Hnumber), (bool_decide_eq_false_2 _ Hurl),
    (bool_decide_eq_false_2 _ Hlogs).
  apply probe_post_bind. intros [[name buildURL'] buildLogsURL'] s10 t10 H10.
  injection H10 as <- <- <- <- <-.
  apply probe_post_bind. intros [] s11 t11 H11. injection H11 as <- <-.
  unfold Probe.post, Probe.result, Probe.final, Probe.events. simpl.
  repeat split; try done.
  - by rewrite !forallb_app, E5, E6, E8.
  - congruence.
Qed.

(** X23.  Outside a pipeline (JOB_NAME is not set), with a Git
    repository, the pipeline is "<organisation>/<repository>/<branch>",
    put together by [UrlJoin], where a branch that cannot be determined
    is taken to be "master".  If BUILD_NUMBER is set the build is kept
    and Jenkins is not asked; if it is not, the build is the number of the
    last build of that job in Jenkins, and when Jenkins cannot be asked
    or does not know the job, the pipeline is given up: pipeline and
    build are both left empty. *)
Theorem defaultPipeline_from_git gitInfo build (s : Probe.State W) branch berr w1 :
  Probe.Git_Branch (Probe.world s) = ((branch, berr), w1) ->
  let pipeline :=
    Probe.UrlJoin [gi_Organisation gitInfo; gi_Name gitInfo;
                   if bool_decide (branch = "") then "master" else branch] in
  let r := Probe.defaultPipeline (Some gitInfo) "" build s in
  (build <> "" ->
   Probe.result r = (pipeline, build)
   /\ forallb (negb ∘ Probe.isJenkins) (Probe.events r) = true)
  /\ (build = "" ->
      forall jerr w2,
        Probe.JenkinsClient w1 = (jerr, w2) ->
        (jerr <> None -> Probe.result r = ("", ""))
        /\ (jerr = None ->
            forall number err w3,
              Probe.GetJobByPath (split_on "/"%char pipeline) w2 = ((number, err), w3) ->
              Probe.result r
              = match err with
                | Some _ => ("", "")
                | None => (pipeline, strconv_Itoa number)
                end)).
Proof.
  intros Hbranch pipeline r. subst r. split.
  - intros Hbuild. unfold Probe.defaultPipeline. probe_unfold. simpl.
    rewrite Hbranch. simpl. rewrite (bool_decide_eq_false_2 _ Hbuild).
    fold pipeline. destruct berr; simpl; destruct (bool_decide (pipeline = "")); done.
  - intros -> jerr w2 Hjenkins. split.
    + intros Hjerr. destruct jerr as [e|]; [|done].
      unfold Probe.defaultPipeline, Probe.getLatestPipelineBuild. probe_unfold. simpl.
      rewrite Hbranch. fold pipeline. destruct berr; simpl; rewrite Hjenkins; done.
    + intros -> number err w3 Hjob.
      unfold Probe.defaultPipeline, Probe.getLatestPipelineBuild. probe_unfold. simpl.
      rewrite Hbranch. fold pipeline.
      destruct berr; simpl; rewrite Hjenkins; simpl; rewrite Hjob; destruct err; simpl;
        try done; by destruct (bool_decide (pipeline = "")).
Qed.

End PromoteKeyInPipeline.

(** The theorem of X22 in the build 7 of the pipeline
    "acme/myapp/master". *)
Lemma createPromoteKey_in_pipeline_witness :
  let s := Probe.mkState (Probe.fresh "staging-myapp") Probe.ci in
  let r := Probe.createPromoteKey Scripted.staging s in
  let key := Probe.pipelineActivityKey (Probe.result r) in
  Probe.k_Name key = "acme/myapp/master-7"
  /\ Probe.k_Pipeline key = "acme/myapp/master"
  /\ Probe.k_Build key = "7"
  /\ Probe.k_BuildURL key = "http://jenkins/job/acme/job/myapp/job/master/7/"
  /\ Probe.k_BuildLogsURL key = "http://jenkins/job/acme/job/myapp/job/master/7/console"
  /\ Probe.k_Environment (Probe.result r) = "staging"
  /\ forallb (λ e, negb (Probe.isJenkins e || Probe.isGitBranch e)) (Probe.events r) = true
  /\ Probe.jenkinsURL (Probe.receiver (Probe.final r)) = "".
Proof.
  intros s.
  assert (H1 : Probe.os_Getenv "JOB_NAME" (Probe.world s) <> "") by (vm_compute; done).
  assert (H2 : Probe.os_Getenv "BUILD_NUMBER" (Probe.world s) <> "") by (vm_compute; done).
  assert (H3 : Probe.os_Getenv "BUILD_URL" (Probe.world s) <> "") by (vm_compute; done).
  assert (H4 : Probe.os_Getenv "BUILD_LOG_URL" (Probe.world s) <> "") by (vm_compute; done).
  exact (createPromoteKey_in_pipeline Scripted.staging s H1 H2 H3 H4).
Defined.

(** The theorem of X21 on the second of two calls in that build: the
    first call found the release "staging-myapp". *)
Lemma createPromoteKey_release_cached_witness :
  let s := Probe.mkState (Probe.fresh "staging-myapp") Probe.ci in
  let release := {| Probe.rel_ReleaseNotesURL := "http://notes/2.0.0";
                    Probe.rel_Issues := [] |} in
  let s1 := Probe.final (Probe.createPromoteKey Scripted.staging s) in
  let r := Probe.createPromoteKey Scripted.production s1 in
  Probe.releaseResource (Probe.receiver s) = None
  /\ Probe.releaseResource (Probe.receiver s1) = Some release
  /\ Probe.k_ReleaseNotesURL (Probe.pipelineActivityKey (Probe.result r))
     = "http://notes/2.0.0"
  /\ Probe.releaseResource (Probe.receiver (Probe.final r)) = Some release
  /\ forallb (negb ∘ Probe.isGetRelease) (Probe.events r) = true.
Proof.
  intros s release s1.
  assert (Hheld : Probe.releaseResource (Probe.receiver s1) = Some release)
    by (vm_compute; reflexivity).
  split; [reflexivity|]. split; [exact Hheld|].
  exact (createPromoteKey_release_cached Scripted.production s1 release Hheld).
Defined.

(** The theorem of X23 in a developer's shell: the branch cannot be
    determined, Jenkins knows the job and its last build, 12. *)
Lemma defaultPipeline_from_git_witness :
  let s := Probe.mkState (Probe.fresh "") Probe.shell in
  let gitInfo := {| gi_Organisation := "acme"; gi_Name := "myapp" |} in
  Probe.result (Probe.defaultPipeline (Some gitInfo) "" "" s) = ("acme/myapp/master", "12").
Proof.
  intros s gitInfo.
  exact (proj2 (proj2 (defaultPipeline_from_git gitInfo "" s "" None Probe.shell eq_refl)
                  eq_refl None Probe.shell eq_refl)
           eq_refl 12 None Probe.shell eq_refl).
Defined.

(* ===================================================================== *)
(** * The comments on the issues of a release *)

Section IssueComments.
Context {W : Type} `{!Probe.Host W}.

Local Abbreviation notComment :=
  (λ e, match e with Probe.EvCreateIssueComment _ _ _ _ => false | _ => true end).

Local Abbreviation notService :=
  (λ e, match e with Probe.EvFindServiceURL _ _ => false | _ => true end).

Lemma commentsOf_app t1 t2 :
  Probe.commentsOf (t1 ++ t2) = (Probe.commentsOf t1 ++ Probe.commentsOf t2)%list.
Proof. apply omap_app. Qed.

Lemma commentsOf_nil t : forallb notComment t = true -> Probe.commentsOf t = [].
Proof.
  induction t as [|e t IH]; [done|]. simpl. intros [He Ht]%andb_true_iff.
  unfold Probe.commentsOf in *. simpl. destruct e; try done; by apply IH.
Qed.

Lemma servicesOf_app t1 t2 :
  Probe.servicesOf (t1 ++ t2) = (Probe.servicesOf t1 ++ Probe.servicesOf t2)%list.
Proof. apply omap_app. Qed.

Lemma servicesOf_nil t : forallb notService t = true -> Probe.servicesOf t = [].
Proof.
  induction t as [|e t IH]; [done|]. simpl. intros [He Ht]%andb_true_iff.
  unfold Probe.servicesOf in *. simpl. destruct e; try done; by apply IH.
Qed.

Lemma findServiceURL_calm {X} (field : Probe.Receiver -> X) p ens appNames :
  (forall ns name, p (Probe.EvFindServiceURL ns name) = true) ->
  forall url, Probe.calm (W:=W) field p (Probe.findServiceURL ens appNames url).
Proof.
  intros Hp. induction appNames as [|n rest IH]; intros url; simpl; [apply calm_ret|].
  apply calm_bind; [apply calm_call; apply Hp|intros [url' err]].
  destruct (bool_decide (url' ≠ "")); [apply calm_ret|apply IH].
Qed.

Lemma findIngressHost_calm {X} (field : Probe.Receiver -> X) p ens app url available :
  (forall ns name, p (Probe.EvGetIngress ns name) = true) ->
  Probe.calm (W:=W) field p (Probe.findIngressHost ens app url available).
Proof.
  intros Hp. unfold Probe.findIngressHost.
  repeat first [apply calm_call; apply Hp|calm_step].
Qed.

(** One issue: a comment exactly when the issue is commentable. *)
Lemma commentOnIssue_run gitInfo envName versionMessage available issue (s : Probe.State W) :
  let r := Probe.commentOnIssue gitInfo envName versionMessage available issue s in
  let comment := ":white_check_mark: the fix for this issue is now deployed to **"
                 ++ envName ++ "** in version " ++ versionMessage ++ " " ++ available in
  Probe.commentsOf (Probe.events r)
  = match Probe.commentable issue with
    | Some number => [(number, comment)]
    | None => []
    end
  /\ Probe.receiver (Probe.final r) = Probe.receiver s.
Proof.
  unfold Probe.commentOnIssue, Probe.commentable. probe_unfold.
  destruct (Probe.issue_IsClosed issue); [|done]. simpl.
  case_bool_decide as Hid; simpl.
  - destruct (strconv_Atoi (Probe.issue_ID issue)) as [number|]; [|done].
    destruct (0 <? number); [|done]. simpl.
    destruct (Probe.CreateIssueComment _ _ _ _ _) as [[e|] w1]; done.
  - rewrite Hid. done.
Qed.

Lemma forEach_commentOnIssue gitInfo envName versionMessage available issues :
  forall s : Probe.State W,
  let r := Probe.forEach (Probe.commentOnIssue gitInfo envName versionMessage available)
             issues s in
  let comment := ":white_check_mark: the fix for this issue is now deployed to **"
                 ++ envName ++ "** in version " ++ versionMessage ++ " " ++ available in
  Probe.commentsOf (Probe.events r)
  = omap (λ issue, (λ number, (number, comment)) <$> Probe.commentable issue) issues
  /\ Probe.receiver (Probe.final r) = Probe.receiver s.
Proof.
  induction issues as [|issue rest IH]; intros s; [done|].
  simpl Probe.forEach. rewrite probe_bind_run.
  pose proof (commentOnIssue_run gitInfo envName versionMessage available issue s)
    as [Hc Hr].
  destruct (Probe.commentOnIssue _ _ _ _ _ s) as [[[] s1] t1].
  specialize (IH s1). simpl in IH.
  destruct (Probe.forEach _ rest s1) as [[[] s2] t2].
  unfold Probe.final, Probe.events in *. simpl in *.
  destruct IH as [IHc IHr]. split; [|congruence].
  rewrite commentsOf_app, Hc, IHc.
  by destruct (Probe.commentable issue).
Qed.

Lemma forEach_commentOnIssue_run gitInfo envName versionMessage available issues
    (s : Probe.State W) u s' t :
  Probe.forEach (Probe.commentOnIssue gitInfo envName versionMessage available) issues s
  = (u, s', t) ->
  Probe.commentsOf t
  = omap (λ issue,
            (λ number,
               (number,
                ":white_check_mark: the fix for this issue is now deployed to **"
                ++ envName ++ "** in version " ++ versionMessage ++ " " ++ available))
            <$> Probe.commentable issue) issues
  /\ Probe.receiver s' = Probe.receiver s.
Proof.
  intros Hrun.
  pose proof (forEach_commentOnIssue gitInfo envName versionMessage available issues s)
    as Hall.
  cbv zeta in Hall. by rewrite Hrun in Hall.
Qed.

Lemma findApplicationURL_calm {X} (field : Probe.Receiver -> X) p ens app promoteKey :
  (forall ns name, p (Probe.EvFindServiceURL ns name) = true) ->
  (forall ns name, p (Probe.EvGetIngress ns name) = true) ->
  (forall level msg, p (Probe.EvLog level msg) = true) ->
  Probe.calm (W:=W) field p (Probe.findApplicationURL ens app promoteKey).
Proof.
  intros Hs Hi Hl. unfold Probe.findApplicationURL.
  repeat first [apply findServiceURL_calm; exact Hs
               |apply findIngressHost_calm; exact Hi
               |apply calm_log; apply Hl
               |calm_step].
Qed.

(** X24.  The second half of [commentOnIssues] asks for the release
    "<app>-<version>" of the namespace, after it has looked for the URL
    of the application, and what it does then is decided by that answer.
    When the answer is a release without error, the receiver holds that
    release afterwards, and the comments created are exactly one for
    each issue of that release that is closed and whose identifier is
    the decimal notation of a positive number, in the order of the
    release and all with the same text, which ends with the availability
    note computed before; an issue that is open, or whose identifier is
    empty, not a number or not positive, gets no comment, and a comment
    that the provider refuses does not stop the loop.  On any other
    answer no comment is created and the receiver keeps the release it
    held. *)
Theorem commentOnClosedIssues_comments ens envName app version gitInfo promoteKey
    (s : Probe.State W) :
  let p := Probe.findApplicationURL ens app promoteKey s in
  let available := (Probe.result p).2 in
  let releaseName := Probe.ToValidNameWithDots (app ++ "-" ++ version) in
  let found := (Probe.Releases_Get ens releaseName (Probe.world (Probe.final p))).1 in
  let r := Probe.commentOnClosedIssues ens envName app version gitInfo promoteKey s in
  match found with
  | (Some release, None) =>
      let versionMessage :=
        if bool_decide (Probe.rel_ReleaseNotesURL release ≠ "") then
          "[" ++ version ++ "](" ++ Probe.rel_ReleaseNotesURL release ++ ")"
        else version in
      let comment := ":white_check_mark: the fix for this issue is now deployed to **"
                     ++ envName ++ "** in version " ++ versionMessage ++ " "
                     ++ available in
      Probe.commentsOf (Probe.events r)
      = omap (λ issue, (λ number, (number, comment)) <$> Probe.commentable issue)
          (Probe.rel_Issues release)
      /\ Probe.releaseResource (Probe.receiver (Probe.final r)) = Some release
  | _ =>
      Probe.commentsOf (Probe.events r) = []
      /\ Probe.releaseResource (Probe.receiver (Probe.final r))
         = Probe.releaseResource (Probe.receiver s)
  end.
Proof.
  intros p available releaseName found r. subst r.
  change (Probe.post
            (Probe.commentOnClosedIssues ens envName app version gitInfo promoteKey s)
            (λ _ s' t,
               match found with
               | (Some release, None) =>
                   Probe.commentsOf t
                   = omap (λ issue,
                             (λ number,
                                (number,
                                 ":white_check_mark: the fix for this issue is now deployed to **"
                                 ++ envName ++ "** in version "
                                 ++ (if bool_decide (Probe.rel_ReleaseNotesURL release ≠ "")
                                     then "[" ++ version ++ "]("
                                          ++ Probe.rel_ReleaseNotesURL release ++ ")"
                                     else version)
                                 ++ " " ++ available))
                             <$> Probe.commentable issue)
                       (Probe.rel_Issues release)
                   /\ Probe.releaseResource (Probe.receiver s') = Some release
               | _ =>
                   Probe.commentsOf t = []
                   /\ Probe.releaseResource (Probe.receiver s')
                      = Probe.releaseResource (Probe.receiver s)
               end)).
  unfold Probe.commentOnClosedIssues. fold releaseName.
  apply probe_post_bind. intros [key' available'] s5 t5 Hp.
  subst found available p. rewrite Hp. unfold Probe.result, Probe.final. simpl.
  apply (calm_run Probe.releaseResource notComment) in Hp as [R5 E5];
    [|by apply findApplicationURL_calm].
  apply commentsOf_nil in E5.
  apply probe_post_bind. intros [release err] s6 t6 H6.
  unfold Probe.call in H6.
  destruct (Probe.Releases_Get ens releaseName (Probe.world s5)) as [[release' err'] w6].
  injection H6 as <- <- <- <-. simpl.
  destruct release' as [release|]; [destruct err' as [e|]|].
  - unfold Probe.post, Probe.events, Probe.final. simpl.
    by rewrite !commentsOf_app, E5.
  - rewrite probe_bind_run. unfold Probe.modify at 1. rewrite probe_bind_run.
    simpl.
    match goal with
    | |- context [Probe.forEach ?f ?l ?s0] =>
        destruct (Probe.forEach f l s0) as [[[] s7] t7] eqn:Hrun
    end.
    apply forEach_commentOnIssue_run in Hrun as [Hc Hr].
    unfold Probe.post, Probe.result, Probe.final, Probe.events in *. simpl in *.
    split; [|by rewrite Hr].
    rewrite app_nil_r, commentsOf_app, E5. exact Hc.
  - unfold Probe.post, Probe.events, Probe.final. simpl.
    destruct err'; by rewrite !commentsOf_app, E5.
Qed.

End IssueComments.

(* ===================================================================== *)
(** * The application URL of the promote key *)

Section ApplicationURL.
Context {W : Type} `{!Probe.Host W}.

(** Neither a service nor an ingress is looked up. *)
Local Abbreviation settled :=
  (λ e, match e with
        | Probe.EvFindServiceURL _ _ | Probe.EvGetIngress _ _ => false
        | _ => true
        end).

Lemma settled_services t : forallb settled t = true -> Probe.servicesOf t = [].
Proof.
  induction t as [|e t IH]; [done|]. simpl. intros [He Ht]%andb_true_iff.
  unfold Probe.servicesOf in *. simpl. destruct e; try done; by apply IH.
Qed.

Lemma settled_ingresses t :
  forallb settled t = true -> forallb (negb ∘ Probe.isGetIngress) t = true.
Proof.
  induction t as [|e t IH]; [done|]. simpl. intros [He Ht]%andb_true_iff.
  rewrite (IH Ht). by destruct e.
Qed.

Lemma forEach_calm {A X} (field : Probe.Receiver -> X) p (f : A -> Probe.P W unit) l :
  (forall x, Probe.calm field p (f x)) -> Probe.calm field p (Probe.forEach f l).
Proof.
  intros Hf. induction l as [|x l IH]; simpl; [apply calm_ret|].
  apply calm_bind; [apply Hf|by intros ?].
Qed.

Lemma commentOnIssue_calm gitInfo envName versionMessage available issue :
  Probe.calm (W:=W) Probe.options settled
    (Probe.commentOnIssue gitInfo envName versionMessage available issue).
Proof. unfold Probe.commentOnIssue. repeat calm_step. Qed.

(** The loop over the three names, call by call. *)
Lemma findServiceURL_run ens n1 n2 n3 (s : Probe.State W) :
  let a1 := Probe.FindServiceURL ens n1 (Probe.world s) in
  let a2 := Probe.FindServiceURL ens n2 a1.2 in
  let a3 := Probe.FindServiceURL ens n3 a2.2 in
  Probe.findServiceURL ens [n1; n2; n3] "" s
  = if bool_decide (a1.1.1 ≠ "") then
      (a1.1.1, Probe.mkState (Probe.receiver s) a1.2, [Probe.EvFindServiceURL ens n1])
    else if bool_decide (a2.1.1 ≠ "") then
      (a2.1.1, Probe.mkState (Probe.receiver s) a2.2,
       [Probe.EvFindServiceURL ens n1; Probe.EvFindServiceURL ens n2])
    else
      (a3.1.1, Probe.mkState (Probe.receiver s) a3.2,
       [Probe.EvFindServiceURL ens n1; Probe.EvFindServiceURL ens n2;
        Probe.EvFindServiceURL ens n3]).
Proof.
  intros a1 a2 a3. subst a1 a2 a3. simpl Probe.findServiceURL. probe_unfold.
  destruct (Probe.FindServiceURL ens n1 (Probe.world s)) as [[u1 e1] w1]. simpl.
  destruct (bool_decide (u1 ≠ "")); [done|]. simpl.
  destruct (Probe.FindServiceURL ens n2 w1) as [[u2 e2] w2]. simpl.
  destruct (bool_decide (u2 ≠ "")); [done|]. simpl.
  destruct (Probe.FindServiceURL ens n3 w2) as [[u3 e3] w3]. simpl.
  by destruct (bool_decide (u3 ≠ "")).
Qed.

Lemma servicesOf_asked ens names :
  Probe.servicesOf (map (Probe.EvFindServiceURL ens) names) = names.
Proof.
  induction names as [|n names IH]; [done|].
  change (n :: Probe.servicesOf (map (Probe.EvFindServiceURL ens) names) = n :: names).
  by rewrite IH.
Qed.

Lemma ingress_asked ens names :
  forallb (negb ∘ Probe.isGetIngress) (map (Probe.EvFindServiceURL ens) names) = true.
Proof. by induction names. Qed.

(** A computation followed by one that looks up no service and no
    ingress. *)
Lemma settled_tail {A B} (m : Probe.P W A) (f : A -> Probe.P W B) s a s1 t1 b :
  m s = (a, s1, t1) ->
  Probe.calm Probe.options settled (f a) ->
  Probe.result (f a s1) = b ->
  exists s' t', (m ≫= f) s = (b, s', (t1 ++ t')%list) /\ forallb settled t' = true.
Proof.
  intros Hm Hcalm Hres. rewrite probe_bind_run, Hm.
  destruct (Hcalm s1) as [_ Ht]. destruct (f a s1) as [[b' s2] t2].
  unfold Probe.result, Probe.events in *. simpl in *. subst b'. by eauto.
Qed.

(** What follows the search for the URL looks up no service and no
    ingress, and returns the key it is given. *)
Lemma commentOnClosedIssues_run ens envName app version gitInfo promoteKey
    (s : Probe.State W) key' available s5 t5 :
  Probe.findApplicationURL ens app promoteKey s = ((key', available), s5, t5) ->
  exists s' t',
    Probe.commentOnClosedIssues ens envName app version gitInfo promoteKey s
    = (key', s', (t5 ++ t')%list)
    /\ forallb settled t' = true.
Proof.
  intros Hp. unfold Probe.commentOnClosedIssues.
  eapply settled_tail; [exact Hp|cbv beta iota..].
  - apply calm_bind; [apply calm_call; reflexivity|intros [release [e|]]];
      [apply calm_ret|].
    destruct release as [release|]; [|apply calm_ret].
    apply calm_bind; [apply calm_modify; by intros ?|intros ?].
    apply calm_bind; [|intros ?; apply calm_ret].
    apply forEach_calm. intros issue. apply commentOnIssue_calm.
  - rewrite probe_bind_run. unfold Probe.call at 1.
    destruct (Probe.Releases_Get _ _ _) as [[release [e|]] w6]; [done|].
    destruct release as [release|]; [|done].
    rewrite probe_bind_run. unfold Probe.modify at 1. rewrite probe_bind_run. simpl.
    match goal with
    | |- context [Probe.forEach ?f ?l ?s0] =>
        by destruct (Probe.forEach f l s0) as [[[] s7] t7]
    end.
Qed.

(** X25.  The second half of [commentOnIssues] looks for the service of
    the application under the names [app], [o.ReleaseName] and
    [ens-app], in that order, and stops at the first name for which
    [FindServiceURL] answers a URL that is not empty: it asks for the
    first name only when that one has a URL, for the first two when only
    the second has one, and for all three otherwise; no other service is
    looked up.  When a name has a URL, no ingress is queried, the
    availability note of the comments is " and available [here](<url>)",
    and the key gets that URL as its application URL unless it has one
    already.  In every case nothing of the promote key changes but the
    application URL, and a key that has an application URL is left as it
    is. *)
Theorem commentOnClosedIssues_application_url ens envName app version gitInfo promoteKey
    (s : Probe.State W) :
  let name2 := o_ReleaseName (Probe.options (Probe.receiver s)) in
  let name3 := ens ++ "-" ++ app in
  let a1 := Probe.FindServiceURL ens app (Probe.world s) in
  let a2 := Probe.FindServiceURL ens name2 a1.2 in
  let a3 := Probe.FindServiceURL ens name3 a2.2 in
  let asked := if bool_decide (a1.1.1 ≠ "") then [app]
               else if bool_decide (a2.1.1 ≠ "") then [app; name2]
               else [app; name2; name3] in
  let url := if bool_decide (a1.1.1 ≠ "") then a1.1.1
             else if bool_decide (a2.1.1 ≠ "") then a2.1.1
             else a3.1.1 in
  let p := Probe.findApplicationURL ens app promoteKey s in
  let r := Probe.commentOnClosedIssues ens envName app version gitInfo promoteKey s in
  Probe.servicesOf (Probe.events r) = asked
  /\ (url <> "" ->
      Probe.result r
      = (if bool_decide (Probe.k_ApplicationURL promoteKey = "")
         then Probe.set_ApplicationURL url promoteKey else promoteKey)
      /\ (Probe.result p).2 = " and available [here](" ++ url ++ ")"
      /\ forallb (negb ∘ Probe.isGetIngress) (Probe.events r) = true)
  /\ Probe.pipelineActivityKey (Probe.result r) = Probe.pipelineActivityKey promoteKey
  /\ Probe.k_Environment (Probe.result r) = Probe.k_Environment promoteKey
  /\ (Probe.k_ApplicationURL promoteKey <> "" -> Probe.result r = promoteKey).
Proof.
  intros name2 name3 a1 a2 a3 asked url p r.
  assert (Hp : exists key' available s5 t5,
             p = ((key', available), s5, t5)
             /\ Probe.servicesOf t5 = asked
             /\ (url <> "" ->
                 key' = (if bool_decide (Probe.k_ApplicationURL promoteKey = "")
                         then Probe.set_ApplicationURL url promoteKey else promoteKey)
                 /\ available = " and available [here](" ++ url ++ ")"
                 /\ forallb (negb ∘ Probe.isGetIngress) t5 = true)
             /\ Probe.pipelineActivityKey key' = Probe.pipelineActivityKey promoteKey
             /\ Probe.k_Environment key' = Probe.k_Environment promoteKey
             /\ (Probe.k_ApplicationURL promoteKey <> "" -> key' = promoteKey)).
  { subst p r. unfold Probe.findApplicationURL.
    rewrite probe_bind_run. unfold Probe.get at 1. cbv beta iota zeta.
    rewrite probe_bind_run.
    pose proof (findServiceURL_run ens app name2 name3 s) as Hfind.
    cbv zeta in Hfind. fold name2 name3 in Hfind |- *. fold a1 a2 a3 in Hfind.
    rewrite Hfind. clear Hfind.
    assert (Hs : exists s1, forall t1 : list Probe.Event,
               (if bool_decide (a1.1.1 ≠ "") then
                  (a1.1.1, Probe.mkState (Probe.receiver s) a1.2, t1)
                else if bool_decide (a2.1.1 ≠ "") then
                  (a2.1.1, Probe.mkState (Probe.receiver s) a2.2, t1)
                else (a3.1.1, Probe.mkState (Probe.receiver s) a3.2, t1))
               = (url, s1, t1)).
    { subst url. destruct (bool_decide (a1.1.1 ≠ "")); [by eexists|].
      destruct (bool_decide (a2.1.1 ≠ "")); by eexists. }
    destruct Hs as [s1 Hs].
    assert (Hrun : (if bool_decide (a1.1.1 ≠ "") then
                      (a1.1.1, Probe.mkState (Probe.receiver s) a1.2,
                       [Probe.EvFindServiceURL ens app])
                    else if bool_decide (a2.1.1 ≠ "") then
                      (a2.1.1, Probe.mkState (Probe.receiver s) a2.2,
                       [Probe.EvFindServiceURL ens app; Probe.EvFindServiceURL ens name2])
                    else
                      (a3.1.1, Probe.mkState (Probe.receiver s) a3.2,
                       [Probe.EvFindServiceURL ens app; Probe.EvFindServiceURL ens name2;
                        Probe.EvFindServiceURL ens name3]))
                   = (url, s1, map (Probe.EvFindServiceURL ens) asked)).
    { subst asked. specialize (Hs (map (Probe.EvFindServiceURL ens)
                                      (if bool_decide (a1.1.1 ≠ "") then [app]
                                       else if bool_decide (a2.1.1 ≠ "") then [app; name2]
                                       else [app; name2; name3]))).
      rewrite <- Hs. destruct (bool_decide (a1.1.1 ≠ "")); [done|].
      by destruct (bool_decide (a2.1.1 ≠ "")). }
    rewrite Hrun. clear Hrun Hs.
    assert (Hasked : Probe.servicesOf (map (Probe.EvFindServiceURL ens) asked) = asked).
    { apply servicesOf_asked. }
    pose proof (ingress_asked ens asked) as Hnone.
    generalize dependent (map (Probe.EvFindServiceURL ens) asked). intros t1 Hasked Hnone.
    clearbody url asked. clear a1 a2 a3. cbv beta iota.
    destruct (decide (url = "")) as [->|Hurl].
    - (* no service has a URL: the warning, then the ingress *)
      rewrite (bool_decide_eq_true_2 ("" = "")) by done. rewrite probe_bind_run.
      unfold Probe.Warnf at 1. cbv beta iota. rewrite probe_bind_run.
      rewrite (bool_decide_eq_false_2 ("" ≠ "")) by (by intros ?).
      destruct (Probe.findIngressHost ens app "" "" s1) as [[[url' available] s4] t4]
        eqn:Hing.
      apply (calm_run Probe.options
               (λ e, match e with Probe.EvFindServiceURL _ _ => false | _ => true end))
        in Hing as [_ E4]; [|by apply findIngressHost_calm].
      cbv beta iota. rewrite probe_bind_run.
      destruct (bool_decide (url' ≠ "") && bool_decide (Probe.k_ApplicationURL promoteKey = ""))
        eqn:Hset; probe_unfold; simpl; do 4 eexists; (split; [reflexivity|]);
        (split; [simpl; rewrite servicesOf_app, Hasked, servicesOf_nil;
                 [by rewrite app_nil_r|simpl; by rewrite ?forallb_app, ?E4]|]);
        (split; [done|]); repeat split; try done.
      apply andb_true_iff in Hset as [_ Hk%bool_decide_eq_true_1]. by intros ?.
    - (* a service has a URL *)
      rewrite (bool_decide_eq_false_2 _ Hurl), (bool_decide_eq_true_2 _ Hurl).
      rewrite probe_bind_run. probe_unfold. cbv beta iota. simpl.
      unfold Probe.findIngressHost. simpl. probe_unfold. simpl.
      rewrite (bool_decide_eq_true_2 _ Hurl). simpl.
      destruct (bool_decide (Probe.k_ApplicationURL promoteKey = "")) eqn:Hk; simpl;
        do 4 eexists; (split; [reflexivity|]);
        (split; [simpl; rewrite servicesOf_app, Hasked, servicesOf_nil;
                 [by rewrite app_nil_r|done]|]);
        (split; [intros _; repeat split; try done;
                 by rewrite !forallb_app, Hnone
                |]); repeat split; try done.
      all: try (apply bool_decide_eq_false_1 in Hk; done).
      all: apply bool_decide_eq_true_1 in Hk; by intros ?. }
  destruct Hp as (key' & available & s5 & t5 & Hp & Hasked & Hfound & Hkey).
  destruct (commentOnClosedIssues_run ens envName app version gitInfo promoteKey s
              key' available s5 t5 Hp) as (s' & t' & Hrun & Ht').
  subst r. rewrite Hrun, Hp. unfold Probe.result, Probe.events. simpl.
  split; [by rewrite servicesOf_app, Hasked, (settled_services _ Ht'), app_nil_r|].
  split; [|exact Hkey].
  intros Hurl. destruct (Hfound Hurl) as (Hk & Ha & Hi).
  repeat split; [done|done|].
  by rewrite forallb_app, Hi, (settled_ingresses _ Ht').
Qed.

End ApplicationURL.

(** The theorem of X24 in the cluster [released]: of the four issues of
    the release found, the two that are closed and have a numeric
    identifier are commented, although the provider refuses the
    comments. *)
Lemma commentOnClosedIssues_comments_witness :
  let r := Probe.commentOnClosedIssues "jx-staging" "Staging" "myapp" "2.0.0"
             {| gi_Organisation := "acme"; gi_Name := "myapp" |} Probe.blankKey
             (Probe.mkState (Probe.fresh "staging-myapp") Probe.released) in
  let comment := ":white_check_mark: the fix for this issue is now deployed to **Staging** in version 2.0.0  and available [here](http://myapp.staging)" in
  Probe.commentsOf (Probe.events r) = [(12, comment); (15, comment)]
  /\ Probe.releaseResource (Probe.receiver (Probe.final r))
     = Probe.lab_releases Probe.released !! "myapp-2.0.0".
Proof.
  intros r comment.
  pose proof (commentOnClosedIssues_comments "jx-staging" "Staging" "myapp" "2.0.0"
                {| gi_Organisation := "acme"; gi_Name := "myapp" |} Probe.blankKey
                (Probe.mkState (Probe.fresh "staging-myapp") Probe.released)) as Hall.
  vm_compute in Hall. vm_compute. exact Hall.
Defined.

(** The theorem of X25 in the same cluster: the service is found under
    the second name, so the third is not asked for, no ingress is
    queried and the key gets the URL of the service. *)
Lemma commentOnClosedIssues_application_url_witness :
  let r := Probe.commentOnClosedIssues "jx-staging" "Staging" "myapp" "2.0.0"
             {| gi_Organisation := "acme"; gi_Name := "myapp" |} Probe.blankKey
             (Probe.mkState (Probe.fresh "staging-myapp") Probe.released) in
  Probe.servicesOf (Probe.events r) = ["myapp"; "staging-myapp"]
  /\ Probe.result r = Probe.set_ApplicationURL "http://myapp.staging" Probe.blankKey
  /\ forallb (negb ∘ Probe.isGetIngress) (Probe.events r) = true.
Proof.
  intros r.
  pose proof (commentOnClosedIssues_application_url "jx-staging" "Staging" "myapp" "2.0.0"
                {| gi_Organisation := "acme"; gi_Name := "myapp" |} Probe.blankKey
                (Probe.mkState (Probe.fresh "staging-myapp") Probe.released))
    as (Hasked & Hfound & _).
  split; [exact Hasked|].
  assert (Hurl : "http://myapp.staging" <> "") by done.
  destruct (Hfound Hurl) as (Hres & _ & Hnone). by split.
Defined.

(* ===================================================================== *)
(** * Validation of a maintainer *)

Section MaintainerValidation.
Context {E : Type} `{!models.Validators E}.

Lemma validateField_returns name field :
  (forall name in_, models.Required name in_ None <> None) ->
  exists err,
    models.validateField name field = models.Returns err
    /\ (err = None <->
        exists value, field = Some value
                      /\ models.Required name "body" (Some value) = None
                      /\ models.MinLength name "body" value 1 = None).
Proof.
  intros Hreq. unfold models.validateField.
  destruct (models.Required name "body" field) as [e|] eqn:Hr.
  - exists (Some e). split; [done|]. split; [done|].
    intros (value & -> & Hv & _). congruence.
  - destruct field as [value|]; [|by apply Hreq in Hr].
    destruct (models.MinLength name "body" value 1) as [e|] eqn:Hm.
    + exists (Some e). split; [done|]. split; [done|].
      intros (value' & [= <-] & _ & Hv). congruence.
    + exists None. split; [done|]. split; [|done]. intros _. by exists value.
Qed.

(** X26.  Provided [validate.Required] rejects a nil pointer,
    [Maintainer.Validate] never dereferences one, and it returns nil
    exactly when both the email and the name are present and pass
    [Required] and [MinLength] with length 1.  A failing email does not
    stop the validation of the name: the error returned is the composite
    of the errors of the two fields, the one of the email first. *)
Theorem Validate_checks_both_fields (m : models.Maintainer) :
  (forall name in_, models.Required name in_ None <> None) ->
  exists err1 err2,
    models.validateEmail m = models.Returns err1
    /\ models.validateName m = models.Returns err2
    /\ models.Validate m
       = models.Returns
           (match err1, err2 with
            | None, None => None
            | _, _ => Some (models.CompositeValidationError
                              (option_list err1 ++ option_list err2))
            end)
    /\ (models.Validate m = models.Returns None <->
        exists email name,
          models.m_Email m = Some email /\ models.m_Name m = Some name
          /\ models.Required "email" "body" (Some email) = None
          /\ models.MinLength "email" "body" email 1 = None
          /\ models.Required "name" "body" (Some name) = None
          /\ models.MinLength "name" "body" name 1 = None).
Proof.
  intros Hreq.
  destruct (validateField_returns "email" (models.m_Email m) Hreq) as (err1 & H1 & Hnil1).
  destruct (validateField_returns "name" (models.m_Name m) Hreq) as (err2 & H2 & Hnil2).
  exists err1, err2. unfold models.Validate, models.validateEmail, models.validateName.
  rewrite H1, H2. split; [done|]. split; [done|].
  assert (Hres : (if bool_decide (0 < length (match err1 with Some err => [err] | None => [] end
                                     ++ match err2 with Some err => [err] | None => [] end))%nat
                  then models.Returns
                         (Some (models.CompositeValidationError
                                  (match err1 with Some err => [err] | None => [] end
                                   ++ match err2 with Some err => [err] | None => [] end)))
                  else models.Returns None)
                 = models.Returns
                     (match err1, err2 with
                      | None, None => None
                      | _, _ => Some (models.CompositeValidationError
                                        (option_list err1 ++ option_list err2))
                      end)).
  { by destruct err1, err2. }
  split; [exact Hres|]. rewrite Hres. split.
  - intros Hnone.
    assert (err1 = None /\ err2 = None) as [E1 E2] by (by destruct err1, err2).
    apply Hnil1 in E1 as (email & ? & ? & ?). apply Hnil2 in E2 as (name & ? & ? & ?).
    by exists email, name.
  - intros (email & name & ? & ? & ? & ? & ? & ?).
    assert (err1 = None) as -> by (apply Hnil1; by exists email).
    assert (err2 = None) as -> by (apply Hnil2; by exists name).
    done.
Qed.

End MaintainerValidation.

(** The theorem of X26 at a maintainer without an email and with an
    empty name, under the validators that name the field. *)
Lemma Validate_checks_both_fields_witness :
  let m := {| models.m_Email := None; models.m_Name := Some "" |} in
  (forall name in_ : string, models.Required (E:=string) name in_ None <> None)
  /\ models.Validate m = models.Returns (Some "email is required; name is too short").
Proof.
  intros m.
  assert (Hreq : forall name in_ : string, models.Required (E:=string) name in_ None <> None)
    by done.
  split; [exact Hreq|].
  destruct (Validate_checks_both_fields m Hreq) as (err1 & err2 & H1 & H2 & Hv & _).
  rewrite Hv. vm_compute in H1, H2.
  injection H1 as <-. injection H2 as <-. reflexivity.
Defined.

(* ===================================================================== *)
(** * The version resolver on any answer *)

Section LeastVersion.
Context {W : Type} `{!Services W}.

(** X1.  When the search for the chart versions fails,
    [findLatestVersion] returns that error and does nothing else.  When
    it succeeds and at least one of the strings parses as a semantic
    version, the strings that do not parse play no part: the function
    returns, without error, the text of a parsed version that compares
    less than or equal to every parsed version of the answer, the least
    of them and not the greatest. *)
Theorem findLatestVersion_least_parsed app (s : State W) versions err w1 :
  Helm_SearchChartVersions app (world s) = ((versions, err), w1) ->
  (err = None -> exists v sv, v ∈ versions /\ semver.Parse v = Some sv) ->
  match err with
  | Some e =>
      findLatestVersion app s
      = Ret ("", Some e) (mkState (opts s) w1) [EvSearchChartVersions app]
  | None =>
      exists m t,
        findLatestVersion app s = Ret (semver.String m, None) (mkState (opts s) w1) t
        /\ (exists v, v ∈ versions /\ semver.Parse v = Some m)
        /\ forall v sv, v ∈ versions -> semver.Parse v = Some sv -> semver.Compare m sv <= 0
  end.
Proof.
  intros Hsearch Hparsed. destruct err as [e|].
  - unfold findLatestVersion.
    erewrite bind_Ret by (unfold call; rewrite Hsearch; reflexivity).
    reflexivity.
  - destruct (findLatestVersion_keeps_least app s versions w1 Hsearch (Hparsed eq_refl))
      as (m & t & Hrun & Hfrom & Hleast).
    by exists m, t.
Qed.

End LeastVersion.

(** The theorem of X1 at an answer with a string that does not parse
    among three versions. *)
Lemma findLatestVersion_least_parsed_witness :
  let versions := ["1.0.0"; "latest"; "1.2.0"; "0.9.5"] in
  let s := Scripted.start (Scripted.quiet [] versions) in
  (exists v sv, v ∈ versions /\ semver.Parse v = Some sv)
  /\ exists m t,
       findLatestVersion "myapp" s = Ret (semver.String m, None) s t
       /\ (exists v, v ∈ versions /\ semver.Parse v = Some m)
       /\ forall v sv, v ∈ versions -> semver.Parse v = Some sv -> semver.Compare m sv <= 0.
Proof.
  intros versions s.
  assert (Hp : exists v sv, v ∈ versions /\ semver.Parse v = Some sv).
  { eexists "1.0.0", _. split; [by left|]. vm_compute. reflexivity. }
  split; [exact Hp|].
  exact (findLatestVersion_least_parsed "myapp" s versions None (world s) eq_refl
           (fun _ => Hp)).
Defined.

(* ===================================================================== *)
(** * The pull-request path of [Promote] *)

Section PullRequestPath.
Context {W : Type} `{!Services W}.

(** X27.  For a permanent environment with a source repository (and no
    confirmation asked), [Promote] goes through the promoter and makes no
    call to the Helm client of its own.  When the promoter fails,
    [Promote] returns its error at once, with the release info as the
    promoter left it: nothing is recorded in the ledger and there is no
    pause.  When the promoter succeeds, the pull-request step is started
    in the ledger with the URL of the pull request, [Promote] sleeps for
    three seconds, and it returns what the ledger answered. *)
Theorem Promote_via_pull_request targetNS env warnIfAuto (s : State W)
    promoteKey w1 ri' perr s2 t2 :
  let o := withReleaseName (opts s) targetNS in
  let version := o_Version (opts s) in
  let ri : ReleaseInfo W :=
    {| ri_ReleaseName := releaseNameOf (opts s) targetNS;
       ri_FullAppName := fullAppNameOf (opts s);
       ri_Version := version; ri_PullRequestInfo := None |} in
  let fn := startPromotePR (pr_URL ∘ pri_PullRequest <$> ri_PullRequestInfo ri') version in
  o_Application (opts s) <> "" ->
  warnIfAuto && is_Automatic (spec_PromotionStrategy (env_Spec env)) = false ->
  spec_Source_URL (env_Spec env) <> "" ->
  IsPermanent (spec_Kind (env_Spec env)) = true ->
  createPromoteKey o env (world s) = (promoteKey, w1) ->
  PromoteViaPullRequest env ri (mkState o w1) = Ret (ri', perr) s2 t2 ->
  Promote targetNS env warnIfAuto s
  = match perr with
    | Some e =>
        Ret (Some ri', Some e) s2
            ([promotingLine (opts s) targetNS; EvCreatePromoteKey (env_Name env)] ++ t2)
    | None =>
        let '(r, w3) := OnPromotePullRequest promoteKey fn (world s2) in
        Ret (Some ri', r)
            (mkState (opts s2) (time_Sleep waitAfterPullRequestCreated w3).2)
            ([promotingLine (opts s) targetNS; EvCreatePromoteKey (env_Name env)] ++ t2
             ++ [EvOnPromotePullRequest promoteKey fn;
                 EvSleep waitAfterPullRequestCreated])
    end.
Proof.
  intros o version ri fn Happ Hwarn Hurl Hperm Hkey Hpr.
  subst o version ri fn.
  unfold withReleaseName, releaseNameOf, fullAppNameOf, promotingLine in *.
  unfold Promote.
  set (pvpr := PromoteViaPullRequest env) in *.
  go.
  rewrite (bool_decide_eq_false_2 _ Happ), Hwarn.
  rewrite (bool_decide_eq_true_2 _ Hurl), Hperm in *.
  destruct (bool_decide (o_Version (opts s) = ""));
    destruct (bool_decide (o_ReleaseName (opts s) = ""));
    simpl in *; rewrite Hkey; simpl; rewrite Hpr; simpl;
    (destruct perr as [e|]; simpl; [by rewrite ?app_nil_r|]);
    destruct (OnPromotePullRequest _ _ _) as [r w3]; simpl;
    destruct (time_Sleep _ w3) as [[] w4]; simpl;
    by rewrite <- ?app_assoc.
Qed.

End PullRequestPath.

(** The theorem of X27 at the promotion to "staging" when the promoter
    finds no pull request to open: its error is returned, and the trace
    ends with the promoter. *)
Lemma Promote_via_pull_request_witness :
  let s := Scripted.start (Scripted.quiet [] []) in
  let ri : ReleaseInfo Scripted.World :=
    {| ri_ReleaseName := "jx-staging-myapp"; ri_FullAppName := "repo/myapp";
       ri_Version := "2.0.0"; ri_PullRequestInfo := None |} in
  Promote "jx-staging" Scripted.staging false s
  = Ret (Some ri, Some "no pull request")
        (mkState (set_ReleaseName "jx-staging-myapp" Scripted.options) (world s))
        [EvLog Info ("Promoting app myapp version 2.0.0 to namespace jx-staging" ++ nl);
         EvCreatePromoteKey "staging";
         EvCreateEnvironmentPullRequest "staging" "promote-myapp-2.0.0" "myapp to 2.0.0"
           "Promote myapp to version 2.0.0"].
Proof.
  intros s ri.
  assert (Happ : o_Application (opts s) <> "") by done.
  assert (Hurl : spec_Source_URL (env_Spec Scripted.staging) <> "") by done.
  exact (Promote_via_pull_request "jx-staging" Scripted.staging false s
           Scripted.promoteKey (world s) ri (Some "no pull request")
           (mkState (set_ReleaseName "jx-staging-myapp" Scripted.options) (world s))
           [EvCreateEnvironmentPullRequest "staging" "promote-myapp-2.0.0" "myapp to 2.0.0"
              "Promote myapp to version 2.0.0"]
           Happ eq_refl Hurl eq_refl eq_refl eq_refl).
Defined.

(* ===================================================================== *)
(** * The build URLs of the promote key *)

Section BuildURLs.
Context {W : Type} `{!Probe.Host W}.

Lemma buildURLs_result pipeline build buildURL buildLogsURL (s : Probe.State W) :
  let '(name, u, l) := Probe.result (Probe.buildURLs pipeline build buildURL buildLogsURL s) in
  (buildURL <> "" -> u = buildURL)
  /\ (buildLogsURL <> "" -> l = buildLogsURL)
  /\ (build = "" -> u = buildURL /\ l = buildLogsURL)
  /\ (buildLogsURL = "" -> l = "" \/ l = Probe.UrlJoin [u; "console"]).
Proof.
  unfold Probe.buildURLs.
  destruct (decide (build = "")) as [->|Hbuild]; [simpl; by auto|].
  rewrite (bool_decide_eq_true_2 _ Hbuild).
  destruct (decide (buildURL = "")) as [->|Hu];
    destruct (decide (buildLogsURL = "")) as [->|Hl];
    rewrite ?(bool_decide_eq_false_2 _ Hu), ?(bool_decide_eq_false_2 _ Hl); simpl;
    try (by auto);
    rewrite probe_bind_run;
    destruct (Probe.getJenkinsURL s) as [[jenkinsURL s1] t1];
    destruct (bool_decide (jenkinsURL ≠ "")); simpl;
    rewrite ?(bool_decide_eq_false_2 _ Hu), ?(bool_decide_eq_false_2 _ Hl); simpl;
    repeat split; auto; done.
Qed.

(** X28.  [createPromoteKey] never replaces a build URL or a build log
    URL given by BUILD_URL or BUILD_LOG_URL.  A URL that is not given is
    derived only when the key has a build, and a derived log URL is the
    "console" page below the build URL of the key; without a build both
    URLs of the key are the values of the two variables. *)
Theorem createPromoteKey_build_urls env (s : Probe.State W) :
  let url := Probe.os_Getenv "BUILD_URL" (Probe.world s) in
  let logs := Probe.os_Getenv "BUILD_LOG_URL" (Probe.world s) in
  let key := Probe.pipelineActivityKey (Probe.result (Probe.createPromoteKey env s)) in
  (url <> "" -> Probe.k_BuildURL key = url)
  /\ (logs <> "" -> Probe.k_BuildLogsURL key = logs)
  /\ (Probe.k_Build key = "" ->
      Probe.k_BuildURL key = url /\ Probe.k_BuildLogsURL key = logs)
  /\ (logs = "" ->
      Probe.k_BuildLogsURL key = ""
      \/ Probe.k_BuildLogsURL key = Probe.UrlJoin [Probe.k_BuildURL key; "console"]).
Proof.
  intros url logs key. subst key.
  change (Probe.post (Probe.createPromoteKey env s)
            (λ k _ _,
               let key := Probe.pipelineActivityKey k in
               (url <> "" -> Probe.k_BuildURL key = url)
               /\ (logs <> "" -> Probe.k_BuildLogsURL key = logs)
               /\ (Probe.k_Build key = "" ->
                   Probe.k_BuildURL key = url /\ Probe.k_BuildLogsURL key = logs)
               /\ (logs = "" ->
                   Probe.k_BuildLogsURL key = ""
                   \/ Probe.k_BuildLogsURL key
                      = Probe.UrlJoin [Probe.k_BuildURL key; "console"]))).
  unfold Probe.createPromoteKey.
  apply probe_post_bind. intros ? s1 t1 (-> & R1 & W1 & ->)%getenv_run.
  apply probe_post_bind. intros ? s2 t2 (-> & R2 & W2 & ->)%getenv_run.
  apply probe_post_bind. intros ? s3 t3 (-> & R3 & W3 & ->)%getenv_run.
  apply probe_post_bind. intros ? s4 t4 (-> & R4 & W4 & ->)%getenv_run.
  rewrite W1. rewrite W2, W1. rewrite W3, W2, W1.
  fold url logs.
  apply probe_post_bind. intros [gitInfo err] s5 t5 _.
  apply probe_post_bind. intros [] s6 t6 _.
  apply probe_post_bind. intros o s7 t7 _.
  apply probe_post_bind. intros [] s8 t8 _.
  apply probe_post_bind. intros [pipeline build] s9 t9 _.
  apply probe_post_bind. intros [[name buildURL] buildLogsURL] s10 t10 H10.
  pose proof (buildURLs_result pipeline build url logs s9) as Hres.
  rewrite H10 in Hres. unfold Probe.result in Hres. simpl in Hres.
  apply probe_post_bind. intros [] s11 t11 _.
  unfold Probe.post, Probe.result. simpl. exact Hres.
Qed.

End BuildURLs.
